(** * Verification of scripts/run_llm_trials.py

    A shallow embedding of the trial pipeline of [scripts/run_llm_trials.py]
    (trial discovery, reply parsing, answer and confidence normalisation, the
    chat-completions adapter, the trial runner and the report writer), and the
    properties of it that the specification states.

    Python values are embedded as follows.
    - [str] is a list of Unicode code points ([N]).  [str.upper],
      [str.isprintable] and the decimal digits that [float] reads follow the
      character database of Unicode 14.0.0; [str.lower] maps the letters of
      ASCII, the program only comparing lower-cased text with ASCII words.
    - [float] is IEEE binary64, as [spec_float] with precision 53 and
      maximal exponent 1024; conversions round to nearest, ties to even.
    - [int] is [Z].
    - an exception is a value of [exn]; a computation that may raise returns
      [exn + A].
    - the wall clock (in microseconds), the provider and the file system
      are explicit state; the bytes of the report file are passed in and
      returned, with the outcome of the call. *)

From Stdlib Require Import Ascii String ZArith NArith PArith List Bool Lia.
From Stdlib Require Import Floats.SpecFloat DecimalString Sorting.Sorted Permutation.
Import ListNotations.

Local Open Scope Z_scope.

(** ** Tables of the Unicode character database

    The data of Unicode 14.0.0, the version of CPython 3.11, that the string
    methods of the program depend on. *)

(** The letters with an upper case of one character: [(first, last, step,
    delta)] says that every [step]-th character from [first] to [last] has
    the upper case [delta] places further on. *)
Definition upper_runs : list (Z * Z * Z * Z) :=
  [
    (97, 122, 1, -32); (181, 181, 1, 743); (224, 246, 1, -32); (248, 254, 1, -32); (255, 255, 1,
    121); (257, 303, 2, -1); (305, 305, 1, -232); (307, 311, 2, -1); (314, 328, 2, -1); (331,
    375, 2, -1); (378, 382, 2, -1); (383, 383, 1, -300); (384, 384, 1, 195); (387, 389, 2, -1);
    (392, 392, 1, -1); (396, 396, 1, -1); (402, 402, 1, -1); (405, 405, 1, 97); (409, 409, 1,
    -1); (410, 410, 1, 163); (414, 414, 1, 130); (417, 421, 2, -1); (424, 424, 1, -1); (429,
    429, 1, -1); (432, 432, 1, -1); (436, 438, 2, -1); (441, 441, 1, -1); (445, 445, 1, -1);
    (447, 447, 1, 56); (453, 453, 1, -1); (454, 454, 1, -2); (456, 456, 1, -1); (457, 457, 1,
    -2); (459, 459, 1, -1); (460, 460, 1, -2); (462, 476, 2, -1); (477, 477, 1, -79); (479, 495,
    2, -1); (498, 498, 1, -1); (499, 499, 1, -2); (501, 501, 1, -1); (505, 543, 2, -1); (547,
    563, 2, -1); (572, 572, 1, -1); (575, 576, 1, 10815); (578, 578, 1, -1); (583, 591, 2, -1);
    (592, 592, 1, 10783); (593, 593, 1, 10780); (594, 594, 1, 10782); (595, 595, 1, -210); (596,
    596, 1, -206); (598, 599, 1, -205); (601, 601, 1, -202); (603, 603, 1, -203); (604, 604, 1,
    42319); (608, 608, 1, -205); (609, 609, 1, 42315); (611, 611, 1, -207); (613, 613, 1,
    42280); (614, 614, 1, 42308); (616, 616, 1, -209); (617, 617, 1, -211); (618, 618, 1,
    42308); (619, 619, 1, 10743); (620, 620, 1, 42305); (623, 623, 1, -211); (625, 625, 1,
    10749); (626, 626, 1, -213); (629, 629, 1, -214); (637, 637, 1, 10727); (640, 640, 1, -218);
    (642, 642, 1, 42307); (643, 643, 1, -218); (647, 647, 1, 42282); (648, 648, 1, -218); (649,
    649, 1, -69); (650, 651, 1, -217); (652, 652, 1, -71); (658, 658, 1, -219); (669, 669, 1,
    42261); (670, 670, 1, 42258); (837, 837, 1, 84); (881, 883, 2, -1); (887, 887, 1, -1); (891,
    893, 1, 130); (940, 940, 1, -38); (941, 943, 1, -37); (945, 961, 1, -32); (962, 962, 1,
    -31); (963, 971, 1, -32); (972, 972, 1, -64); (973, 974, 1, -63); (976, 976, 1, -62); (977,
    977, 1, -57); (981, 981, 1, -47); (982, 982, 1, -54); (983, 983, 1, -8); (985, 1007, 2, -1);
    (1008, 1008, 1, -86); (1009, 1009, 1, -80); (1010, 1010, 1, 7); (1011, 1011, 1, -116);
    (1013, 1013, 1, -96); (1016, 1016, 1, -1); (1019, 1019, 1, -1); (1072, 1103, 1, -32); (1104,
    1119, 1, -80); (1121, 1153, 2, -1); (1163, 1215, 2, -1); (1218, 1230, 2, -1); (1231, 1231,
    1, -15); (1233, 1327, 2, -1); (1377, 1414, 1, -48); (4304, 4346, 1, 3008); (4349, 4351, 1,
    3008); (5112, 5117, 1, -8); (7296, 7296, 1, -6254); (7297, 7297, 1, -6253); (7298, 7298, 1,
    -6244); (7299, 7300, 1, -6242); (7301, 7301, 1, -6243); (7302, 7302, 1, -6236); (7303, 7303,
    1, -6181); (7304, 7304, 1, 35266); (7545, 7545, 1, 35332); (7549, 7549, 1, 3814); (7566,
    7566, 1, 35384); (7681, 7829, 2, -1); (7835, 7835, 1, -59); (7841, 7935, 2, -1); (7936,
    7943, 1, 8); (7952, 7957, 1, 8); (7968, 7975, 1, 8); (7984, 7991, 1, 8); (8000, 8005, 1, 8);
    (8017, 8023, 2, 8); (8032, 8039, 1, 8); (8048, 8049, 1, 74); (8050, 8053, 1, 86); (8054,
    8055, 1, 100); (8056, 8057, 1, 128); (8058, 8059, 1, 112); (8060, 8061, 1, 126); (8112,
    8113, 1, 8); (8126, 8126, 1, -7205); (8144, 8145, 1, 8); (8160, 8161, 1, 8); (8165, 8165, 1,
    7); (8526, 8526, 1, -28); (8560, 8575, 1, -16); (8580, 8580, 1, -1); (9424, 9449, 1, -26);
    (11312, 11359, 1, -48); (11361, 11361, 1, -1); (11365, 11365, 1, -10795); (11366, 11366, 1,
    -10792); (11368, 11372, 2, -1); (11379, 11379, 1, -1); (11382, 11382, 1, -1); (11393, 11491,
    2, -1); (11500, 11502, 2, -1); (11507, 11507, 1, -1); (11520, 11557, 1, -7264); (11559,
    11559, 1, -7264); (11565, 11565, 1, -7264); (42561, 42605, 2, -1); (42625, 42651, 2, -1);
    (42787, 42799, 2, -1); (42803, 42863, 2, -1); (42874, 42876, 2, -1); (42879, 42887, 2, -1);
    (42892, 42892, 1, -1); (42897, 42899, 2, -1); (42900, 42900, 1, 48); (42903, 42921, 2, -1);
    (42933, 42947, 2, -1); (42952, 42954, 2, -1); (42961, 42961, 1, -1); (42967, 42969, 2, -1);
    (42998, 42998, 1, -1); (43859, 43859, 1, -928); (43888, 43967, 1, -38864); (65345, 65370, 1,
    -32); (66600, 66639, 1, -40); (66776, 66811, 1, -40); (66967, 67003, 2, -39); (66968, 66976,
    2, -39); (66980, 66992, 2, -39); (66996, 67000, 2, -39); (67004, 67004, 1, -39); (68800,
    68850, 1, -64); (71872, 71903, 1, -32); (93792, 93823, 1, -32); (125218, 125251, 1, -34)
  ].

(** The characters whose upper case is two or three characters. *)
Definition upper_special : list (Z * list Z) :=
  [
    (223, [83; 83]); (329, [700; 78]); (496, [74; 780]); (912, [921; 776; 769]); (944, [933;
    776; 769]); (1415, [1333; 1362]); (7830, [72; 817]); (7831, [84; 776]); (7832, [87; 778]);
    (7833, [89; 778]); (7834, [65; 702]); (8016, [933; 787]); (8018, [933; 787; 768]); (8020,
    [933; 787; 769]); (8022, [933; 787; 834]); (8064, [7944; 921]); (8065, [7945; 921]); (8066,
    [7946; 921]); (8067, [7947; 921]); (8068, [7948; 921]); (8069, [7949; 921]); (8070, [7950;
    921]); (8071, [7951; 921]); (8072, [7944; 921]); (8073, [7945; 921]); (8074, [7946; 921]);
    (8075, [7947; 921]); (8076, [7948; 921]); (8077, [7949; 921]); (8078, [7950; 921]); (8079,
    [7951; 921]); (8080, [7976; 921]); (8081, [7977; 921]); (8082, [7978; 921]); (8083, [7979;
    921]); (8084, [7980; 921]); (8085, [7981; 921]); (8086, [7982; 921]); (8087, [7983; 921]);
    (8088, [7976; 921]); (8089, [7977; 921]); (8090, [7978; 921]); (8091, [7979; 921]); (8092,
    [7980; 921]); (8093, [7981; 921]); (8094, [7982; 921]); (8095, [7983; 921]); (8096, [8040;
    921]); (8097, [8041; 921]); (8098, [8042; 921]); (8099, [8043; 921]); (8100, [8044; 921]);
    (8101, [8045; 921]); (8102, [8046; 921]); (8103, [8047; 921]); (8104, [8040; 921]); (8105,
    [8041; 921]); (8106, [8042; 921]); (8107, [8043; 921]); (8108, [8044; 921]); (8109, [8045;
    921]); (8110, [8046; 921]); (8111, [8047; 921]); (8114, [8122; 921]); (8115, [913; 921]);
    (8116, [902; 921]); (8118, [913; 834]); (8119, [913; 834; 921]); (8124, [913; 921]); (8130,
    [8138; 921]); (8131, [919; 921]); (8132, [905; 921]); (8134, [919; 834]); (8135, [919; 834;
    921]); (8140, [919; 921]); (8146, [921; 776; 768]); (8147, [921; 776; 769]); (8150, [921;
    834]); (8151, [921; 776; 834]); (8162, [933; 776; 768]); (8163, [933; 776; 769]); (8164,
    [929; 787]); (8166, [933; 834]); (8167, [933; 776; 834]); (8178, [8186; 921]); (8179, [937;
    921]); (8180, [911; 921]); (8182, [937; 834]); (8183, [937; 834; 921]); (8188, [937; 921]);
    (64256, [70; 70]); (64257, [70; 73]); (64258, [70; 76]); (64259, [70; 70; 73]); (64260, [70;
    70; 76]); (64261, [83; 84]); (64262, [83; 84]); (64275, [1348; 1350]); (64276, [1348;
    1333]); (64277, [1348; 1339]); (64278, [1358; 1350]); (64279, [1348; 1341])
  ].

(** The ranges [(first, last)] of the characters that [str.isprintable]
    refuses: controls, formats, surrogates, private use, unassigned, and the
    separators other than the space. *)
Definition not_printable : list (Z * Z) :=
  [
    (0, 31); (127, 160); (173, 173); (888, 889); (896, 899); (907, 907); (909, 909); (930, 930);
    (1328, 1328); (1367, 1368); (1419, 1420); (1424, 1424); (1480, 1487); (1515, 1518); (1525,
    1541); (1564, 1564); (1757, 1757); (1806, 1807); (1867, 1868); (1970, 1983); (2043, 2044);
    (2094, 2095); (2111, 2111); (2140, 2141); (2143, 2143); (2155, 2159); (2191, 2199); (2274,
    2274); (2436, 2436); (2445, 2446); (2449, 2450); (2473, 2473); (2481, 2481); (2483, 2485);
    (2490, 2491); (2501, 2502); (2505, 2506); (2511, 2518); (2520, 2523); (2526, 2526); (2532,
    2533); (2559, 2560); (2564, 2564); (2571, 2574); (2577, 2578); (2601, 2601); (2609, 2609);
    (2612, 2612); (2615, 2615); (2618, 2619); (2621, 2621); (2627, 2630); (2633, 2634); (2638,
    2640); (2642, 2648); (2653, 2653); (2655, 2661); (2679, 2688); (2692, 2692); (2702, 2702);
    (2706, 2706); (2729, 2729); (2737, 2737); (2740, 2740); (2746, 2747); (2758, 2758); (2762,
    2762); (2766, 2767); (2769, 2783); (2788, 2789); (2802, 2808); (2816, 2816); (2820, 2820);
    (2829, 2830); (2833, 2834); (2857, 2857); (2865, 2865); (2868, 2868); (2874, 2875); (2885,
    2886); (2889, 2890); (2894, 2900); (2904, 2907); (2910, 2910); (2916, 2917); (2936, 2945);
    (2948, 2948); (2955, 2957); (2961, 2961); (2966, 2968); (2971, 2971); (2973, 2973); (2976,
    2978); (2981, 2983); (2987, 2989); (3002, 3005); (3011, 3013); (3017, 3017); (3022, 3023);
    (3025, 3030); (3032, 3045); (3067, 3071); (3085, 3085); (3089, 3089); (3113, 3113); (3130,
    3131); (3141, 3141); (3145, 3145); (3150, 3156); (3159, 3159); (3163, 3164); (3166, 3167);
    (3172, 3173); (3184, 3190); (3213, 3213); (3217, 3217); (3241, 3241); (3252, 3252); (3258,
    3259); (3269, 3269); (3273, 3273); (3278, 3284); (3287, 3292); (3295, 3295); (3300, 3301);
    (3312, 3312); (3315, 3327); (3341, 3341); (3345, 3345); (3397, 3397); (3401, 3401); (3408,
    3411); (3428, 3429); (3456, 3456); (3460, 3460); (3479, 3481); (3506, 3506); (3516, 3516);
    (3518, 3519); (3527, 3529); (3531, 3534); (3541, 3541); (3543, 3543); (3552, 3557); (3568,
    3569); (3573, 3584); (3643, 3646); (3676, 3712); (3715, 3715); (3717, 3717); (3723, 3723);
    (3748, 3748); (3750, 3750); (3774, 3775); (3781, 3781); (3783, 3783); (3790, 3791); (3802,
    3803); (3808, 3839); (3912, 3912); (3949, 3952); (3992, 3992); (4029, 4029); (4045, 4045);
    (4059, 4095); (4294, 4294); (4296, 4300); (4302, 4303); (4681, 4681); (4686, 4687); (4695,
    4695); (4697, 4697); (4702, 4703); (4745, 4745); (4750, 4751); (4785, 4785); (4790, 4791);
    (4799, 4799); (4801, 4801); (4806, 4807); (4823, 4823); (4881, 4881); (4886, 4887); (4955,
    4956); (4989, 4991); (5018, 5023); (5110, 5111); (5118, 5119); (5760, 5760); (5789, 5791);
    (5881, 5887); (5910, 5918); (5943, 5951); (5972, 5983); (5997, 5997); (6001, 6001); (6004,
    6015); (6110, 6111); (6122, 6127); (6138, 6143); (6158, 6158); (6170, 6175); (6265, 6271);
    (6315, 6319); (6390, 6399); (6431, 6431); (6444, 6447); (6460, 6463); (6465, 6467); (6510,
    6511); (6517, 6527); (6572, 6575); (6602, 6607); (6619, 6621); (6684, 6685); (6751, 6751);
    (6781, 6782); (6794, 6799); (6810, 6815); (6830, 6831); (6863, 6911); (6989, 6991); (7039,
    7039); (7156, 7163); (7224, 7226); (7242, 7244); (7305, 7311); (7355, 7356); (7368, 7375);
    (7419, 7423); (7958, 7959); (7966, 7967); (8006, 8007); (8014, 8015); (8024, 8024); (8026,
    8026); (8028, 8028); (8030, 8030); (8062, 8063); (8117, 8117); (8133, 8133); (8148, 8149);
    (8156, 8156); (8176, 8177); (8181, 8181); (8191, 8207); (8232, 8239); (8287, 8303); (8306,
    8307); (8335, 8335); (8349, 8351); (8385, 8399); (8433, 8447); (8588, 8591); (9255, 9279);
    (9291, 9311); (11124, 11125); (11158, 11158); (11508, 11512); (11558, 11558); (11560,
    11564); (11566, 11567); (11624, 11630); (11633, 11646); (11671, 11679); (11687, 11687);
    (11695, 11695); (11703, 11703); (11711, 11711); (11719, 11719); (11727, 11727); (11735,
    11735); (11743, 11743); (11870, 11903); (11930, 11930); (12020, 12031); (12246, 12271);
    (12284, 12288); (12352, 12352); (12439, 12440); (12544, 12548); (12592, 12592); (12687,
    12687); (12772, 12783); (12831, 12831); (42125, 42127); (42183, 42191); (42540, 42559);
    (42744, 42751); (42955, 42959); (42962, 42962); (42964, 42964); (42970, 42993); (43053,
    43055); (43066, 43071); (43128, 43135); (43206, 43213); (43226, 43231); (43348, 43358);
    (43389, 43391); (43470, 43470); (43482, 43485); (43519, 43519); (43575, 43583); (43598,
    43599); (43610, 43611); (43715, 43738); (43767, 43776); (43783, 43784); (43791, 43792);
    (43799, 43807); (43815, 43815); (43823, 43823); (43884, 43887); (44014, 44015); (44026,
    44031); (55204, 55215); (55239, 55242); (55292, 63743); (64110, 64111); (64218, 64255);
    (64263, 64274); (64280, 64284); (64311, 64311); (64317, 64317); (64319, 64319); (64322,
    64322); (64325, 64325); (64451, 64466); (64912, 64913); (64968, 64974); (64976, 65007);
    (65050, 65055); (65107, 65107); (65127, 65127); (65132, 65135); (65141, 65141); (65277,
    65280); (65471, 65473); (65480, 65481); (65488, 65489); (65496, 65497); (65501, 65503);
    (65511, 65511); (65519, 65531); (65534, 65535); (65548, 65548); (65575, 65575); (65595,
    65595); (65598, 65598); (65614, 65615); (65630, 65663); (65787, 65791); (65795, 65798);
    (65844, 65846); (65935, 65935); (65949, 65951); (65953, 65999); (66046, 66175); (66205,
    66207); (66257, 66271); (66300, 66303); (66340, 66348); (66379, 66383); (66427, 66431);
    (66462, 66462); (66500, 66503); (66518, 66559); (66718, 66719); (66730, 66735); (66772,
    66775); (66812, 66815); (66856, 66863); (66916, 66926); (66939, 66939); (66955, 66955);
    (66963, 66963); (66966, 66966); (66978, 66978); (66994, 66994); (67002, 67002); (67005,
    67071); (67383, 67391); (67414, 67423); (67432, 67455); (67462, 67462); (67505, 67505);
    (67515, 67583); (67590, 67591); (67593, 67593); (67638, 67638); (67641, 67643); (67645,
    67646); (67670, 67670); (67743, 67750); (67760, 67807); (67827, 67827); (67830, 67834);
    (67868, 67870); (67898, 67902); (67904, 67967); (68024, 68027); (68048, 68049); (68100,
    68100); (68103, 68107); (68116, 68116); (68120, 68120); (68150, 68151); (68155, 68158);
    (68169, 68175); (68185, 68191); (68256, 68287); (68327, 68330); (68343, 68351); (68406,
    68408); (68438, 68439); (68467, 68471); (68498, 68504); (68509, 68520); (68528, 68607);
    (68681, 68735); (68787, 68799); (68851, 68857); (68904, 68911); (68922, 69215); (69247,
    69247); (69290, 69290); (69294, 69295); (69298, 69375); (69416, 69423); (69466, 69487);
    (69514, 69551); (69580, 69599); (69623, 69631); (69710, 69713); (69750, 69758); (69821,
    69821); (69827, 69839); (69865, 69871); (69882, 69887); (69941, 69941); (69960, 69967);
    (70007, 70015); (70112, 70112); (70133, 70143); (70162, 70162); (70207, 70271); (70279,
    70279); (70281, 70281); (70286, 70286); (70302, 70302); (70314, 70319); (70379, 70383);
    (70394, 70399); (70404, 70404); (70413, 70414); (70417, 70418); (70441, 70441); (70449,
    70449); (70452, 70452); (70458, 70458); (70469, 70470); (70473, 70474); (70478, 70479);
    (70481, 70486); (70488, 70492); (70500, 70501); (70509, 70511); (70517, 70655); (70748,
    70748); (70754, 70783); (70856, 70863); (70874, 71039); (71094, 71095); (71134, 71167);
    (71237, 71247); (71258, 71263); (71277, 71295); (71354, 71359); (71370, 71423); (71451,
    71452); (71468, 71471); (71495, 71679); (71740, 71839); (71923, 71934); (71943, 71944);
    (71946, 71947); (71956, 71956); (71959, 71959); (71990, 71990); (71993, 71994); (72007,
    72015); (72026, 72095); (72104, 72105); (72152, 72153); (72165, 72191); (72264, 72271);
    (72355, 72367); (72441, 72703); (72713, 72713); (72759, 72759); (72774, 72783); (72813,
    72815); (72848, 72849); (72872, 72872); (72887, 72959); (72967, 72967); (72970, 72970);
    (73015, 73017); (73019, 73019); (73022, 73022); (73032, 73039); (73050, 73055); (73062,
    73062); (73065, 73065); (73103, 73103); (73106, 73106); (73113, 73119); (73130, 73439);
    (73465, 73647); (73649, 73663); (73714, 73726); (74650, 74751); (74863, 74863); (74869,
    74879); (75076, 77711); (77811, 77823); (78895, 82943); (83527, 92159); (92729, 92735);
    (92767, 92767); (92778, 92781); (92863, 92863); (92874, 92879); (92910, 92911); (92918,
    92927); (92998, 93007); (93018, 93018); (93026, 93026); (93048, 93052); (93072, 93759);
    (93851, 93951); (94027, 94030); (94088, 94094); (94112, 94175); (94181, 94191); (94194,
    94207); (100344, 100351); (101590, 101631); (101641, 110575); (110580, 110580); (110588,
    110588); (110591, 110591); (110883, 110927); (110931, 110947); (110952, 110959); (111356,
    113663); (113771, 113775); (113789, 113791); (113801, 113807); (113818, 113819); (113824,
    118527); (118574, 118575); (118599, 118607); (118724, 118783); (119030, 119039); (119079,
    119080); (119155, 119162); (119275, 119295); (119366, 119519); (119540, 119551); (119639,
    119647); (119673, 119807); (119893, 119893); (119965, 119965); (119968, 119969); (119971,
    119972); (119975, 119976); (119981, 119981); (119994, 119994); (119996, 119996); (120004,
    120004); (120070, 120070); (120075, 120076); (120085, 120085); (120093, 120093); (120122,
    120122); (120127, 120127); (120133, 120133); (120135, 120137); (120145, 120145); (120486,
    120487); (120780, 120781); (121484, 121498); (121504, 121504); (121520, 122623); (122655,
    122879); (122887, 122887); (122905, 122906); (122914, 122914); (122917, 122917); (122923,
    123135); (123181, 123183); (123198, 123199); (123210, 123213); (123216, 123535); (123567,
    123583); (123642, 123646); (123648, 124895); (124903, 124903); (124908, 124908); (124911,
    124911); (124927, 124927); (125125, 125126); (125143, 125183); (125260, 125263); (125274,
    125277); (125280, 126064); (126133, 126208); (126270, 126463); (126468, 126468); (126496,
    126496); (126499, 126499); (126501, 126502); (126504, 126504); (126515, 126515); (126520,
    126520); (126522, 126522); (126524, 126529); (126531, 126534); (126536, 126536); (126538,
    126538); (126540, 126540); (126544, 126544); (126547, 126547); (126549, 126550); (126552,
    126552); (126554, 126554); (126556, 126556); (126558, 126558); (126560, 126560); (126563,
    126563); (126565, 126566); (126571, 126571); (126579, 126579); (126584, 126584); (126589,
    126589); (126591, 126591); (126602, 126602); (126620, 126624); (126628, 126628); (126634,
    126634); (126652, 126703); (126706, 126975); (127020, 127023); (127124, 127135); (127151,
    127152); (127168, 127168); (127184, 127184); (127222, 127231); (127406, 127461); (127491,
    127503); (127548, 127551); (127561, 127567); (127570, 127583); (127590, 127743); (128728,
    128732); (128749, 128751); (128765, 128767); (128884, 128895); (128985, 128991); (129004,
    129007); (129009, 129023); (129036, 129039); (129096, 129103); (129114, 129119); (129160,
    129167); (129198, 129199); (129202, 129279); (129620, 129631); (129646, 129647); (129653,
    129655); (129661, 129663); (129671, 129679); (129709, 129711); (129723, 129727); (129734,
    129743); (129754, 129759); (129768, 129775); (129783, 129791); (129939, 129939); (129995,
    130031); (130042, 131071); (173792, 173823); (177977, 177983); (178206, 178207); (183970,
    183983); (191457, 194559); (195102, 196607); (201547, 917759); (918000, 1114111)
  ].

(** The characters with the decimal value zero; the nine characters after
    each are the digits one to nine of the same script. *)
Definition decimal_zeros : list Z :=
  [
    48; 1632; 1776; 1984; 2406; 2534; 2662; 2790; 2918; 3046; 3174; 3302; 3430; 3558; 3664;
    3792; 3872; 4160; 4240; 6112; 6160; 6470; 6608; 6784; 6800; 6992; 7088; 7232; 7248; 42528;
    43216; 43264; 43472; 43504; 43600; 44016; 65296; 66720; 68912; 69734; 69872; 69942; 70096;
    70384; 70736; 70864; 71248; 71360; 71472; 71904; 72016; 72784; 73040; 73120; 92768; 92864;
    93008; 120782; 120792; 120802; 120812; 120822; 123200; 123632; 125264; 130032
  ].

(** ** Text *)

Definition char := N.
Definition str := list char.

Definition ch (a : ascii) : char := N_of_ascii a.

(** A Python string literal of ASCII characters. *)
Definition lit (s : string) : str := map N_of_ascii (list_ascii_of_string s).

Fixpoint str_eqb (a b : str) : bool :=
  match a, b with
  | [], [] => true
  | x :: a', y :: b' => N.eqb x y && str_eqb a' b'
  | _, _ => false
  end.

(** [str.isspace] on one code point: the characters [str.strip()] removes. *)
Definition is_space (c : char) : bool :=
  (((9 <=? c) && (c <=? 13)) || ((28 <=? c) && (c <=? 32))
   || (c =? 133) || (c =? 160) || (c =? 5760)
   || ((8192 <=? c) && (c <=? 8202)) || (c =? 8232) || (c =? 8233)
   || (c =? 8239) || (c =? 8287) || (c =? 12288))%N.

Fixpoint lstrip (s : str) : str :=
  match s with
  | c :: s' => if is_space c then lstrip s' else s
  | [] => []
  end.

Definition rstrip (s : str) : str := rev (lstrip (rev s)).

(** [s.strip()] *)
Definition strip (s : str) : str := rstrip (lstrip s).

(** [s.startswith(p)] *)
Fixpoint startswith (p s : str) : bool :=
  match p, s with
  | [], _ => true
  | x :: p', y :: s' => N.eqb x y && startswith p' s'
  | _ :: _, [] => false
  end.

Definition lower_char (c : char) : char :=
  if ((65 <=? c) && (c <=? 90))%N then (c + 32)%N else c.

(** The upper case of a letter of ASCII. *)
Definition upper_char (c : char) : char :=
  if ((97 <=? c) && (c <=? 122))%N then (c - 32)%N else c.

(** [s.lower()], on the letters of ASCII. *)
Definition lower (s : str) : str := map lower_char s.

Fixpoint upper_run (runs : list (Z * Z * Z * Z)) (c : Z) : option Z :=
  match runs with
  | [] => None
  | (first, last, step, delta) :: rest =>
      if (first <=? c) && (c <=? last) && ((c - first) mod step =? 0)
      then Some (c + delta)
      else upper_run rest c
  end.

Fixpoint upper_long (table : list (Z * list Z)) (c : Z) : option (list Z) :=
  match table with
  | [] => None
  | (c', u) :: rest => if c' =? c then Some u else upper_long rest c
  end.

(** The upper case of one character: one to three characters. *)
Definition to_upper (c : char) : str :=
  match upper_long upper_special (Z.of_N c) with
  | Some u => map Z.to_N u
  | None =>
      match upper_run upper_runs (Z.of_N c) with
      | Some u => [Z.to_N u]
      | None => [c]
      end
  end.

(** [s.upper()] *)
Definition upper (s : str) : str := flat_map to_upper s.

(** [s.split(sep)] for a non-empty separator: the pieces between the
    occurrences of [sep], found from the left without overlap.  [skip] counts
    the characters of a separator still to be passed over. *)
Fixpoint split_go (sep : str) (skip : nat) (cur : str) (s : str) : list str :=
  match s with
  | [] => [rev cur]
  | c :: s' =>
      match skip with
      | S k => split_go sep k cur s'
      | O =>
          if startswith sep s
          then rev cur :: split_go sep (length sep - 1) [] s'
          else split_go sep O (c :: cur) s'
      end
  end.

Definition str_split (sep s : str) : list str := split_go sep O [] s.

(** [c in s] for a single character. *)
Definition contains (c : char) (s : str) : bool := existsb (N.eqb c) s.

(** [s.find(c)]: the index of the first [c], or -1. *)
Fixpoint find_from (c : char) (s : str) (i : Z) : Z :=
  match s with
  | [] => -1
  | x :: s' => if N.eqb x c then i else find_from c s' (i + 1)
  end.

Definition str_find (c : char) (s : str) : Z := find_from c s 0.

(** [s.rfind(c)]: the index of the last [c], or -1. *)
Fixpoint rfind_from (c : char) (s : str) (i : Z) (last : Z) : Z :=
  match s with
  | [] => last
  | x :: s' => rfind_from c s' (i + 1) (if N.eqb x c then i else last)
  end.

Definition str_rfind (c : char) (s : str) : Z := rfind_from c s 0 (-1).

(** [s[i:j]] for indices that are not negative. *)
Definition slice (s : str) (i j : Z) : str :=
  firstn (Z.to_nat j - Z.to_nat i) (skipn (Z.to_nat i) s).

(** [sep.join(parts)] *)
Fixpoint join (sep : str) (parts : list str) : str :=
  match parts with
  | [] => []
  | [p] => p
  | p :: rest => p ++ sep ++ join sep rest
  end.

(** [s.split()]: the maximal runs of characters that are not whitespace. *)
Fixpoint words_go (cur : str) (s : str) : list str :=
  match s with
  | [] => match cur with [] => [] | _ => [rev cur] end
  | c :: s' =>
      if is_space c
      then match cur with [] => words_go [] s' | _ => rev cur :: words_go [] s' end
      else words_go (c :: cur) s'
  end.

Definition words (s : str) : list str := words_go [] s.

(** [s.replace(c, r)] for a single character [c]. *)
Definition replace_char (c : char) (r : str) (s : str) : str :=
  flat_map (fun x => if N.eqb x c then r else [x]) s.

(** Decimal notation of a natural number and of an integer ([str(n)]). *)
Definition dec_N (n : N) : str := lit (NilZero.string_of_uint (N.to_uint n)).

Definition dec_Z (z : Z) : str :=
  match z with
  | Zneg p => ch "-" :: dec_N (Npos p)
  | _ => dec_N (Z.to_N z)
  end.

(** ** Floating point: IEEE binary64 *)

Definition float := spec_float.

Definition prec : Z := 53.
Definition emax : Z := 1024.

Definition f_zero : float := S754_zero false.
Definition f_inf (neg : bool) : float := S754_infinity neg.
Definition f_nan : float := S754_nan.

(** The float nearest to the rational [n / d], for [d > 0]; infinite when the
    quotient is beyond the range. *)
Definition float_of_ratio (n d : Z) : float :=
  match n with
  | Z0 => S754_zero false
  | _ =>
      let '(q, e, l) := SFdiv_core_binary prec emax (Z.abs n) 0 d 0 in
      binary_round_aux prec emax (n <? 0) q e l
  end.

(** The float nearest to an integer. *)
Definition float_of_Z (z : Z) : float := binary_normalize prec emax z 0 false.

Definition f_hundred : float := Eval vm_compute in float_of_Z 100.

Definition is_finite (f : float) : bool :=
  match f with
  | S754_zero _ | S754_finite _ _ _ => true
  | _ => false
  end.

Definition f_ltb (a b : float) : bool := SFltb a b.
Definition f_leb (a b : float) : bool := SFleb a b.
Definition f_mul (a b : float) : float := SFmul prec emax a b.
Definition f_sub (a b : float) : float := SFsub prec emax a b.

Definition f_thousand : float := Eval vm_compute in float_of_Z 1000.

(** The integer part of a finite float. *)
Definition float_trunc (f : float) : option Z :=
  match f with
  | S754_zero _ => Some 0
  | S754_finite s m e =>
      let n := if 0 <=? e then Zpos m * 2 ^ e else Zpos m / 2 ^ (- e) in
      Some (if s then - n else n)
  | _ => None
  end.

(** The exact value of a finite float as a fraction [(n, d)] with [d > 0]. *)
Definition ratio_of_float (f : float) : Z * Z :=
  match f with
  | S754_finite s m e =>
      let n := if s then Zneg m else Zpos m in
      if 0 <=? e then (n * 2 ^ e, 1) else (n, 2 ^ (- e))
  | _ => (0, 1)
  end.

Definition is_negative (f : float) : bool :=
  match f with
  | S754_zero s | S754_infinity s | S754_finite s _ _ => s
  | S754_nan => false
  end.

(** [float.__repr__]: the shortest decimal text that reads back as the same
    float, the nearest one among the shortest.  [decimal_point n d] is the [k]
    with [10^(k-1) <= n/d < 10^k], searched from a bit-length estimate. *)
Definition ge_pow10 (n d k : Z) : bool :=
  if 0 <=? k then d * 10 ^ k <=? n else d <=? n * 10 ^ (- k).

Fixpoint decimal_point_go (fuel : nat) (n d k : Z) : Z :=
  match fuel with
  | O => k
  | S fuel' =>
      if ge_pow10 n d k then decimal_point_go fuel' n d (k + 1)
      else if ge_pow10 n d (k - 1) then k
      else decimal_point_go fuel' n d (k - 1)
  end.

Definition decimal_point (n d : Z) : Z :=
  decimal_point_go 700 n d (((Z.log2 n - Z.log2 d) * 30103) / 100000).

(** [n/d * 10^s] as a fraction. *)
Definition scale10 (n d s : Z) : Z * Z :=
  if 0 <=? s then (n * 10 ^ s, d) else (n, d * 10 ^ (- s)).

Definition reads_back (f : float) (c s : Z) : bool :=
  let '(n, d) := scale10 c 1 s in
  match SFcompare (float_of_ratio n d) (SFabs f) with
  | Some Eq => true
  | _ => false
  end.

(** The candidate with [digits] significant digits, if one reads back. *)
Definition digits_candidate (f : float) (n d k digits : Z) : option Z :=
  let '(sn, sd) := scale10 n d (digits - k) in
  let lo := sn / sd in
  let r := sn mod sd in
  let hi := lo + 1 in
  let lo_ok := reads_back f lo (k - digits) in
  let hi_ok := reads_back f hi (k - digits) in
  if r =? 0 then (if lo_ok then Some lo else None)
  else
    match lo_ok, hi_ok with
    | true, true =>
        match 2 * r ?= sd with
        | Lt => Some lo
        | Gt => Some hi
        | Eq => Some (if Z.even lo then lo else hi)
        end
    | true, false => Some lo
    | false, true => Some hi
    | false, false => None
    end.

Fixpoint shortest_go (fuel : nat) (f : float) (n d k digits : Z) : Z * Z :=
  match fuel with
  | O => (0, digits)
  | S fuel' =>
      match digits_candidate f n d k digits with
      | Some c => (c, digits)
      | None => shortest_go fuel' f n d k (digits + 1)
      end
  end.

Fixpoint strip_zeros (fuel : nat) (c : Z) : Z :=
  match fuel with
  | O => c
  | S fuel' => if (c mod 10 =? 0) && negb (c =? 0) then strip_zeros fuel' (c / 10) else c
  end.

(** The shortest digits of a finite non-zero float and the position of the
    decimal point: the value is [0.d1...dn * 10^decpt]. *)
Definition shortest_digits (f : float) : str * Z :=
  let '(n, d) := ratio_of_float (SFabs f) in
  let k := decimal_point n d in
  let '(c, digits) := shortest_go 18 f n d k 1 in
  let decpt := if c =? 10 ^ digits then k + 1 else k in
  (dec_Z (strip_zeros 20 c), decpt).

Definition zeros (n : Z) : str := repeat (ch "0") (Z.to_nat n).

Definition pad2 (s : str) : str :=
  match s with
  | [c] => [ch "0"; c]
  | _ => s
  end.

Definition float_repr (f : float) : str :=
  match f with
  | S754_nan => lit "nan"
  | S754_infinity s => if s then lit "-inf" else lit "inf"
  | S754_zero s => if s then lit "-0.0" else lit "0.0"
  | S754_finite s _ _ =>
      let '(ds, decpt) := shortest_digits f in
      let len := Z.of_nat (List.length ds) in
      let body :=
        if (decpt <=? -4) || (16 <? decpt) then
          let mant :=
            match ds with
            | [] => []
            | [c] => [c]
            | c :: rest => c :: ch "." :: rest
            end in
          let e := decpt - 1 in
          mant ++ [ch "e"] ++ (if e <? 0 then [ch "-"] else [ch "+"])
               ++ pad2 (dec_Z (Z.abs e))
        else if decpt <=? 0 then lit "0." ++ zeros (- decpt) ++ ds
        else if len <=? decpt then ds ++ zeros (decpt - len) ++ lit ".0"
        else firstn (Z.to_nat decpt) ds ++ [ch "."] ++ skipn (Z.to_nat decpt) ds in
      (if s then [ch "-"] else []) ++ body
  end.

(** [format(f, ".1f")]: one digit after the point, correctly rounded. *)
Definition format_1f (f : float) : str :=
  match f with
  | S754_nan => lit "nan"
  | S754_infinity s => if s then lit "-inf" else lit "inf"
  | _ =>
      let '(n, d) := ratio_of_float (SFabs f) in
      let q := (10 * n) / d in
      let r := (10 * n) mod d in
      let q' :=
        match 2 * r ?= d with
        | Lt => q
        | Gt => q + 1
        | Eq => if Z.even q then q else q + 1
        end in
      (if is_negative f then [ch "-"] else [])
        ++ dec_Z (q' / 10) ++ [ch "."] ++ dec_Z (q' mod 10)
  end.

(** [format(f, ".1%")]: the float product with 100, then as above. *)
Definition format_pct1 (f : float) : str :=
  format_1f (f_mul f f_hundred) ++ [ch "%"].

(** ** Python values and exceptions *)

#[local] Set Warnings "-register-all".

(** The values [json.loads] produces.  A [dict] keeps its keys in insertion
    order, each key once. *)
Inductive value :=
| VNone
| VBool (b : bool)
| VInt (z : Z)
| VFloat (f : float)
| VStr (s : str)
| VList (l : list value)
| VDict (d : list (str * value)).

Variant exn_class :=
| AttributeError | TypeError | ValueError | JSONDecodeError | OverflowError
| KeyError | IndexError | RuntimeError | FileNotFoundError | RecursionError
| UnicodeDecodeError | UnicodeEncodeError
| LibraryError (name : str).

(** An instance of [Exception]: its class and its description [str(exc)]. *)
Record exn := Exn { exn_class_of : exn_class; exn_str : str }.

(** [isinstance(e, (TypeError, ValueError))]; [JSONDecodeError] and the two
    Unicode errors derive from [ValueError]. *)
Definition is_type_or_value_error (e : exn) : bool :=
  match exn_class_of e with
  | TypeError | ValueError | JSONDecodeError
  | UnicodeDecodeError | UnicodeEncodeError => true
  | _ => false
  end.

Definition result (A : Type) : Type := exn + A.

Definition ok {A} (a : A) : result A := inr a.
Definition raise {A} (e : exn) : result A := inl e.

Definition rbind {A B} (m : result A) (k : A -> result B) : result B :=
  match m with
  | inl e => inl e
  | inr a => k a
  end.

Notation "'let?' x ':=' m 'in' k" := (rbind m (fun x => k))
  (at level 10, x pattern, m at level 100, k at level 200).

Definition type_name (v : value) : str :=
  match v with
  | VNone => lit "NoneType"
  | VBool _ => lit "bool"
  | VInt _ => lit "int"
  | VFloat _ => lit "float"
  | VStr _ => lit "str"
  | VList _ => lit "list"
  | VDict _ => lit "dict"
  end.

Definition hex_digit (n : N) : char :=
  (if n <? 10 then 48 + n else 87 + n)%N.

Fixpoint hex_go (width : nat) (n : N) (acc : str) : str :=
  match width with
  | O => acc
  | S w => hex_go w (n / 16)%N (hex_digit (n mod 16)%N :: acc)
  end.

(** [str.isprintable] on one code point. *)
Definition is_printable (c : char) : bool :=
  (c <? 1114112)%N
  && negb (existsb (fun r => (fst r <=? Z.of_N c) && (Z.of_N c <=? snd r)) not_printable).

Definition repr_char (quote : char) (c : char) : str :=
  if (c =? 92)%N then lit "\\"
  else if (c =? quote)%N then [ch "\"; c]
  else if (c =? 9)%N then lit "\t"
  else if (c =? 10)%N then lit "\n"
  else if (c =? 13)%N then lit "\r"
  else if is_printable c then [c]
  else if (c <? 256)%N then lit "\x" ++ hex_go 2 c []
  else if (c <? 65536)%N then lit "\u" ++ hex_go 4 c []
  else lit "\U" ++ hex_go 8 c [].

(** [repr(s)] of a string: single quotes, unless the text holds a single
    quote and no double quote. *)
Definition repr_str (s : str) : str :=
  let quote :=
    if contains 39%N s && negb (contains 34%N s) then 34%N else 39%N in
  [quote] ++ flat_map (repr_char quote) s ++ [quote].

(** [repr(v)] *)
Fixpoint py_repr (v : value) : str :=
  match v with
  | VNone => lit "None"
  | VBool b => if b then lit "True" else lit "False"
  | VInt z => dec_Z z
  | VFloat f => float_repr f
  | VStr s => repr_str s
  | VList l => lit "[" ++ join (lit ", ") (map py_repr l) ++ lit "]"
  | VDict d =>
      lit "{"
        ++ join (lit ", ")
             (map (fun kv => repr_str (fst kv) ++ lit ": " ++ py_repr (snd kv)) d)
        ++ lit "}"
  end.

(** [str(v)] *)
Definition py_str (v : value) : str :=
  match v with
  | VStr s => s
  | _ => py_repr v
  end.

(** [bool(v)] *)
Definition truthy (v : value) : bool :=
  match v with
  | VNone => false
  | VBool b => b
  | VInt z => negb (z =? 0)
  | VFloat f => match f with S754_zero _ => false | _ => true end
  | VStr s => match s with [] => false | _ => true end
  | VList l => match l with [] => false | _ => true end
  | VDict d => match d with [] => false | _ => true end
  end.

(** Dictionaries. *)
Fixpoint dict_lookup (d : list (str * value)) (k : str) : option value :=
  match d with
  | [] => None
  | (k', v) :: d' => if str_eqb k' k then Some v else dict_lookup d' k
  end.

Fixpoint dict_set (d : list (str * value)) (k : str) (v : value)
  : list (str * value) :=
  match d with
  | [] => [(k, v)]
  | (k', v') :: d' =>
      if str_eqb k' k then (k', v) :: d' else (k', v') :: dict_set d' k v
  end.

Definition no_attribute (v : value) (attr : string) : exn :=
  Exn AttributeError
    (lit "'" ++ type_name v ++ lit "' object has no attribute '" ++ lit attr ++ lit "'").

(** [obj.get(key, default)]: only a [dict] has the method. *)
Definition py_get (obj : value) (key : string) (default : value) : result value :=
  match obj with
  | VDict d =>
      ok match dict_lookup d (lit key) with Some v => v | None => default end
  | _ => raise (no_attribute obj "get")
  end.

(** [obj[key]] on a dictionary entry. *)
Definition py_getitem (obj : value) (key : string) : result value :=
  match obj with
  | VDict d =>
      match dict_lookup d (lit key) with
      | Some v => ok v
      | None => raise (Exn KeyError (repr_str (lit key)))
      end
  | VStr _ =>
      raise (Exn TypeError (lit "string indices must be integers, not 'str'"))
  | VList _ =>
      raise (Exn TypeError (lit "list indices must be integers or slices, not str"))
  | _ =>
      raise (Exn TypeError (lit "'" ++ type_name obj ++ lit "' object is not subscriptable"))
  end.

(** [iter(obj)]: the items a [for] loop over [obj] visits. *)
Definition py_iter (obj : value) : result (list value) :=
  match obj with
  | VList l => ok l
  | VDict d => ok (map (fun kv => VStr (fst kv)) d)
  | VStr s => ok (map (fun c => VStr [c]) s)
  | _ => raise (Exn TypeError (lit "'" ++ type_name obj ++ lit "' object is not iterable"))
  end.

(** ** Reading numbers: [float(text)] *)

Definition is_digit (c : char) : bool := ((48 <=? c) && (c <=? 57))%N.

Definition digit_val (c : char) : Z := Z.of_N (c - 48).

(** Digits from the front of [s]; when [us] holds a single underscore may
    stand between two digits.  The digits read and the rest. *)
Fixpoint take_digits (us : bool) (s : str) : str * str :=
  match s with
  | c :: s' =>
      if is_digit c then
        match s' with
        | u :: s'' =>
            if us && (u =? 95)%N
               && match s'' with c2 :: _ => is_digit c2 | [] => false end
            then let '(ds, rest) := take_digits us s'' in (c :: ds, rest)
            else let '(ds, rest) := take_digits us s' in (c :: ds, rest)
        | [] => ([c], [])
        end
      else ([], s)
  | [] => ([], [])
  end.

Definition digits_value (ds : str) : Z :=
  fold_left (fun acc c => acc * 10 + digit_val c) ds 0.

(** The float nearest to [m * 10^e], with the sign [neg]. *)
Definition float_of_decimal (neg : bool) (m e : Z) : float :=
  let '(n, d) := scale10 m 1 e in
  let f := float_of_ratio n d in
  if neg then SFopp f else f.

(** An optional sign at the front. *)
Definition take_sign (s : str) : bool * str :=
  match s with
  | c :: s' =>
      if (c =? 45)%N then (true, s')
      else if (c =? 43)%N then (false, s')
      else (false, s)
  | [] => (false, [])
  end.

(** An optional exponent [e[+-]digits]: its value and the rest, or [None]
    when an exponent starts and has no digit. *)
Definition take_exponent (us : bool) (s : str) : option (Z * str) :=
  match s with
  | c :: s' =>
      if (c =? 101)%N || (c =? 69)%N then
        let '(neg, s1) := take_sign s' in
        let '(ds, rest) := take_digits us s1 in
        match ds with
        | [] => None
        | _ => Some (if neg then - digits_value ds else digits_value ds, rest)
        end
      else Some (0, s)
  | [] => Some (0, [])
  end.

(** The ASCII digit for a character with a decimal value. *)
Definition to_decimal (c : char) : option char :=
  match find (fun z => (z <=? Z.of_N c) && (Z.of_N c <=? z + 9)) decimal_zeros with
  | Some z => Some (Z.to_N (48 + (Z.of_N c - z)))
  | None => None
  end.

(** What [float] makes of text that is not ASCII before it reads it: a
    whitespace character becomes a space, a decimal digit of any script its
    ASCII digit, and the text ends in a question mark at the first other
    character beyond ASCII. *)
Fixpoint to_ascii_number (s : str) : str :=
  match s with
  | [] => []
  | c :: s' =>
      if (c <? 127)%N then c :: to_ascii_number s'
      else if is_space c then 32%N :: to_ascii_number s'
      else
        match to_decimal c with
        | Some d => d :: to_ascii_number s'
        | None => [63%N]
        end
  end.

(** The whitespace of the C locale, which [float] strips. *)
Definition c_space (c : char) : bool := (((9 <=? c) && (c <=? 13)) || (c =? 32))%N.

Fixpoint c_lstrip (s : str) : str :=
  match s with
  | c :: s' => if c_space c then c_lstrip s' else s
  | [] => []
  end.

Definition c_strip (s : str) : str := rev (c_lstrip (rev (c_lstrip s))).

(** [float(text)], or [None] where Python raises [ValueError]: surrounding
    whitespace, a sign, then [inf], [infinity] or [nan] in any case, or
    decimal digits with an optional point and exponent, rounded to the
    nearest float. *)
Definition float_of_str (text : str) : option float :=
  let ascii := if forallb (fun c => (c <? 128)%N) text then text else to_ascii_number text in
  let '(neg, body) := take_sign (c_strip ascii) in
  let low := lower body in
  if str_eqb low (lit "inf") || str_eqb low (lit "infinity")
  then Some (f_inf neg)
  else if str_eqb low (lit "nan") then Some f_nan
  else
    let '(ip, r1) := take_digits true body in
    let '(fp, r2) :=
      match r1 with
      | c :: r1' => if (c =? 46)%N then take_digits true r1' else ([], r1)
      | [] => ([], [])
      end in
    match ip ++ fp with
    | [] => None
    | ds =>
        match take_exponent true r2 with
        | Some (e, []) =>
            Some (float_of_decimal neg (digits_value ds)
                    (e - Z.of_nat (List.length fp)))
        | _ => None
        end
    end.

(** [float(v)] *)
Definition py_float (v : value) : result float :=
  match v with
  | VBool b => ok (float_of_Z (if b then 1 else 0))
  | VInt z =>
      let f := float_of_Z z in
      if is_finite f then ok f
      else raise (Exn OverflowError (lit "int too large to convert to float"))
  | VFloat f => ok f
  | VStr s =>
      match float_of_str s with
      | Some f => ok f
      | None =>
          raise (Exn ValueError
                   (lit "could not convert string to float: " ++ repr_str s))
      end
  | _ =>
      raise (Exn TypeError
               (lit "float() argument must be a string or a real number, not '"
                  ++ type_name v ++ lit "'"))
  end.

(** ** [json.loads] *)

Definition json_ws (c : char) : bool :=
  ((c =? 32) || (c =? 9) || (c =? 10) || (c =? 13))%N.

Fixpoint skip_ws (p : Z) (s : str) : Z * str :=
  match s with
  | c :: s' => if json_ws c then skip_ws (p + 1) s' else (p, s)
  | [] => (p, [])
  end.

(** Line and column of the position [pos] in [doc], as [JSONDecodeError]
    reports them. *)
Fixpoint line_col (doc : str) (pos : nat) (line col : Z) : Z * Z :=
  match pos, doc with
  | S pos', c :: doc' =>
      if (c =? 10)%N then line_col doc' pos' (line + 1) 1
      else line_col doc' pos' line (col + 1)
  | _, _ => (line, col)
  end.

Definition json_error {A} (msg : string) (doc : str) (pos : Z) : result A :=
  let '(line, col) := line_col doc (Z.to_nat pos) 1 1 in
  raise (Exn JSONDecodeError
           (lit msg ++ lit ": line " ++ dec_Z line ++ lit " column " ++ dec_Z col
              ++ lit " (char " ++ dec_Z pos ++ lit ")")).

Definition hex_val (c : char) : option N :=
  (if (48 <=? c) && (c <=? 57) then Some (c - 48)
   else if (97 <=? c) && (c <=? 102) then Some (c - 87)
   else if (65 <=? c) && (c <=? 70) then Some (c - 55)
   else None)%N.

Definition hex4 (a b c d : char) : option N :=
  match hex_val a, hex_val b, hex_val c, hex_val d with
  | Some x, Some y, Some z, Some w => Some (((x * 16 + y) * 16 + z) * 16 + w)%N
  | _, _, _, _ => None
  end.

Definition escape_char (c : char) : option char :=
  (if c =? 34 then Some 34
   else if c =? 92 then Some 92
   else if c =? 47 then Some 47
   else if c =? 98 then Some 8
   else if c =? 102 then Some 12
   else if c =? 110 then Some 10
   else if c =? 114 then Some 13
   else if c =? 116 then Some 9
   else None)%N.

(** A low surrogate escape [\uXXXX] at the front of [s], if there is one. *)
Definition low_surrogate (s : str) : option (N * str) :=
  match s with
  | b :: u :: h1 :: h2 :: h3 :: h4 :: rest =>
      if (b =? 92)%N && (u =? 117)%N then
        match hex4 h1 h2 h3 h4 with
        | Some lo => if ((56320 <=? lo) && (lo <=? 57343))%N then Some (lo, rest) else None
        | None => None
        end
      else None
  | _ => None
  end.

(** The body of a string literal, after its opening quote at [start]: the
    text, and the position and the rest after the closing quote. *)
Fixpoint scanstring (fuel : nat) (doc : str) (start : Z) (acc : str) (p : Z) (s : str)
  : result (str * Z * str) :=
  match fuel with
  | O => raise (Exn RecursionError (lit "maximum recursion depth exceeded"))
  | S fuel' =>
      match s with
      | [] => json_error "Unterminated string starting at" doc start
      | c :: s' =>
          if (c =? 34)%N then ok (rev acc, p + 1, s')
          else if (c =? 92)%N then
            match s' with
            | [] => json_error "Unterminated string starting at" doc start
            | e :: s'' =>
                if (e =? 117)%N then
                  match s'' with
                  | h1 :: h2 :: h3 :: h4 :: s5 =>
                      match hex4 h1 h2 h3 h4 with
                      | None => json_error "Invalid \uXXXX escape" doc (p + 1)
                      | Some hi =>
                          if ((55296 <=? hi) && (hi <=? 56319))%N then
                            match low_surrogate s5 with
                            | Some (lo, s11) =>
                                scanstring fuel' doc start
                                  ((65536 + (hi - 55296) * 1024 + (lo - 56320))%N :: acc)
                                  (p + 12) s11
                            | None => scanstring fuel' doc start (hi :: acc) (p + 6) s5
                            end
                          else scanstring fuel' doc start (hi :: acc) (p + 6) s5
                      end
                  | _ => json_error "Invalid \uXXXX escape" doc (p + 1)
                  end
                else
                  match escape_char e with
                  | Some x => scanstring fuel' doc start (x :: acc) (p + 2) s''
                  | None => json_error "Invalid \escape" doc p
                  end
            end
          else if (c <? 32)%N then json_error "Invalid control character at" doc p
          else scanstring fuel' doc start (c :: acc) (p + 1) s'
      end
  end.

(** [int(digits)], refused beyond the default limit of 4300 digits. *)
Definition py_int (neg : bool) (ds : str) : result value :=
  if (4300 <? List.length ds)%nat then
    raise (Exn ValueError
             (lit "Exceeds the limit (4300 digits) for integer string conversion: value has "
                ++ dec_Z (Z.of_nat (List.length ds))
                ++ lit " digits; use sys.set_int_max_str_digits() to increase the limit"))
  else ok (VInt (if neg then - digits_value ds else digits_value ds)).

(** A number at the front of [s]: an optional minus, then a zero or digits
    that do not start with a zero, then an optional fraction (a point and
    digits) and an optional exponent.  [None] when no number starts there. *)
Definition scan_number (p : Z) (s : str) : option (result (value * Z * str)) :=
  let '(neg, s1) :=
    match s with
    | c :: s' => if (c =? 45)%N then (true, s') else (false, s)
    | [] => (false, [])
    end in
  let '(ip, r1) :=
    match s1 with
    | c :: s1' =>
        if (c =? 48)%N then ([c], s1')
        else take_digits false s1
    | [] => ([], [])
    end in
  match ip with
  | [] => None
  | _ =>
      let '(fp, r2) :=
        match r1 with
        | c :: r1' =>
            if (c =? 46)%N then
              match take_digits false r1' with
              | ([], _) => ([], r1)
              | (ds, rest) => (ds, rest)
              end
            else ([], r1)
        | [] => ([], [])
        end in
      let '(has_exp, ex, r3) :=
        match r2 with
        | c :: _ =>
            if (c =? 101)%N || (c =? 69)%N then
              match take_exponent false r2 with
              | Some (e, rest) => (true, e, rest)
              | None => (false, 0, r2)
              end
            else (false, 0, r2)
        | [] => (false, 0, [])
        end in
      let consumed := Z.of_nat (List.length s - List.length r3) in
      match fp, has_exp with
      | [], false =>
          Some (let? v := py_int neg ip in ok (v, p + consumed, r3))
      | _, _ =>
          Some (ok (VFloat (float_of_decimal neg (digits_value (ip ++ fp))
                              (ex - Z.of_nat (List.length fp))),
                    p + consumed, r3))
      end
  end.

Definition expecting_value {A} (doc : str) (p : Z) : result A :=
  json_error "Expecting value" doc p.

(** The scanner: one JSON value at the front of [s], which starts at
    position [p] of [doc].  [fuel] bounds the depth of the recursion;
    [json_loads] passes more than the text can use, and a scanner out of
    fuel fails like Python out of recursion depth. *)
Fixpoint scan_once (fuel : nat) (doc : str) (p : Z) (s : str) {struct fuel}
  : result (value * Z * str) :=
  match fuel with
  | O => raise (Exn RecursionError (lit "maximum recursion depth exceeded"))
  | S fuel' =>
      match s with
      | [] => expecting_value doc p
      | c :: s' =>
          if (c =? 34)%N then
            let? (text, p', rest) := scanstring (S (List.length s')) doc p [] (p + 1) s' in
            ok (VStr text, p', rest)
          else if (c =? 123)%N then
            let '(p1, s1) := skip_ws (p + 1) s' in
            match s1 with
            | c1 :: s1' =>
                if (c1 =? 125)%N then ok (VDict [], p1 + 1, s1')
                else object_loop fuel' doc [] p1 s1
            | [] => object_loop fuel' doc [] p1 s1
            end
          else if (c =? 91)%N then
            let '(p1, s1) := skip_ws (p + 1) s' in
            match s1 with
            | c1 :: s1' =>
                if (c1 =? 93)%N then ok (VList [], p1 + 1, s1')
                else array_loop fuel' doc [] p1 s1
            | [] => array_loop fuel' doc [] p1 s1
            end
          else if startswith (lit "null") s then ok (VNone, p + 4, skipn 4 s)
          else if startswith (lit "true") s then ok (VBool true, p + 4, skipn 4 s)
          else if startswith (lit "false") s then ok (VBool false, p + 5, skipn 5 s)
          else
            match scan_number p s with
            | Some r => r
            | None =>
                if startswith (lit "NaN") s then ok (VFloat f_nan, p + 3, skipn 3 s)
                else if startswith (lit "Infinity") s
                then ok (VFloat (f_inf false), p + 8, skipn 8 s)
                else if startswith (lit "-Infinity") s
                then ok (VFloat (f_inf true), p + 9, skipn 9 s)
                else expecting_value doc p
            end
      end
  end

(** The members of an object, from the quote of a key at [p]. *)
with object_loop (fuel : nat) (doc : str) (d : list (str * value)) (p : Z) (s : str)
  {struct fuel} : result (value * Z * str) :=
  match fuel with
  | O => raise (Exn RecursionError (lit "maximum recursion depth exceeded"))
  | S fuel' =>
      match s with
      | c :: s' =>
          if negb (c =? 34)%N
          then json_error "Expecting property name enclosed in double quotes" doc p
          else
            let? (key, p1, s1) := scanstring (S (List.length s')) doc p [] (p + 1) s' in
            let '(p2, s2) := skip_ws p1 s1 in
            match s2 with
            | c2 :: s2' =>
                if negb (c2 =? 58)%N then json_error "Expecting ':' delimiter" doc p2
                else
                  let '(p3, s3) := skip_ws (p2 + 1) s2' in
                  let? (v, p4, s4) := scan_once fuel' doc p3 s3 in
                  let d' := dict_set d key v in
                  let '(p5, s5) := skip_ws p4 s4 in
                  match s5 with
                  | c5 :: s5' =>
                      if (c5 =? 125)%N then ok (VDict d', p5 + 1, s5')
                      else if (c5 =? 44)%N then
                        let '(p6, s6) := skip_ws (p5 + 1) s5' in
                        object_loop fuel' doc d' p6 s6
                      else json_error "Expecting ',' delimiter" doc p5
                  | [] => json_error "Expecting ',' delimiter" doc p5
                  end
            | [] => json_error "Expecting ':' delimiter" doc p2
            end
      | [] => json_error "Expecting property name enclosed in double quotes" doc p
      end
  end

(** The elements of an array, from the start of an element at [p]. *)
with array_loop (fuel : nat) (doc : str) (acc : list value) (p : Z) (s : str)
  {struct fuel} : result (value * Z * str) :=
  match fuel with
  | O => raise (Exn RecursionError (lit "maximum recursion depth exceeded"))
  | S fuel' =>
      let? (v, p1, s1) := scan_once fuel' doc p s in
      let '(p2, s2) := skip_ws p1 s1 in
      match s2 with
      | c2 :: s2' =>
          if (c2 =? 93)%N then ok (VList (rev (v :: acc)), p2 + 1, s2')
          else if (c2 =? 44)%N then
            let '(p3, s3) := skip_ws (p2 + 1) s2' in
            array_loop fuel' doc (v :: acc) p3 s3
          else json_error "Expecting ',' delimiter" doc p2
      | [] => json_error "Expecting ',' delimiter" doc p2
      end
  end.

(** [json.loads(text)].  The scanner gets more fuel than the text can use:
    the limit the interpreter puts on the depth of recursion, which depends
    on the call stack at the time and is reached by text nested about a
    thousand levels deep, is not part of the model. *)
Definition json_loads (text : str) : result value :=
  if startswith [65279%N] text
  then json_error "Unexpected UTF-8 BOM (decode using utf-8-sig)" text 0
  else
    let '(p0, s0) := skip_ws 0 text in
    let? (v, p1, s1) := scan_once (2 * List.length text + 2) text p0 s0 in
    let '(p2, s2) := skip_ws p1 s1 in
    match s2 with
    | [] => ok v
    | _ => json_error "Extra data" text p2
    end.

(** ** The answer normaliser *)

Definition fence : str := lit "```".
Definition lbrace : char := 123%N.
Definition rbrace : char := 125%N.

(** [parse_json_response(text)] *)
Definition parse_json_response (text : str) : result value :=
  let cleaned := strip text in
  let cleaned :=
    if startswith fence cleaned then
      let blocks := str_split fence cleaned in
      let cleaned := match blocks with _ :: block1 :: _ => block1 | _ => cleaned end in
      let cleaned := strip cleaned in
      if startswith (lit "json") (lower cleaned)
      then strip (skipn 4 cleaned)
      else cleaned
    else cleaned in
  let cleaned :=
    if contains lbrace cleaned && contains rbrace cleaned
    then slice cleaned (str_find lbrace cleaned) (str_rfind rbrace cleaned + 1)
    else cleaned in
  json_loads cleaned.

(** [ans in {"A", "B", "C"}] *)
Definition is_letter (ans : str) : bool :=
  str_eqb ans (lit "A") || str_eqb ans (lit "B") || str_eqb ans (lit "C").

(** [normalize_answer(val)] *)
Definition normalize_answer (val : value) : option str :=
  match val with
  | VNone => None
  | _ =>
      let ans := upper (strip (py_str val)) in
      if is_letter ans then Some ans else None
  end.

(** [min(a, b)] and [max(a, b)] of two floats: the second argument replaces
    the first only when it compares strictly below (above) it. *)
Definition py_min (a b : float) : float := if f_ltb b a then b else a.
Definition py_max (a b : float) : float := if f_ltb a b then b else a.

(** [normalize_confidence(val)] *)
Definition normalize_confidence (val : value) : result (option float) :=
  match val with
  | VNone => ok None
  | _ =>
      match py_float val with
      | inr num => ok (Some (py_max f_zero (py_min f_hundred num)))
      | inl e => if is_type_or_value_error e then ok None else raise e
      end
  end.

(** ** Records *)

Definition image : Type := str * str.

Record TrialAssets := {
  label : str;
  condition : str;
  correct_answer : str;
  ref_front : image;
  ref_back : image;
  candidates : list (str * image)
}.

Record TrialResult := {
  trial_label : str;
  tr_condition : str;
  gold : str;
  prediction : option str;
  confidence : option float;
  reasoning : str;
  latency_ms : option Z;
  success : bool;
  error : option str
}.

Definition opt_str_eqb (a : option str) (b : str) : bool :=
  match a with
  | Some x => str_eqb x b
  | None => false
  end.

(** [TrialResult.is_correct] *)
Definition is_correct (r : TrialResult) : bool :=
  success r && opt_str_eqb (prediction r) (gold r).

Record ModelRun := {
  name : str;
  model_id : str;
  results : list TrialResult
}.

(** [ModelRun.accuracy] *)
Definition accuracy (run : ModelRun) : float :=
  match results run with
  | [] => f_zero
  | rs =>
      float_of_ratio (Z.of_nat (List.length (filter is_correct rs)))
        (Z.of_nat (List.length rs))
  end.

(** The exact sum of finite floats, as a fraction. *)
Definition ratio_add (a b : Z * Z) : Z * Z :=
  (fst a * snd b + fst b * snd a, snd a * snd b).

(** [statistics.mean(vals)] for a list that is not empty: the exact mean,
    rounded once; floats that are not finite are summed as floats. *)
Definition mean (vals : list float) : float :=
  let n := Z.of_nat (List.length vals) in
  match filter (fun f => negb (is_finite f)) vals with
  | [] =>
      let '(sn, sd) := fold_left ratio_add (map ratio_of_float vals) (0, 1) in
      float_of_ratio sn (sd * n)
  | odd => SFdiv prec emax (fold_left (SFadd prec emax) odd f_zero) (float_of_Z n)
  end.

(** [ModelRun.avg_confidence] *)
Definition avg_confidence (run : ModelRun) : option float :=
  let vals :=
    flat_map (fun r => match confidence r with Some c => [c] | None => [] end)
      (results run) in
  match vals with
  | [] => None
  | _ => Some (mean vals)
  end.

(** ** The world: wall clock and provider *)

Variant Part :=
| TextPart (text : str)
| ImagePart (url : str).

(** The keyword arguments of [client.chat.completions.create]. *)
Record Request := {
  req_model : str;
  req_system : str;
  req_user : list Part;
  req_temperature : float;
  req_timeout : Z;
  req_json_object : bool
}.

(** A completion: [content] of the message of each choice, [None] for null. *)
Record Response := { choices : list (option str) }.

(** The provider behind a client: what a call returns, given the calls made
    before it, and how long it takes (microseconds). *)
Record Provider := {
  respond : list Request -> Request -> result Response;
  duration : list Request -> Request -> Z
}.

(** How long the steps of the program itself take (microseconds): building
    the request of a trial, parsing a reply, normalising a parsed reply. *)
Record Costs := {
  build_cost : TrialAssets -> Z;
  parse_cost : option str -> Z;
  normalize_cost : value -> Z
}.

(** The state a run goes through: the system clock, a count of
    microseconds, and the requests the provider has received. *)
Record World := {
  now : Z;
  calls : list Request
}.

Definition M (A : Type) : Type := World -> result A * World.

Definition ret {A} (a : A) : M A := fun w => (ok a, w).
Definition throw {A} (e : exn) : M A := fun w => (raise e, w).
Definition lift {A} (r : result A) : M A := fun w => (r, w).

Definition bind {A B} (m : M A) (k : A -> M B) : M B :=
  fun w =>
    match m w with
    | (inr a, w') => k a w'
    | (inl e, w') => (inl e, w')
    end.

(** [try: m  except Exception as exc: handler(exc)] *)
Definition try_except {A} (m : M A) (handler : exn -> M A) : M A :=
  fun w =>
    match m w with
    | (inr a, w') => (inr a, w')
    | (inl e, w') => handler e w'
    end.

Notation "x <- m ;; k" := (bind m (fun x => k))
  (at level 61, m at next level, right associativity).
Notation "m ;;; k" := (bind m (fun _ => k))
  (at level 61, right associativity).

(** Reading the clock, as [time.time()] does: the count of the clock at
    that moment.  The float that [time.time()] returns for a count is its
    [clock_reading] below. *)
Definition time_time : M Z := fun w => (ok (now w), w).

(** Time passing while the program computes. *)
Definition tick (d : Z) : M unit :=
  fun w => (ok tt, {| now := now w + d; calls := calls w |}).

(** [client.chat.completions.create] called with [params]. *)
Definition create (pv : Provider) (params : Request) : M Response :=
  fun w =>
    (respond pv (calls w) params,
     {| now := now w + duration pv (calls w) params;
        calls := calls w ++ [params] |}).

(** The system clock is a signed count of 64 bits: a count beyond that range
    reads as the nearest end of it. *)
Definition clock_limit : Z := 2 ^ 63.

(** The float [time.time()] returns when the clock stands at [us]
    microseconds: the float nearest to that many seconds. *)
Definition clock_reading (us : Z) : float :=
  float_of_ratio (Z.max (- clock_limit) (Z.min clock_limit us)) 1000000.

(** [int(x)] for a float. *)
Definition py_int_of_float (x : float) : result Z :=
  match float_trunc x with
  | Some z => ok z
  | None =>
      match x with
      | S754_nan => raise (Exn ValueError (lit "cannot convert float NaN to integer"))
      | _ => raise (Exn OverflowError (lit "cannot convert float infinity to integer"))
      end
  end.

(** [(t1 - t0) * 1000] for the readings of the clock at the counts [t0] and
    [t1]: two operations on floats, each rounded. *)
Definition elapsed (t0 t1 : Z) : float :=
  f_mul (f_sub (clock_reading t1) (clock_reading t0)) f_thousand.

(** [int((t1 - t0) * 1000)] for the readings of the clock at the counts [t0]
    and [t1].  The product is a finite float whatever the counts are
    ([elapsed_ms_is_int] below), so that [int] does not raise. *)
Definition elapsed_ms (t0 t1 : Z) : Z :=
  match float_trunc (elapsed t0 t1) with
  | Some ms => ms
  | None => 0
  end.

(** ** The chat-completions adapter *)

Definition nl : str := [10%N].
Definition dq : str := [34%N].

Definition SYSTEM_PROMPT : str :=
  join nl
    [ lit "You are an expert participant in a Mental Rotation cognitive test.";
      [];
      lit "Task:";
      lit "- You see two views of a reference object (front + back/180" ++ [176%N] ++ lit " turn).";
      lit "- You see three candidate objects labeled A, B, C.";
      lit "- Exactly ONE candidate is the same object as the reference, merely rotated in 3D.";
      lit "- The other two are structural distractors.";
      [];
      lit "Process:";
      lit "1) Combine the two reference views to build a 3D model of the correct object.";
      lit "2) For each candidate (A-C), mentally rotate and compare structure. Eliminate any structural mismatch.";
      lit "3) Select the single matching candidate, regardless of its rotation.";
      [];
      lit "Output JSON fields:";
      lit "- answer: " ++ dq ++ lit "A" ++ dq ++ lit " | " ++ dq ++ lit "B" ++ dq
        ++ lit " | " ++ dq ++ lit "C" ++ dq;
      lit "- confidence: 0-100";
      lit "- reasoning: brief why the chosen candidate matches and one flaw in at least one distractor." ].

Definition USER_INSTRUCTION : str :=
  lit "Use the two reference views to reconstruct the object. Identify which candidate (A, B, or C) "
    ++ lit "matches the reference after 3D rotation. Reply ONLY with JSON: "
    ++ lit "{" ++ dq ++ lit "answer" ++ dq ++ lit ":" ++ dq ++ lit "A|B|C" ++ dq
    ++ lit "," ++ dq ++ lit "confidence" ++ dq ++ lit ":0-100,"
    ++ dq ++ lit "reasoning" ++ dq ++ lit ":" ++ dq ++ lit "short explanation" ++ dq ++ lit "}".

(** [data_url(mime, b64)] *)
Definition data_url (img : image) : str :=
  lit "data:" ++ fst img ++ lit ";base64," ++ snd img.

Fixpoint assoc_lookup {A} (d : list (str * A)) (k : str) : option A :=
  match d with
  | [] => None
  | (k', v) :: d' => if str_eqb k' k then Some v else assoc_lookup d' k
  end.

(** [trial.candidates[letter]] *)
Definition candidate (trial : TrialAssets) (letter : string) : result image :=
  match assoc_lookup (candidates trial) (lit letter) with
  | Some img => ok img
  | None => raise (Exn KeyError (repr_str (lit letter)))
  end.

Definition candidate_parts (trial : TrialAssets) (letter : string) : result (list Part) :=
  let? img := candidate trial letter in
  ok [ TextPart (lit "Candidate " ++ lit letter ++ lit ":"); ImagePart (data_url img) ].

(** [build_openai_content(trial)] *)
Definition build_openai_content (trial : TrialAssets) : result (list Part) :=
  let parts :=
    [ TextPart (lit "Reference Object - View 1 (Front):");
      ImagePart (data_url (ref_front trial));
      TextPart (lit "Reference Object - View 2 (Back - 180 degrees):");
      ImagePart (data_url (ref_back trial));
      TextPart (lit "--- CANDIDATES ---") ] in
  let? a := candidate_parts trial "A" in
  let? b := candidate_parts trial "B" in
  let? c := candidate_parts trial "C" in
  ok (parts ++ a ++ b ++ c ++ [TextPart USER_INSTRUCTION]).

Record OpenAIStyleRunner := {
  client : Provider;
  oa_model_id : str;
  temperature : float;
  timeout : Z;
  json_mode : bool
}.

(** [params.pop("response_format", None)] *)
Definition pop_response_format (params : Request) : Request :=
  {| req_model := req_model params;
     req_system := req_system params;
     req_user := req_user params;
     req_temperature := req_temperature params;
     req_timeout := req_timeout params;
     req_json_object := false |}.

(** [OpenAIStyleRunner.__call__(self, trial)]; the [tick]s let the time pass
    that building the request and parsing the reply take. *)
Definition OpenAIStyleRunner_call (costs : Costs) (self : OpenAIStyleRunner)
  (trial : TrialAssets) : M value :=
  tick (build_cost costs trial) ;;;
  content <- lift (build_openai_content trial) ;;
  let params :=
    {| req_model := oa_model_id self;
       req_system := SYSTEM_PROMPT;
       req_user := content;
       req_temperature := temperature self;
       req_timeout := timeout self;
       req_json_object := json_mode self |} in
  response <-
    try_except (create (client self) params)
      (fun exc =>
         if json_mode self
         then create (client self) (pop_response_format params)
         else throw exc) ;;
  message <-
    lift match choices response with
         | m :: _ => ok m
         | [] => raise (Exn IndexError (lit "list index out of range"))
         end ;;
  tick (parse_cost costs message) ;;;
  match message with
  | Some text => lift (parse_json_response text)
  | None => throw (no_attribute VNone "strip")
  end.

(** ** The trial runner *)

(** A runner: any callable from a trial to a parsed reply, with the
    [model_id] attribute it may have. *)
Record Runner := {
  call : TrialAssets -> M value;
  runner_model_id : option str
}.

Definition openai_runner (costs : Costs) (self : OpenAIStyleRunner) : Runner :=
  {| call := OpenAIStyleRunner_call costs self;
     runner_model_id := Some (oa_model_id self) |}.

(** [answer in {"A", "B", "C"}] for an answer that may be [None]. *)
Definition answer_is_letter (answer : option str) : bool :=
  match answer with
  | Some a => is_letter a
  | None => false
  end.

(** The body of the loop of [run_trials]: one trial.  [start] and [t1] are
    the two readings of [time.time()]; the [tick] lets the time pass that the
    normalisation of the reply takes. *)
Definition run_trial (costs : Costs) (runner : Runner) (trial : TrialAssets)
  : M TrialResult :=
  start <- time_time ;;
  try_except
    (raw <- call runner trial ;;
     t1 <- time_time ;;
     let latency := elapsed_ms start t1 in
     tick (normalize_cost costs raw) ;;;
     a <- lift (py_get raw "answer" VNone) ;;
     let answer := normalize_answer a in
     c <- lift (py_get raw "confidence" VNone) ;;
     conf <- lift (normalize_confidence c) ;;
     r <- lift (py_get raw "reasoning" (VStr [])) ;;
     let text := strip (py_str r) in
     ret {| trial_label := label trial;
            tr_condition := condition trial;
            gold := correct_answer trial;
            prediction := answer;
            confidence := conf;
            reasoning := text;
            latency_ms := Some latency;
            success := answer_is_letter answer;
            error := None |})
    (fun exc =>
       t1 <- time_time ;;
       let latency := elapsed_ms start t1 in
       ret {| trial_label := label trial;
              tr_condition := condition trial;
              gold := correct_answer trial;
              prediction := None;
              confidence := None;
              reasoning := [];
              latency_ms := Some latency;
              success := false;
              error := Some (exn_str exc) |}).

Fixpoint run_loop (costs : Costs) (runner : Runner) (trials : list TrialAssets)
  (acc : list TrialResult) : M (list TrialResult) :=
  match trials with
  | [] => ret acc
  | trial :: rest =>
      r <- run_trial costs runner trial ;;
      run_loop costs runner rest (acc ++ [r])
  end.

(** [run_trials(name, runner, trials)] *)
Definition run_trials (costs : Costs) (run_name : str) (runner : Runner)
  (trials : list TrialAssets) : M ModelRun :=
  rs <- run_loop costs runner trials [] ;;
  ret {| name := run_name;
         model_id := match runner_model_id runner with Some m => m | None => run_name end;
         results := rs |}.

(** ** The trial loader *)

(** A path below the trials root, as its components. *)
Definition path := list str.

(** [a < b] on sequences, as Python compares strings and lists: by the
    first position where they differ, a proper prefix being smaller. *)
Fixpoint lex_ltb {A} (ltb : A -> A -> bool) (a b : list A) : bool :=
  match a, b with
  | _, [] => false
  | [], _ :: _ => true
  | x :: a', y :: b' =>
      if ltb x y then true
      else if ltb y x then false
      else lex_ltb ltb a' b'
  end.

Definition str_ltb (a b : str) : bool := lex_ltb N.ltb a b.

(** [a < b] on paths: component by component. *)
Definition path_ltb (a b : path) : bool := lex_ltb str_ltb a b.

Fixpoint insert_path (x : path) (l : list path) : list path :=
  match l with
  | [] => [x]
  | y :: l' => if path_ltb x y then x :: l else y :: insert_path x l'
  end.

(** [sorted(paths)]: a stable sort by [<]. *)
Definition sorted (l : list path) : list path :=
  fold_left (fun acc x => insert_path x acc) l [].

(** The files of the trials directory. *)
Record FileSystem := {
  trials_root : str;
  rglob_metadata : list path;
  read_text : path -> result str;
  read_bytes : path -> result (list N)
}.

(** [str(p)] for a path below the root. *)
Definition path_str (fs : FileSystem) (p : path) : str :=
  join (lit "/") (trials_root fs :: p).

Definition b64_char (n : N) : char :=
  (if n <? 26 then 65 + n
   else if n <? 52 then 71 + n
   else if n <? 62 then n - 4
   else if n =? 62 then 43
   else 47)%N.

(** [base64.b64encode(data).decode("ascii")] *)
Fixpoint b64encode (data : list N) : str :=
  match data with
  | a :: b :: c :: rest =>
      let n := (a * 65536 + b * 256 + c)%N in
      [ b64_char (n / 262144); b64_char ((n / 4096) mod 64);
        b64_char ((n / 64) mod 64); b64_char (n mod 64) ]%N ++ b64encode rest
  | [a; b] =>
      let n := (a * 65536 + b * 256)%N in
      [ b64_char (n / 262144); b64_char ((n / 4096) mod 64);
        b64_char ((n / 64) mod 64); 61 ]%N
  | [a] =>
      let n := (a * 65536)%N in
      [ b64_char (n / 262144); b64_char ((n / 4096) mod 64); 61; 61 ]%N
  | [] => []
  end.

(** [read_image(path)]; every image of a trial is named [*.jpg], which
    [mimetypes] maps to [image/jpeg]. *)
Definition read_image (fs : FileSystem) (p : path) : result image :=
  let mime := lit "image/jpeg" in
  let? data := read_bytes fs p in
  ok (mime, b64encode data).

(** [next((t["id"] for t in targets if t.get("is_correct")), None)] *)
Fixpoint first_correct (targets : list value) : result value :=
  match targets with
  | [] => ok VNone
  | t :: rest =>
      let? flag := py_get t "is_correct" VNone in
      if truthy flag then py_getitem t "id" else first_correct rest
  end.

(** The body of the loop of [discover_trials]: one metadata file. *)
Definition load_trial (fs : FileSystem) (meta_file : path) : result TrialAssets :=
  let? text := read_text fs meta_file in
  let? meta := json_loads text in
  let? config := py_get meta "config" (VDict []) in
  let? shape := py_get config "shape" (VStr (lit "?")) in
  let? complexity := py_get config "complexity" (VStr (lit "?")) in
  let? magnitude := py_get config "magnitude" (VStr (lit "?")) in
  let cond := py_str shape ++ lit " | " ++ py_str complexity ++ lit " | " ++ py_str magnitude in
  let? targets := py_get meta "targets" (VList []) in
  let? items := py_iter targets in
  let? correct_target := first_correct items in
  match correct_target with
  | VNone =>
      raise (Exn ValueError (lit "No correct target found in " ++ path_str fs meta_file))
  | _ =>
      let trial_dir := removelast meta_file in
      let? front := read_image fs (trial_dir ++ [lit "1_Reference_Front.jpg"]) in
      let? back := read_image fs (trial_dir ++ [lit "2_Reference_Back.jpg"]) in
      let? a := read_image fs (trial_dir ++ [lit "3_Target_A.jpg"]) in
      let? b := read_image fs (trial_dir ++ [lit "3_Target_B.jpg"]) in
      let? c := read_image fs (trial_dir ++ [lit "3_Target_C.jpg"]) in
      ok {| label := match trial_dir with [] => lit "." | _ => join (lit "/") trial_dir end;
            condition := cond;
            correct_answer := upper (py_str correct_target);
            ref_front := front;
            ref_back := back;
            candidates := [(lit "A", a); (lit "B", b); (lit "C", c)] |}
  end.

(** [max_trials is not None and len(trials) >= max_trials] *)
Definition cap_reached (max_trials : option Z) (trials : list TrialAssets) : bool :=
  match max_trials with
  | Some n => n <=? Z.of_nat (List.length trials)
  | None => false
  end.

Fixpoint discover_loop (fs : FileSystem) (max_trials : option Z)
  (meta_files : list path) (trials : list TrialAssets) : result (list TrialAssets) :=
  match meta_files with
  | [] => ok trials
  | meta_file :: rest =>
      let? trial := load_trial fs meta_file in
      let trials' := trials ++ [trial] in
      if cap_reached max_trials trials' then ok trials'
      else discover_loop fs max_trials rest trials'
  end.

(** [discover_trials(trials_root, max_trials)] *)
Definition discover_trials (fs : FileSystem) (max_trials : option Z)
  : result (list TrialAssets) :=
  discover_loop fs max_trials (sorted (rglob_metadata fs)) [].

(** ** The report *)

Definition report_header : str :=
  lit "# LLM Trait Testing Results" ++ nl ++ nl
    ++ lit "This file is auto-appended by scripts/run_llm_trials.py." ++ nl ++ nl.

(** [x or y] on text that may be [None]. *)
Definition str_or (x : option str) (y : str) : str :=
  match x with
  | Some (c :: s) => c :: s
  | _ => y
  end.

(** One row of the table of a run. *)
Definition result_row (res : TrialResult) : str :=
  let conf_str :=
    match confidence res with
    | Some c => format_1f c
    | None => lit "-"
    end in
  let status :=
    if is_correct res then lit "OK"
    else if success res then lit "WRONG" else lit "ERROR" in
  let note := str_or (error res) (reasoning res) in
  let note := join (lit " ") (words note) in
  let note := replace_char 124%N (lit "\|") note in
  lit "| " ++ trial_label res ++ lit " | " ++ tr_condition res ++ lit " | "
    ++ gold res ++ lit " | " ++ str_or (prediction res) (lit "-") ++ lit " | "
    ++ conf_str ++ lit " | " ++ status ++ lit " | " ++ note ++ lit " |".

(** The lines [append_report] adds for one run. *)
Definition run_section (run : ModelRun) : list str :=
  let acc := accuracy run in
  let avg_conf := avg_confidence run in
  let total := Z.of_nat (List.length (results run)) in
  let correct := Z.of_nat (List.length (filter is_correct (results run))) in
  [ lit "### " ++ name run ++ lit " (" ++ model_id run ++ lit ")";
    lit "- Accuracy: " ++ dec_Z correct ++ lit "/" ++ dec_Z total
      ++ lit " (" ++ format_pct1 acc ++ lit ")" ]
    ++ match avg_conf with
       | Some a => [ lit "- Avg confidence (where provided): " ++ format_1f a ]
       | None => []
       end
    ++ [ [];
         lit "| Trial | Condition | Gold | Pred | Conf | Status | Notes |";
         lit "| --- | --- | --- | --- | --- | --- | --- |" ]
    ++ map result_row (results run)
    ++ [ [] ].

(** The lines of a run section after the prior content. *)
Definition section_lines (timestamp : str) (runs : list ModelRun)
  (root prompt_note : str) : list str :=
  [ lit "## Run " ++ timestamp;
    lit "- Trials root: " ++ root;
    lit "- Prompt: " ++ prompt_note;
    [] ]
    ++ flat_map run_section runs.

(** The text [append_report] hands to [write_text], from the text it read
    from the report ([None] when the file does not exist) and the time stamp
    of the run. *)
Definition report_text (file : option str) (timestamp : str)
  (runs : list ModelRun) (root prompt_note : str) : str :=
  let existing :=
    match file with
    | Some content => rstrip content
    | None => report_header
    end in
  let sections := existing :: section_lines timestamp runs root prompt_note in
  strip (join nl sections) ++ nl.

(** *** The report file

    The file holds bytes; [read_text] and [write_text] go through UTF-8. *)

Definition is_surrogate (c : char) : bool := ((55296 <=? c) && (c <=? 57343))%N.

(** The bytes of one character that is not a surrogate. *)
Definition utf8_char (c : char) : list N :=
  (if c <? 128 then [c]
   else if c <? 2048 then [192 + c / 64; 128 + c mod 64]
   else if c <? 65536 then [224 + c / 4096; 128 + (c / 64) mod 64; 128 + c mod 64]
   else [240 + c / 262144; 128 + (c / 4096) mod 64; 128 + (c / 64) mod 64;
         128 + c mod 64])%N.

(** The number of surrogates at the front of [s]. *)
Fixpoint surrogate_run (s : str) : nat :=
  match s with
  | c :: s' => if is_surrogate c then S (surrogate_run s') else O
  | [] => O
  end.

(** The [UnicodeEncodeError] for the surrogates [c :: rest] at [pos]. *)
Definition encode_error (c : char) (rest : str) (pos : nat) : exn :=
  let last := (pos + surrogate_run rest)%nat in
  Exn UnicodeEncodeError
    (lit "'utf-8' codec can't encode "
       ++ (if Nat.eqb last pos
           then lit "character '\u" ++ hex_go 4 c [] ++ lit "' in position "
                  ++ dec_Z (Z.of_nat pos)
           else lit "characters in position " ++ dec_Z (Z.of_nat pos) ++ lit "-"
                  ++ dec_Z (Z.of_nat last))
       ++ lit ": surrogates not allowed").

Fixpoint utf8_encode_go (text : str) (pos : nat) : result (list N) :=
  match text with
  | [] => ok []
  | c :: rest =>
      if is_surrogate c then raise (encode_error c rest pos)
      else
        let? bytes := utf8_encode_go rest (S pos) in
        ok (utf8_char c ++ bytes)
  end.

(** [text.encode("utf-8")] *)
Definition utf8_encode (text : str) : result (list N) := utf8_encode_go text 0.

Definition continuation (b : N) : bool := ((128 <=? b) && (b <? 192))%N.

(** The [UnicodeDecodeError] for the bytes from [pos] up to [stop], of which
    [b] is the first. *)
Definition decode_error (b : N) (pos stop : nat) (reason : string) : exn :=
  Exn UnicodeDecodeError
    (lit "'utf-8' codec can't decode "
       ++ (if Nat.eqb stop (S pos)
           then lit "byte 0x" ++ hex_go 2 b [] ++ lit " in position "
                  ++ dec_Z (Z.of_nat pos)
           else lit "bytes in position " ++ dec_Z (Z.of_nat pos) ++ lit "-"
                  ++ dec_Z (Z.of_nat (stop - 1)))
       ++ lit ": " ++ lit reason).

(** [bytes.decode("utf-8")]: [size] is the number of bytes of the whole
    input, [pos] the position of the first byte of [bytes] in it. *)
Fixpoint utf8_decode_go (size : nat) (bytes : list N) (pos : nat) : result str :=
  let invalid_start b := raise (decode_error b pos (S pos) "invalid start byte") in
  let invalid_continuation b n :=
    raise (decode_error b pos (pos + n) "invalid continuation byte") in
  let unexpected_end b := raise (decode_error b pos size "unexpected end of data") in
  match bytes with
  | [] => ok []
  | b :: rest =>
      (if b <? 128 then
         let? s := utf8_decode_go size rest (S pos) in ok (b :: s)
       else if b <? 194 then invalid_start b
       else if b <? 224 then
         match rest with
         | [] => unexpected_end b
         | b2 :: rest2 =>
             if negb (continuation b2) then invalid_continuation b 1%nat
             else
               let? s := utf8_decode_go size rest2 (pos + 2) in
               ok (((b - 192) * 64 + (b2 - 128)) :: s)
         end
       else if b <? 240 then
         match rest with
         | [] => unexpected_end b
         | b2 :: rest2 =>
             if negb (continuation b2)
                || (if b2 <? 160 then b =? 224 else b =? 237)
             then invalid_continuation b 1%nat
             else
               match rest2 with
               | [] => unexpected_end b
               | b3 :: rest3 =>
                   if negb (continuation b3) then invalid_continuation b 2%nat
                   else
                     let? s := utf8_decode_go size rest3 (pos + 3) in
                     ok (((b - 224) * 4096 + (b2 - 128) * 64 + (b3 - 128)) :: s)
               end
         end
       else if b <? 245 then
         match rest with
         | [] => unexpected_end b
         | b2 :: rest2 =>
             if negb (continuation b2)
                || (if b2 <? 144 then b =? 240 else b =? 244)
             then invalid_continuation b 1%nat
             else
               match rest2 with
               | [] => unexpected_end b
               | b3 :: rest3 =>
                   if negb (continuation b3) then invalid_continuation b 2%nat
                   else
                     match rest3 with
                     | [] => unexpected_end b
                     | b4 :: rest4 =>
                         if negb (continuation b4) then invalid_continuation b 3%nat
                         else
                           let? s := utf8_decode_go size rest4 (pos + 4) in
                           ok (((b - 240) * 262144 + (b2 - 128) * 4096
                                + (b3 - 128) * 64 + (b4 - 128)) :: s)
                     end
               end
         end
       else invalid_start b)%N
  end.

Definition utf8_decode (bytes : list N) : result str :=
  utf8_decode_go (List.length bytes) bytes 0.

(** The translation of line ends when a file is read as text: a carriage
    return, with the line feed after it if there is one, becomes a line
    feed. *)
Fixpoint universal_newlines (s : str) : str :=
  match s with
  | [] => []
  | c :: rest =>
      if (c =? 13)%N then
        match rest with
        | c2 :: rest2 =>
            if (c2 =? 10)%N then 10%N :: universal_newlines rest2
            else 10%N :: universal_newlines rest
        | [] => [10%N]
        end
      else c :: universal_newlines rest
  end.

(** [report_path.read_text(encoding="utf-8")] for a file holding [bytes]. *)
Definition read_report (bytes : list N) : result str :=
  let? raw := utf8_decode bytes in
  ok (universal_newlines raw).

(** [report_path.write_text(text, encoding="utf-8")]: the file is opened for
    writing, which empties it, and the text is then encoded and written; the
    line separator is the line feed, as on POSIX systems.  The outcome and
    the bytes the file holds afterwards. *)
Definition write_report (text : str) : result unit * option (list N) :=
  match utf8_encode text with
  | inr bytes => (ok tt, Some bytes)
  | inl e => (raise e, Some [])
  end.

(** [append_report(report_path, runs, trials_root, prompt_note)], from the
    bytes of the report file ([None] when it does not exist) and the time
    stamp of the run: the outcome and the bytes of the file afterwards. *)
Definition append_report (file : option (list N)) (timestamp : str)
  (runs : list ModelRun) (root prompt_note : str)
  : result unit * option (list N) :=
  match file with
  | Some bytes =>
      match read_report bytes with
      | inr content =>
          write_report (report_text (Some content) timestamp runs root prompt_note)
      | inl e => (raise e, file)
      end
  | None => write_report (report_text None timestamp runs root prompt_note)
  end.

(** ** Concrete data used by the examples below *)

(** A literal in which an apostrophe stands for the double quote. *)
Definition jlit (s : string) : str :=
  map (fun c => if (c =? 39)%N then 34%N else c) (lit s).

Definition ex_image : image := (lit "image/jpeg", lit "AAAA").

Definition ex_trial : TrialAssets :=
  {| label := lit "shapes/t1";
     condition := lit "cube | low | 90";
     correct_answer := lit "B";
     ref_front := ex_image;
     ref_back := ex_image;
     candidates := [(lit "A", ex_image); (lit "B", ex_image); (lit "C", ex_image)] |}.

Definition ex_trial2 : TrialAssets :=
  {| label := lit "shapes/t2";
     condition := lit "cube | high | 180";
     correct_answer := lit "A";
     ref_front := ex_image;
     ref_back := ex_image;
     candidates := [(lit "A", ex_image); (lit "B", ex_image); (lit "C", ex_image)] |}.

Definition w0 : World := {| now := 0; calls := [] |}.

(** Parsing a reply takes 5 ms, normalising it 7 ms. *)
Definition ex_costs : Costs :=
  {| build_cost := fun _ => 0;
     parse_cost := fun _ => 5000;
     normalize_cost := fun _ => 7000 |}.

(** A provider that answers every request with [text] after two seconds. *)
Definition provider_replying (text : str) : Provider :=
  {| respond := fun _ _ => ok {| choices := [Some text] |};
     duration := fun _ _ => 2000000 |}.

Definition timeout_error : exn :=
  Exn (LibraryError (lit "APITimeoutError")) (lit "Request timed out.").

(** A provider whose every call times out after two seconds. *)
Definition provider_timing_out : Provider :=
  {| respond := fun _ _ => raise timeout_error;
     duration := fun _ _ => 2000000 |}.

Definition mode_rejected : exn :=
  Exn (LibraryError (lit "BadRequestError"))
    (lit "response_format json_object is not supported by this model").

(** A provider that rejects structured-JSON mode and answers [text] without. *)
Definition provider_rejecting_json (text : str) : Provider :=
  {| respond := fun _ req =>
       if req_json_object req then raise mode_rejected
       else ok {| choices := [Some text] |};
     duration := fun _ _ => 1000000 |}.

Definition ex_adapter (pv : Provider) (mode : bool) : OpenAIStyleRunner :=
  {| client := pv;
     oa_model_id := lit "gpt-5.2";
     temperature := float_of_ratio 2 10;
     timeout := 120;
     json_mode := mode |}.

(** A runner that fails on the first trial and answers the second. *)
Definition ex_flaky_runner : Runner :=
  {| call := fun trial =>
       if str_eqb (label trial) (lit "shapes/t1")
       then throw timeout_error
       else ret (VDict [(lit "answer", VStr (lit "a")); (lit "confidence", VInt 87)]);
     runner_model_id := None |}.

(** A runner whose reply is the value [v]. *)
Definition runner_returning (v : value) : Runner :=
  {| call := fun _ => ret v; runner_model_id := None |}.

Definition huge_int : Z := 10 ^ 400.

(** A trials directory with the trials [a] and [b]; the metadata of [a]
    flags the target [flagged] as the correct one. *)
Definition ex_metadata (flagged : string) : str :=
  jlit "{'config': {'shape': 'cube', 'complexity': 2, 'magnitude': 90}, 'targets': [{'id': 'A', 'is_correct': false}, {'id': '"
    ++ lit flagged ++ jlit "', 'is_correct': true}]}".

Definition ex_fs (flagged : string) : FileSystem :=
  {| trials_root := lit "Trials";
     rglob_metadata := [[lit "b"; lit "Metadata.json"]; [lit "a"; lit "Metadata.json"]];
     read_text := fun p =>
       if str_eqb (join (lit "/") p) (lit "a/Metadata.json") then ok (ex_metadata flagged)
       else if str_eqb (join (lit "/") p) (lit "b/Metadata.json") then ok (ex_metadata "C")
       else raise (Exn FileNotFoundError (lit "[Errno 2] No such file or directory"));
     read_bytes := fun _ => ok [255; 216; 255]%N |}.

(** Metadata in which no target is flagged. *)
Definition ex_fs_unflagged : FileSystem :=
  {| trials_root := lit "Trials";
     rglob_metadata := [[lit "a"; lit "Metadata.json"]];
     read_text := fun _ => ok (jlit "{'targets': [{'id': 'A', 'is_correct': false}]}");
     read_bytes := fun _ => ok [255; 216; 255]%N |}.

Definition ex_run (rs : list TrialResult) : ModelRun :=
  {| name := lit "gpt"; model_id := lit "gpt-5.2"; results := rs |}.

Definition ex_result (g : string) (p : option str) (c : option float) : TrialResult :=
  {| trial_label := lit "shapes/t1";
     tr_condition := lit "cube | low | 90";
     gold := lit g;
     prediction := p;
     confidence := c;
     reasoning := lit "ok";
     latency_ms := Some 12;
     success := match p with Some _ => true | None => false end;
     error := None |}.

(** ** Notions the statements below use *)

(** The world in which [run_trials] starts the trial at index [i]: the one
    the loop reaches after the [i] trials before it. *)
Definition world_before (costs : Costs) (runner : Runner)
  (trials : list TrialAssets) (w : World) (i : nat) : World :=
  snd (run_loop costs runner (firstn i trials) [] w).

(** A reply that is not a JSON object. *)
Definition not_object (v : value) : Prop := forall d, v <> VDict d.

(** The confidence [run_trials] records for an object reply: the entry
    [confidence] of the reply, normalised. *)
Definition reply_confidence (d : list (str * value)) : result (option float) :=
  let? c := py_get (VDict d) "confidence" VNone in normalize_confidence c.

(** The request the adapter [self] builds from the content of a trial. *)
Definition request_of (self : OpenAIStyleRunner) (content : list Part) : Request :=
  {| req_model := oa_model_id self;
     req_system := SYSTEM_PROMPT;
     req_user := content;
     req_temperature := temperature self;
     req_timeout := timeout self;
     req_json_object := json_mode self |}.




(** The metadata files the loader gets to under a cap: all of them without
    one, and otherwise the first [n], but never fewer than one. *)
Definition visited (max_trials : option Z) (meta_files : list path) : list path :=
  match max_trials with
  | None => meta_files
  | Some n => firstn (Z.to_nat (Z.max 1 n)) meta_files
  end.

(** The text of a run section as [append_report] writes it. *)
Definition rendered_section (timestamp : str) (runs : list ModelRun)
  (root prompt_note : str) : str :=
  rstrip (join nl (section_lines timestamp runs root prompt_note)) ++ nl.

(** Text that is whitespace only. *)
Definition all_space (s : str) : Prop := Forall (fun c => is_space c = true) s.

(** The first step of [parse_json_response]: without the surrounding
    whitespace, and for text that starts with a fence, the text between that
    fence and the next one, stripped, and without a leading [json] tag. *)
Definition strip_fences (text : str) : str :=
  let t := strip text in
  if startswith fence t then
    let inner := strip (nth 1 (str_split fence t) t) in
    if startswith (lit "json") (lower inner) then strip (skipn 4 inner) else inner
  else t.

(** The second step: the span from the first opening brace to the last
    closing brace, when the text holds both. *)
Definition narrow_to_braces (s : str) : str :=
  if contains lbrace s && contains rbrace s
  then slice s (str_find lbrace s) (str_rfind rbrace s + 1)
  else s.

(** Text without a brace. *)
Definition brace_free (s : str) : Prop :=
  Forall (fun c => c <> lbrace /\ c <> rbrace) s.

(** Text that starts with an opening brace and ends with a closing one. *)
Definition object_text (obj : str) : Prop :=
  exists mid, obj = lbrace :: mid ++ [rbrace].

(** [sep in s]: [sep] starts somewhere in [s]. *)
Fixpoint occurs (sep s : str) : bool :=
  match s with
  | [] => startswith sep []
  | _ :: s' => startswith sep s || occurs sep s'
  end.

(** [s] is [obj] with text without braces before and after it. *)
Definition around (obj s : str) : Prop :=
  exists p q, s = p ++ obj ++ q /\ brace_free p /\ brace_free q.

(** The failures of the JSON parser: a [JSONDecodeError], the [ValueError]
    of an integer beyond the digit limit, or exhausted recursion depth. *)
Definition parser_failure (e : exn) : Prop :=
  exn_class_of e = JSONDecodeError
  \/ exn_class_of e = ValueError
  \/ exn_class_of e = RecursionError.

(** [a <= b] on paths. *)
Definition path_le (a b : path) : Prop := path_ltb b a = false.

(** A float that is zero or finite, of magnitude below [2 ^ k]. *)
Definition bounded_float (k : Z) (f : float) : Prop :=
  match f with
  | S754_zero _ => True
  | S754_finite _ m e => Zpos (digits2_pos m) + e <= k /\ e <= emax - prec
  | _ => False
  end.

(** ** Decoding base64 *)

Definition binascii_error (msg : str) : exn :=
  Exn (LibraryError (lit "binascii.Error")) msg.

(** The value of a character of the base64 alphabet. *)
Definition b64_value (c : char) : option N :=
  (if (65 <=? c) && (c <=? 90) then Some (c - 65)
   else if (97 <=? c) && (c <=? 122) then Some (c - 71)
   else if (48 <=? c) && (c <=? 57) then Some (c + 4)
   else if c =? 43 then Some 62
   else if c =? 47 then Some 63
   else None)%N.

(** [binascii.a2b_base64(data)] without strict mode.  [quad] counts the
    characters of the group of four read so far, [leftchar] holds the bits not
    yet written, [pads] counts the padding characters since the last
    character of the alphabet, and [out] holds the bytes written, last
    first.  A character outside the alphabet is passed over. *)
Fixpoint a2b_go (s : str) (quad : nat) (leftchar : N) (pads : nat) (out : list N)
  : result (list N) :=
  match s with
  | [] =>
      match quad with
      | O => ok (rev out)
      | S O =>
          raise (binascii_error
                   (lit "Invalid base64-encoded string: number of data characters ("
                      ++ dec_Z (Z.of_nat (List.length out / 3 * 4 + 1))
                      ++ lit ") cannot be 1 more than a multiple of 4"))
      | _ => raise (binascii_error (lit "Incorrect padding"))
      end
  | c :: s' =>
      if (c =? 61)%N then
        if (2 <=? quad)%nat then
          if (4 <=? quad + S pads)%nat then ok (rev out)
          else a2b_go s' quad leftchar (S pads) out
        else a2b_go s' quad leftchar pads out
      else
        match b64_value c with
        | None => a2b_go s' quad leftchar pads out
        | Some v =>
            match quad with
            | O => a2b_go s' 1 v 0 out
            | S O => a2b_go s' 2 (v mod 16)%N 0 ((leftchar * 4 + v / 16)%N :: out)
            | S (S O) => a2b_go s' 3 (v mod 4)%N 0 ((leftchar * 16 + v / 4)%N :: out)
            | _ => a2b_go s' 0 0%N 0 ((leftchar * 64 + v)%N :: out)
            end
        end
  end.

(** [base64.b64decode(text)] for a [str]: the text has to be ASCII. *)
Definition b64decode (text : str) : result (list N) :=
  if forallb (fun c => (c <? 128)%N) text then a2b_go text 0 0%N 0 []
  else raise (Exn ValueError (lit "string argument should contain only ASCII characters")).

(** ** The generative adapter *)

Variant GeminiPart :=
| GText (text : str)
| GBlob (mime_type : str) (data : list N).

(** The arguments of [model.generate_content]. *)
Record GeminiRequest := {
  g_parts : list GeminiPart;
  g_temperature : float;
  g_response_mime_type : str;
  g_timeout : Z
}.

(** The model behind the adapter: what a request made at a time of the clock
    gives, which is the text of the response ([None] when the response has
    none) or the failure that the call, or the reading of the text, raises;
    and how long the call takes (microseconds). *)
Record GeminiModel := {
  generate_content : Z -> GeminiRequest -> result (option str);
  generate_time : Z -> GeminiRequest -> Z
}.

Record GeminiRunner := {
  g_model : GeminiModel;
  g_model_id : str;
  g_runner_temperature : float;
  g_runner_timeout : Z
}.

(** The text and the image of one candidate in the list of parts. *)
Definition gemini_candidate (trial : TrialAssets) (letter : string)
  : result (list GeminiPart) :=
  let? img := candidate trial letter in
  let? data := b64decode (snd img) in
  ok [ GText (lit "Candidate " ++ lit letter ++ lit ":"); GBlob (fst img) data ].

(** The list [parts] that [GeminiRunner.__call__] builds. *)
Definition gemini_parts (trial : TrialAssets) : result (list GeminiPart) :=
  let? front := b64decode (snd (ref_front trial)) in
  let? back := b64decode (snd (ref_back trial)) in
  let parts :=
    [ GText (lit "Reference Object - View 1 (Front):");
      GBlob (fst (ref_front trial)) front;
      GText (lit "Reference Object - View 2 (Back - 180 degrees):");
      GBlob (fst (ref_back trial)) back;
      GText (lit "--- CANDIDATES ---") ] in
  let? a := gemini_candidate trial "A" in
  let? b := gemini_candidate trial "B" in
  let? c := gemini_candidate trial "C" in
  ok (parts ++ a ++ b ++ c ++ [GText USER_INSTRUCTION]).

(** [model.generate_content(parts, ...)] *)
Definition gemini_generate (m : GeminiModel) (req : GeminiRequest) : M (option str) :=
  fun w =>
    (generate_content m (now w) req,
     {| now := now w + generate_time m (now w) req; calls := calls w |}).

(** [GeminiRunner.__call__(self, trial)] *)
Definition GeminiRunner_call (costs : Costs) (self : GeminiRunner)
  (trial : TrialAssets) : M value :=
  tick (build_cost costs trial) ;;;
  parts <- lift (gemini_parts trial) ;;
  text <-
    gemini_generate (g_model self)
      {| g_parts := parts;
         g_temperature := g_runner_temperature self;
         g_response_mime_type := lit "application/json";
         g_timeout := g_runner_timeout self |} ;;
  match text with
  | Some (c :: s) =>
      tick (parse_cost costs text) ;;;
      lift (parse_json_response (c :: s))
  | _ => throw (Exn RuntimeError (lit "Gemini returned empty text"))
  end.

Definition gemini_runner (costs : Costs) (self : GeminiRunner) : Runner :=
  {| call := GeminiRunner_call costs self;
     runner_model_id := Some (g_model_id self) |}.

(** ** Building the runners *)

(** [obj.items()] *)
Definition py_items (obj : value) : result (list (str * value)) :=
  match obj with
  | VDict d => ok d
  | _ => raise (no_attribute obj "items")
  end.

(** [obj.lower()] *)
Definition py_lower (obj : value) : result str :=
  match obj with
  | VStr s => ok (lower s)
  | _ => raise (no_attribute obj "lower")
  end.

(** [d[k] = v] on a dictionary kept as a list of entries. *)
Fixpoint assoc_set {A} (d : list (str * A)) (k : str) (v : A) : list (str * A) :=
  match d with
  | [] => [(k, v)]
  | (k', v') :: d' =>
      if str_eqb k' k then (k', v) :: d' else (k', v') :: assoc_set d' k v
  end.

Section BuildRunners.
(** The two constructors, [OpenAIStyleRunner(model_id, api_key, base_url,
    temperature, timeout, json_mode)] and [GeminiRunner(model_id, api_key,
    temperature, timeout)], which import and set up the client libraries,
    are taken as given: they return the runner or raise. *)
Context {R : Type}.
Variable new_openai : value -> value -> value -> float -> Z -> value -> result R.
Variable new_gemini : value -> value -> float -> Z -> result R.

(** The body of the loop of [build_runners]: one entry of [models]. *)
Definition build_runner (entry_name : str) (info : value)
  (temp : float) (seconds : Z) : result R :=
  let? provider := py_get info "provider" VNone in
  let? model := py_get info "model" VNone in
  let? api_key := py_get info "api_key" VNone in
  let? base_url := py_get info "base_url" VNone in
  let? mode := py_get info "json_mode" (VBool true) in
  if negb (truthy api_key) || negb (truthy model) || negb (truthy provider) then
    raise (Exn ValueError
             (lit "Model entry '" ++ entry_name
                ++ lit "' is missing provider/model/api_key"))
  else
    let? tag := py_lower provider in
    if str_eqb tag (lit "openai")
    then new_openai model api_key base_url temp seconds mode
    else if str_eqb tag (lit "gemini")
    then new_gemini model api_key temp seconds
    else
      raise (Exn ValueError
               (lit "Unsupported provider '" ++ py_str provider
                  ++ lit "' for model '" ++ entry_name ++ lit "'")).

Fixpoint build_loop (entries : list (str * value)) (temp : float) (seconds : Z)
  (runners : list (str * R)) : result (list (str * R)) :=
  match entries with
  | [] => ok runners
  | (entry_name, info) :: rest =>
      let? r := build_runner entry_name info temp seconds in
      build_loop rest temp seconds (assoc_set runners entry_name r)
  end.

(** [build_runners(config, temperature, timeout)] *)
Definition build_runners (config : value) (temp : float) (seconds : Z)
  : result (list (str * R)) :=
  let? models := py_get config "models" (VDict []) in
  let? entries := py_items models in
  build_loop entries temp seconds [].

End BuildRunners.

(** ** More notions for the statements below *)

(** The six spellings of an answer. *)
Definition answer_char (c : char) : bool :=
  (((97 <=? c) && (c <=? 99)) || ((65 <=? c) && (c <=? 67)))%N.

(** A list of bytes. *)
Definition is_bytes (data : list N) : Prop := Forall (fun b => (b < 256)%N) data.

(** The images of the parts of a request, in their order. *)
Definition image_urls (parts : list Part) : list str :=
  flat_map (fun p => match p with ImagePart url => [url] | TextPart _ => [] end) parts.

Definition blobs (parts : list GeminiPart) : list (str * list N) :=
  flat_map (fun p => match p with GBlob m d => [(m, d)] | GText _ => [] end) parts.


(** Every [c] in [s] comes right after a backslash. *)
Fixpoint escaped (c : char) (prev_backslash : bool) (s : str) : bool :=
  match s with
  | [] => true
  | x :: s' =>
      (negb (N.eqb x c) || prev_backslash) && escaped c (N.eqb x 92%N) s'
  end.

(** A model entry lacks one of the three fields it needs: the field is
    absent, null, empty, zero or false. *)
Definition entry_incomplete (info : value) : bool :=
  match py_get info "provider" VNone, py_get info "model" VNone,
        py_get info "api_key" VNone with
  | inr provider, inr model, inr api_key =>
      negb (truthy api_key) || negb (truthy model) || negb (truthy provider)
  | _, _, _ => false
  end.

(** A model entry names one of the two providers, in any case. *)
Definition names_known_provider (info : value) : bool :=
  match py_get info "provider" VNone with
  | inr (VStr p) => str_eqb (lower p) (lit "openai") || str_eqb (lower p) (lit "gemini")
  | _ => false
  end.

(** The texts of the parts of a request, in their order. *)
Definition part_texts (parts : list Part) : list str :=
  flat_map (fun p => match p with TextPart t => [t] | ImagePart _ => [] end) parts.

Definition gemini_texts (parts : list GeminiPart) : list str :=
  flat_map (fun p => match p with GText t => [t] | GBlob _ _ => [] end) parts.

(** The cell of the notes column that [append_report] writes for [note]. *)
Definition note_cell (note : str) : str :=
  replace_char 124%N (lit "\|") (join (lit " ") (words note)).

(** The five image files of the trial whose metadata file is [meta_file]. *)
Definition image_files (meta_file : path) : list path :=
  map (fun file => removelast meta_file ++ [lit file])
    [ "1_Reference_Front.jpg"; "2_Reference_Back.jpg";
      "3_Target_A.jpg"; "3_Target_B.jpg"; "3_Target_C.jpg" ]%string.

(** [str(trial_dir.relative_to(trials_root))] for the directory of a
    metadata file. *)
Definition label_of (meta_file : path) : str :=
  let trial_dir := removelast meta_file in
  match trial_dir with
  | [] => lit "."
  | _ => join (lit "/") trial_dir
  end.

(** The image [read_image] makes of the bytes of a file. *)
Definition jpeg (data : list N) : image := (lit "image/jpeg", b64encode data).

(** A trials directory in which the image files cannot be read. *)
Definition ex_fs_no_images : FileSystem :=
  {| trials_root := lit "Trials";
     rglob_metadata := [[lit "a"; lit "Metadata.json"]];
     read_text := fun _ => ok (ex_metadata "B");
     read_bytes := fun _ =>
       raise (Exn FileNotFoundError (lit "[Errno 2] No such file or directory")) |}.

(** A provider whose completions have no choice, and one whose choice has
    no content. *)
Definition provider_without_choices : Provider :=
  {| respond := fun _ _ => ok {| choices := [] |};
     duration := fun _ _ => 1000000 |}.

Definition provider_without_content : Provider :=
  {| respond := fun _ _ => ok {| choices := [None] |};
     duration := fun _ _ => 1000000 |}.

(** A generative model that answers every request with [text]. *)
Definition gemini_replying (text : option str) : GeminiModel :=
  {| generate_content := fun _ _ => ok text;
     generate_time := fun _ _ => 1500000 |}.

Definition ex_gemini (m : GeminiModel) : GeminiRunner :=
  {| g_model := m;
     g_model_id := lit "gemini-3-pro";
     g_runner_temperature := float_of_ratio 2 10;
     g_runner_timeout := 120 |}.

(** A trial whose images are the base64 text of three bytes. *)
Definition ex_jpeg_trial : TrialAssets :=
  {| label := lit "a";
     condition := lit "cube | 2 | 90";
     correct_answer := lit "B";
     ref_front := jpeg [255; 216; 255]%N;
     ref_back := jpeg [255; 216; 255]%N;
     candidates := [(lit "A", jpeg [255; 216; 255]%N); (lit "B", jpeg [1; 2]%N);
                    (lit "C", jpeg [3]%N)] |}.

(** Constructors that keep the model identifier as the runner, and a
    configuration with one entry for each provider. *)
Definition ex_new_openai (model api_key base_url : value) (temp : float)
  (seconds : Z) (mode : value) : result str :=
  ok (lit "chat:" ++ py_str model).

Definition ex_new_gemini (model api_key : value) (temp : float) (seconds : Z)
  : result str :=
  ok (lit "generative:" ++ py_str model).

Definition ex_entry (provider model api_key : string) : value :=
  VDict [(lit "provider", VStr (lit provider)); (lit "model", VStr (lit model));
         (lit "api_key", VStr (lit api_key))].

Definition ex_config : value :=
  VDict [(lit "models",
          VDict [(lit "gpt", ex_entry "OpenAI" "gpt-5.2" "sk-1");
                 (lit "gemini", ex_entry "gemini" "gemini-3-pro" "key-2")])].

(** A configuration whose first entry has no API key. *)
Definition ex_config_without_key : value :=
  VDict [(lit "models",
          VDict [(lit "gpt",
                  VDict [(lit "provider", VStr (lit "openai"));
                         (lit "model", VStr (lit "gpt-5.2"))]);
                 (lit "gemini", ex_entry "gemini" "gemini-3-pro" "key-2")])].

(** The request the generative adapter [self] makes of the parts of a
    trial. *)
Definition gemini_request_of (self : GeminiRunner) (parts : list GeminiPart)
  : GeminiRequest :=
  {| g_parts := parts;
     g_temperature := g_runner_temperature self;
     g_response_mime_type := lit "application/json";
     g_timeout := g_runner_timeout self |}.

(** * Properties *)

(** ** Text *)

Lemma str_eqb_refl (a : str) : str_eqb a a = true.
Proof.
  induction a as [|x a IH]; simpl; auto.
  now rewrite N.eqb_refl.
Qed.

Lemma str_eqb_eq (a b : str) : str_eqb a b = true <-> a = b.
Proof.
  split.
  - revert b. induction a as [|x a IH]; intros [|y b] H; simpl in H;
      try discriminate; auto.
    apply andb_true_iff in H as [Hx Hr].
    apply N.eqb_eq in Hx. subst. f_equal. now apply IH.
  - intros ->. apply str_eqb_refl.
Qed.

(** [normalize_answer] yields nothing or one of the three letters. *)
Lemma normalize_answer_letter (v : value) (a : str) :
  normalize_answer v = Some a -> is_letter a = true.
Proof.
  unfold normalize_answer. destruct v; try discriminate;
    match goal with
    | |- context [is_letter ?x] => destruct (is_letter x) eqn:E
    end; intros H; inversion H; subst; auto.
Qed.

Lemma answer_is_letter_normalize (v : value) :
  answer_is_letter (normalize_answer v) = false -> normalize_answer v = None.
Proof.
  destruct (normalize_answer v) as [a|] eqn:E; auto.
  simpl. apply normalize_answer_letter in E. congruence.
Qed.

(** ** Floats: the elapsed time is finite *)

Lemma Zdigits2_log2 (p : positive) : Zpos (digits2_pos p) = Z.log2 (Zpos p) + 1.
Proof.
  assert (H : forall q, digits2_pos q = Pos.size q) by (induction q; simpl; congruence).
  destruct p as [p|p|]; simpl; rewrite ?H; try reflexivity; lia.
Qed.

Lemma Zdigits2_nonneg (m : Z) : 0 <= Zdigits2 m.
Proof. destruct m; simpl; lia. Qed.

Lemma Zdigits2_abs (m : Z) : Zdigits2 m = Zdigits2 (Z.abs m).
Proof. destruct m; reflexivity. Qed.

Lemma Zdigits2_le (m k : Z) : 0 <= m -> 0 <= k -> (Zdigits2 m <= k <-> m < 2 ^ k).
Proof.
  intros Hm Hk. destruct m as [|p|p]; try lia.
  - simpl. split; intros _; [apply Z.pow_pos_nonneg; lia|lia].
  - simpl. rewrite Zdigits2_log2.
    rewrite (Z.log2_lt_pow2 (Zpos p) k) by lia. lia.
Qed.

Lemma Zdigits2_lt (m : Z) : 0 <= m -> m < 2 ^ Zdigits2 m.
Proof.
  intros Hm. apply Zdigits2_le; auto using Zdigits2_nonneg. lia.
Qed.

Lemma digits_shift (m k : Z) :
  0 <= m -> 0 <= k -> Zdigits2 (m / 2 ^ k) <= Z.max 0 (Zdigits2 m - k).
Proof.
  intros Hm Hk. pose proof (Zdigits2_lt m Hm) as Hd.
  pose proof (Zdigits2_nonneg m) as Hn.
  assert (Hq : 0 <= m / 2 ^ k) by (apply Z.div_pos; [lia|apply Z.pow_pos_nonneg; lia]).
  apply Zdigits2_le; [exact Hq|lia|].
  destruct (Z_le_gt_dec (Zdigits2 m) k) as [Hle|Hgt].
  - rewrite Z.max_l by lia. simpl.
    assert (m < 2 ^ k).
    { eapply Z.lt_le_trans; [exact Hd|]. apply Z.pow_le_mono_r; lia. }
    rewrite Z.div_small; lia.
  - rewrite Z.max_r by lia.
    apply Z.div_lt_upper_bound; [apply Z.pow_pos_nonneg; lia|].
    rewrite <- Z.pow_add_r by lia.
    replace (k + (Zdigits2 m - k)) with (Zdigits2 m) by lia. exact Hd.
Qed.

Lemma digits_round (m : Z) (l : location) :
  0 <= m ->
  0 <= round_nearest_even m l /\ Zdigits2 (round_nearest_even m l) <= Zdigits2 m + 1.
Proof.
  intros Hm. pose proof (Zdigits2_lt m Hm) as Hd.
  pose proof (Zdigits2_nonneg m) as Hn.
  assert (Hs : 0 <= m + 1 /\ Zdigits2 (m + 1) <= Zdigits2 m + 1).
  { split; [lia|]. apply Zdigits2_le; try lia.
    rewrite Z.pow_add_r by lia. simpl. lia. }
  unfold round_nearest_even.
  destruct l as [|[| |]]; try destruct (Z.even m); try (split; lia); exact Hs.
Qed.

Lemma shr_1_m (mrs : shr_record) :
  0 <= shr_m mrs -> shr_m (shr_1 mrs) = shr_m mrs / 2.
Proof.
  destruct mrs as [m r s]. simpl. intros Hm.
  destruct m as [|[p|p|]|p]; simpl; try lia; try reflexivity.
  - rewrite Pos2Z.inj_xI. apply Z.div_unique with (r := 1); lia.
  - rewrite Pos2Z.inj_xO. apply Z.div_unique with (r := 0); lia.
Qed.

Lemma iter_shr_m (p : positive) :
  forall mrs,
    0 <= shr_m mrs ->
    shr_m (iter_pos shr_1 p mrs) = shr_m mrs / 2 ^ Zpos p.
Proof.
  assert (Hpos : forall q, 0 < 2 ^ Zpos q) by (intros q; apply Z.pow_pos_nonneg; lia).
  induction p as [p IH|p IH|]; intros mrs Hm; simpl iter_pos.
  - assert (H1 : 0 <= shr_m (shr_1 mrs)).
    { rewrite shr_1_m by exact Hm. apply Z.div_pos; lia. }
    assert (H2 : 0 <= shr_m (iter_pos shr_1 p (shr_1 mrs))).
    { rewrite IH by exact H1. apply Z.div_pos; [lia|apply Hpos]. }
    rewrite IH by exact H2. rewrite IH by exact H1. rewrite shr_1_m by exact Hm.
    rewrite !Z.div_div by (try lia; try apply Hpos; pose proof (Hpos p); lia).
    f_equal. rewrite Pos2Z.inj_xI.
    replace (2 * Zpos p + 1) with (1 + Zpos p + Zpos p) by lia.
    rewrite !Z.pow_add_r by lia. change (2 ^ 1) with 2. ring.
  - assert (H2 : 0 <= shr_m (iter_pos shr_1 p mrs)).
    { rewrite IH by exact Hm. apply Z.div_pos; [lia|apply Hpos]. }
    rewrite IH by exact H2. rewrite IH by exact Hm.
    rewrite Z.div_div by (try apply Hpos; pose proof (Hpos p); lia).
    f_equal. rewrite <- Z.pow_add_r by lia. f_equal. lia.
  - rewrite shr_1_m by exact Hm. reflexivity.
Qed.

Lemma fexp_eq (x : Z) : fexp prec emax x = Z.max (x - 53) (-1074).
Proof. reflexivity. Qed.

Lemma shr_fexp_spec (m e : Z) (l : location) :
  0 <= m ->
  exists mrs e',
    shr_fexp prec emax m e l = (mrs, e')
    /\ e' = Z.max e (fexp prec emax (Zdigits2 m + e))
    /\ shr_m mrs = m / 2 ^ (e' - e).
Proof.
  intros Hm. unfold shr_fexp, shr.
  assert (Hrec : shr_m (shr_record_of_loc m l) = m) by (destruct l as [|[| |]]; reflexivity).
  destruct (fexp prec emax (Zdigits2 m + e) - e) as [|p|p] eqn:En.
  - do 2 eexists. split; [reflexivity|]. split; [lia|].
    rewrite Hrec. replace (e - e) with 0 by lia. now rewrite Z.div_1_r.
  - do 2 eexists. split; [reflexivity|]. split; [lia|].
    rewrite iter_shr_m by (rewrite Hrec; exact Hm). rewrite Hrec.
    f_equal. f_equal. lia.
  - do 2 eexists. split; [reflexivity|]. split; [lia|].
    rewrite Hrec. replace (e - e) with 0 by lia. now rewrite Z.div_1_r.
Qed.

(** Rounding a number below [2 ^ k] gives a float of magnitude at most
    [2 ^ k]: no overflow. *)
Lemma binary_round_aux_bounded (s : bool) (m e : Z) (l : location) (k : Z) :
  0 <= m -> Zdigits2 m + e <= k -> e <= 971 -> -1074 <= k -> k < 1024 ->
  bounded_float (k + 1) (binary_round_aux prec emax s m e l).
Proof.
  intros Hm Hk He Hlo Hhi. unfold binary_round_aux.
  pose proof (Zdigits2_nonneg m) as Hd.
  destruct (shr_fexp_spec m e l Hm) as (mrs1 & e1 & -> & He1 & Hm1).
  rewrite fexp_eq in He1.
  assert (Hs1 : 0 <= shr_m mrs1).
  { rewrite Hm1. apply Z.div_pos; [lia|apply Z.pow_pos_nonneg; lia]. }
  assert (Hd1 : Zdigits2 (shr_m mrs1) <= Z.max 0 (Zdigits2 m - (e1 - e))).
  { rewrite Hm1. apply digits_shift; lia. }
  destruct (digits_round (shr_m mrs1) (loc_of_shr_record mrs1) Hs1) as [Hr Hdr].
  set (r := round_nearest_even (shr_m mrs1) (loc_of_shr_record mrs1)) in *.
  destruct (shr_fexp_spec r e1 loc_Exact Hr) as (mrs2 & e2 & -> & He2 & Hm2).
  rewrite fexp_eq in He2.
  pose proof (Zdigits2_nonneg r) as Hdr0.
  assert (Hd2 : Zdigits2 (shr_m mrs2) <= Z.max 0 (Zdigits2 r - (e2 - e1))).
  { rewrite Hm2. apply digits_shift; lia. }
  assert (Hs2 : 0 <= shr_m mrs2).
  { rewrite Hm2. apply Z.div_pos; [lia|apply Z.pow_pos_nonneg; lia]. }
  destruct (shr_m mrs2) as [|p|p] eqn:Ep; [exact I| |lia].
  change (Zdigits2 (Zpos p)) with (Zpos (digits2_pos p)) in Hd2.
  assert (He2' : e2 <= 971) by lia.
  replace (e2 <=? emax - prec) with true by (symmetry; apply Z.leb_le; unfold emax, prec; lia).
  cbn [bounded_float]. unfold emax, prec. lia.
Qed.

Lemma digits_iter_xO (m d : positive) :
  Zpos (digits2_pos (Pos.iter xO m d)) = Zpos (digits2_pos m) + Zpos d.
Proof.
  induction d as [|d IH] using Pos.peano_ind.
  - simpl. lia.
  - rewrite Pos.iter_succ. simpl. rewrite Pos2Z.inj_succ. rewrite IH. lia.
Qed.

Lemma shl_align_digits (m : positive) (e e' : Z) :
  e' <= e ->
  Zpos (digits2_pos (fst (shl_align m e e'))) + e' = Zpos (digits2_pos m) + e.
Proof.
  intros H. unfold shl_align. destruct (e' - e) as [|p|p] eqn:E; cbn [fst]; try lia.
  rewrite digits_iter_xO. lia.
Qed.

Lemma binary_round_bounded (s : bool) (m : positive) (e k : Z) :
  Zpos (digits2_pos m) + e <= k -> e <= 971 -> -1074 <= k -> k < 1024 ->
  bounded_float (k + 1) (binary_round prec emax s m e).
Proof.
  intros Hk He Hlo Hhi. unfold binary_round, shl_align.
  rewrite fexp_eq.
  destruct (Z.max (Zpos (digits2_pos m) + e - 53) (-1074) - e) as [|p|p] eqn:E.
  - apply binary_round_aux_bounded; cbn [Zdigits2]; lia.
  - apply binary_round_aux_bounded; cbn [Zdigits2]; lia.
  - apply binary_round_aux_bounded; cbn [Zdigits2]; try lia.
    rewrite digits_iter_xO. lia.
Qed.

Lemma binary_normalize_bounded (m e k : Z) :
  Zdigits2 m + e <= k -> e <= 971 -> -1074 <= k -> k < 1024 ->
  bounded_float (k + 1) (binary_normalize prec emax m e false).
Proof.
  intros Hk He Hlo Hhi. destruct m as [|p|p]; cbn [binary_normalize Zdigits2] in *.
  - exact I.
  - apply binary_round_bounded; auto.
  - apply binary_round_bounded; auto.
Qed.

Lemma bounded_float_le (k k' : Z) (f : float) :
  k <= k' -> bounded_float k f -> bounded_float k' f.
Proof.
  intros H. destruct f; cbn [bounded_float]; auto. lia.
Qed.

Lemma f_sub_bounded (k : Z) (x y : float) :
  bounded_float k x -> bounded_float k y -> -1074 <= k -> k + 1 < 1024 ->
  bounded_float (k + 2) (f_sub x y).
Proof.
  intros Hx Hy Hlo Hhi.
  destruct x as [sx|sx| |sx mx ex]; try contradiction;
    destruct y as [sy|sy| |sy my ey]; try contradiction.
  - simpl. destruct sx, sy; exact I.
  - cbn [f_sub SFsub bounded_float] in *. lia.
  - cbn [f_sub SFsub bounded_float] in *. lia.
  - unfold f_sub, SFsub. cbn [bounded_float] in Hx, Hy.
    set (ez := Z.min ex ey).
    pose proof (shl_align_digits mx ex ez ltac:(unfold ez; lia)) as Hax.
    pose proof (shl_align_digits my ey ez ltac:(unfold ez; lia)) as Hay.
    set (ax := fst (shl_align mx ex ez)) in *.
    set (ay := fst (shl_align my ey ez)) in *.
    assert (Hbx : Zpos ax < 2 ^ (k - ez)).
    { eapply Z.lt_le_trans; [apply (Zdigits2_lt (Zpos ax)); lia|].
      apply Z.pow_le_mono_r; cbn [Zdigits2]; lia. }
    assert (Hby : Zpos ay < 2 ^ (k - ez)).
    { eapply Z.lt_le_trans; [apply (Zdigits2_lt (Zpos ay)); lia|].
      apply Z.pow_le_mono_r; cbn [Zdigits2]; lia. }
    assert (Hkz : 0 <= k - ez).
    { pose proof (Pos2Z.is_pos (digits2_pos ax)). lia. }
    assert (Hd : Zdigits2 (cond_Zopp sx (Zpos ax) - cond_Zopp sy (Zpos ay)) <= k - ez + 1).
    { rewrite Zdigits2_abs. apply Zdigits2_le; try lia.
      rewrite Z.pow_add_r by lia. change (2 ^ 1) with 2.
      destruct sx, sy; cbn [cond_Zopp]; lia. }
    assert (Hez : ez <= 971) by (unfold ez, emax, prec in *; lia).
    replace (k + 2) with (k + 1 + 1) by lia.
    apply binary_normalize_bounded; lia.
Qed.

Lemma f_mul_thousand_bounded (k : Z) (x : float) :
  bounded_float k x -> -1084 <= k -> k + 10 < 1024 ->
  bounded_float (k + 11) (f_mul x f_thousand).
Proof.
  intros Hx Hlo Hhi. destruct x as [sx|sx| |sx mx ex]; try contradiction.
  - exact I.
  - unfold f_mul, f_thousand, SFmul. cbn [bounded_float] in Hx.
    assert (Hd : Zdigits2 (Zpos (mx * 8796093022208000)) <= Zpos (digits2_pos mx) + 53).
    { apply Zdigits2_le; try lia.
      rewrite Z.pow_add_r by lia. rewrite Pos2Z.inj_mul.
      pose proof (Zdigits2_lt (Zpos mx) ltac:(lia)) as H1. cbn [Zdigits2] in H1.
      assert (H2 : 8796093022208000 < 2 ^ 53) by reflexivity.
      nia. }
    assert (He : ex + -43 <= 971) by (unfold emax, prec in *; lia).
    replace (k + 11) with (k + 10 + 1) by lia.
    apply binary_round_aux_bounded; lia.
Qed.

Lemma div_core_bounded (a : Z) (sgn : bool) :
  0 < a <= 2 ^ 63 ->
  bounded_float 65
    (let '(q, e, l) := SFdiv_core_binary prec emax a 0 1000000 0 in
     binary_round_aux prec emax sgn q e l).
Proof.
  intros Ha. unfold SFdiv_core_binary.
  assert (Hd1 : 0 <= Zdigits2 a <= 64).
  { split; [apply Zdigits2_nonneg|].
    apply Zdigits2_le; try lia; assert (2 ^ 63 < 2 ^ 64) by reflexivity; lia. }
  rewrite fexp_eq.
  remember (Z.min (Z.max (Zdigits2 a + 0 - (Zdigits2 1000000 + 0) - 53) (-1074)) (0 - 0))
    as e' eqn:Ee.
  assert (He : e' <= 0) by lia.
  remember (0 - 0 - e') as sh eqn:Es.
  assert (Hm : exists m', match sh with
                          | 0 => a
                          | Zpos _ => Z.shiftl a sh
                          | Zneg _ => 0
                          end = m' /\ m' = a * 2 ^ sh).
  { eexists. split; [reflexivity|].
    destruct sh as [|p|p] eqn:E;
      [lia | rewrite Z.shiftl_mul_pow2 by lia; reflexivity | lia]. }
  destruct Hm as (m' & -> & Hm').
  assert (Hpow : 0 < 2 ^ sh) by (apply Z.pow_pos_nonneg; lia).
  assert (Hm0 : 0 <= m') by nia.
  pose proof (Z.div_eucl_eq m' 1000000 ltac:(discriminate)) as Hdiv.
  pose proof (Z.mod_pos_bound m' 1000000 ltac:(reflexivity)) as Hmod.
  unfold Z.modulo in Hmod.
  destruct (Z.div_eucl m' 1000000) as [q r].
  assert (Hq : 0 <= q <= m') by nia.
  assert (Hdq : Zdigits2 q <= Zdigits2 a + sh).
  { apply Zdigits2_le; try lia.
    rewrite Z.pow_add_r by lia.
    pose proof (Zdigits2_lt a ltac:(lia)). nia. }
  apply (binary_round_aux_bounded sgn q e' (new_location 1000000 r) 64); lia.
Qed.

Lemma float_of_ratio_bounded (n : Z) :
  Z.abs n <= 2 ^ 63 -> bounded_float 65 (float_of_ratio n 1000000).
Proof.
  intros Hn. unfold float_of_ratio.
  destruct n as [|p|p]; [exact I| |].
  - apply (div_core_bounded (Z.abs (Zpos p))). simpl in *. lia.
  - apply (div_core_bounded (Z.abs (Zneg p))). simpl in *. lia.
Qed.

Lemma clock_reading_bounded (us : Z) : bounded_float 65 (clock_reading us).
Proof.
  unfold clock_reading. apply float_of_ratio_bounded.
  unfold clock_limit. lia.
Qed.

Lemma elapsed_bounded (t0 t1 : Z) : bounded_float 78 (elapsed t0 t1).
Proof.
  unfold elapsed.
  apply (f_mul_thousand_bounded 67); try lia.
  apply (f_sub_bounded 65); try lia; apply clock_reading_bounded.
Qed.

(** The elapsed milliseconds are what [int] makes of the product of floats,
    and [int] does not raise on it. *)
Lemma elapsed_ms_is_int (t0 t1 : Z) :
  py_int_of_float (elapsed t0 t1) = inr (elapsed_ms t0 t1).
Proof.
  unfold py_int_of_float, elapsed_ms.
  pose proof (elapsed_bounded t0 t1) as H.
  destruct (elapsed t0 t1); try contradiction; reflexivity.
Qed.

(** ** The trial runner *)

Section Runner.
Variable costs : Costs.
Variable runner : Runner.

(** A failure of the runner becomes a failed result. *)
Lemma run_trial_call_raises (trial : TrialAssets) (w w1 : World) (e : exn) :
  call runner trial w = (inl e, w1) ->
  run_trial costs runner trial w =
    (inr {| trial_label := label trial;
            tr_condition := condition trial;
            gold := correct_answer trial;
            prediction := None;
            confidence := None;
            reasoning := [];
            latency_ms := Some (elapsed_ms (now w) (now w1));
            success := false;
            error := Some (exn_str e) |}, w1).
Proof.
  intros H. unfold run_trial, bind, try_except, time_time, ret. simpl.
  now rewrite H.
Qed.

(** A reply that is not an object becomes a failed result. *)
Lemma run_trial_not_object (trial : TrialAssets) (w w1 : World) (raw : value) :
  call runner trial w = (inr raw, w1) ->
  not_object raw ->
  exists r w2,
    run_trial costs runner trial w = (inr r, w2)
    /\ trial_label r = label trial
    /\ success r = false /\ prediction r = None
    /\ error r = Some (exn_str (no_attribute raw "get")).
Proof.
  intros H Hraw. unfold run_trial, bind, try_except, time_time, ret, tick, lift.
  simpl. rewrite H. simpl.
  destruct raw; simpl; try (eexists; eexists; repeat split; reflexivity).
  now destruct (Hraw d).
Qed.

(** A reply that is an object, with a confidence that normalises, becomes a
    result without an error. *)
Lemma run_trial_object (trial : TrialAssets) (w w1 : World)
  (d : list (str * value)) (conf : option float) :
  call runner trial w = (inr (VDict d), w1) ->
  (let? c := py_get (VDict d) "confidence" VNone in normalize_confidence c) = inr conf ->
  exists r w2,
    run_trial costs runner trial w = (inr r, w2)
    /\ trial_label r = label trial
    /\ error r = None
    /\ confidence r = conf
    /\ (let? a := py_get (VDict d) "answer" VNone in ok (normalize_answer a))
         = inr (prediction r)
    /\ success r = answer_is_letter (prediction r)
    /\ latency_ms r = Some (elapsed_ms (now w) (now w1)).
Proof.
  intros H Hc. unfold run_trial, bind, try_except, time_time, ret, tick, lift.
  simpl. rewrite H. simpl. simpl in Hc.
  destruct (normalize_confidence _) as [e|c] eqn:E; [discriminate|].
  inversion Hc; subst.
  eexists; eexists; repeat split; reflexivity.
Qed.

(** One trial never raises, and its result carries the trial's label and
    gold answer, a latency, and a prediction only when it succeeded. *)
Lemma run_trial_total (trial : TrialAssets) (w : World) :
  exists r w1,
    run_trial costs runner trial w = (inr r, w1)
    /\ trial_label r = label trial
    /\ gold r = correct_answer trial
    /\ (exists l, latency_ms r = Some l)
    /\ (success r = false -> prediction r = None).
Proof.
  unfold run_trial, bind, try_except, time_time, ret, tick, lift. simpl.
  destruct (call runner trial w) as [[e|raw] w1]; simpl.
  - eexists; eexists; repeat split; simpl; eauto.
  - destruct (py_get raw "answer" VNone) as [e|a] eqn:Ea; simpl;
      [eexists; eexists; repeat split; simpl; eauto|].
    destruct (py_get raw "confidence" VNone) as [e|c] eqn:Ec; simpl;
      [eexists; eexists; repeat split; simpl; eauto|].
    destruct (normalize_confidence c) as [e|conf] eqn:En; simpl;
      [eexists; eexists; repeat split; simpl; eauto|].
    destruct (py_get raw "reasoning" (VStr [])) as [e|r] eqn:Er; simpl;
      [eexists; eexists; repeat split; simpl; eauto|].
    eexists; eexists; repeat split; simpl; eauto.
    apply answer_is_letter_normalize.
Qed.

Lemma run_loop_acc (trials : list TrialAssets) :
  forall (acc : list TrialResult) (w : World),
  exists rs w1,
    run_loop costs runner trials acc w = (inr (acc ++ rs), w1)
    /\ run_loop costs runner trials [] w = (inr rs, w1)
    /\ List.length rs = List.length trials.
Proof.
  induction trials as [|t rest IH]; intros acc w; simpl.
  - exists [], w. unfold ret. rewrite app_nil_r. auto.
  - destruct (run_trial_total t w) as (r & w1 & Hr & _).
    unfold bind. rewrite Hr.
    destruct (IH (acc ++ [r]) w1) as (rs & w2 & H1 & H2 & H3).
    destruct (IH [r] w1) as (rs' & w2' & H1' & H2' & H3').
    rewrite H2 in H2'. inversion H2'; subst rs' w2'.
    exists (r :: rs), w2. rewrite H1, H1'. rewrite <- app_assoc. simpl.
    repeat split; auto.
Qed.

(** The result at index [i] is the result of the trial at index [i], run in
    the world the loop has reached by then. *)
Lemma run_loop_nth (trials : list TrialAssets) :
  forall (w w1 : World) (rs : list TrialResult),
    run_loop costs runner trials [] w = (inr rs, w1) ->
    forall (i : nat) (trial : TrialAssets),
      nth_error trials i = Some trial ->
      exists r w2,
        run_trial costs runner trial (world_before costs runner trials w i)
          = (inr r, w2)
        /\ nth_error rs i = Some r.
Proof.
  induction trials as [|t rest IH]; intros w w1 rs H i trial Hi.
  - destruct i; discriminate.
  - simpl in H. unfold bind in H.
    destruct (run_trial_total t w) as (r & wa & Hr & _).
    rewrite Hr in H.
    destruct (run_loop_acc rest [r] wa) as (rs' & wb & H1 & H2 & _).
    rewrite H1 in H. inversion H; subst rs w1.
    destruct i as [|i]; simpl in Hi.
    + inversion Hi; subst trial. exists r, wa. split; auto.
    + destruct (IH wa wb rs' H2 i trial Hi) as (r' & w2 & Hr' & Hn).
      exists r', w2. split; auto.
      unfold world_before in *. simpl. unfold bind. rewrite Hr.
      destruct (run_loop_acc (firstn i rest) [r] wa)
        as (rs2 & wc & H1c & H2c & _).
      rewrite H1c. rewrite H2c in Hr'. exact Hr'.
Qed.

(** [run_trials] never raises and returns one result per trial. *)
Lemma run_trials_total (run_name : str) (trials : list TrialAssets) (w : World) :
  exists run w1,
    run_trials costs run_name runner trials w = (inr run, w1)
    /\ run_loop costs runner trials [] w = (inr (results run), w1)
    /\ List.length (results run) = List.length trials.
Proof.
  destruct (run_loop_acc trials [] w) as (rs & w1 & H1 & H2 & H3).
  unfold run_trials, bind, ret. rewrite H2.
  eexists; eexists; repeat split; simpl; eauto.
Qed.

End Runner.

(** C1.  [run_trials] never raises: it returns a Model Run with one Trial
    Result per trial, in the order of the trials; and a trial whose runner
    call (the provider invocation and the parsing of its reply) raises is
    recorded as a failed result whose error is the description of the failure
    and whose prediction is absent. *)
Theorem run_trials_records_each_failure (costs : Costs) (run_name : str)
  (runner : Runner) (trials : list TrialAssets) (w : World) :
  exists run w1,
    run_trials costs run_name runner trials w = (inr run, w1)
    /\ List.length (results run) = List.length trials
    /\ map trial_label (results run) = map label trials
    /\ forall (i : nat) (trial : TrialAssets),
         nth_error trials i = Some trial ->
         exists res,
           nth_error (results run) i = Some res
           /\ trial_label res = label trial
           /\ gold res = correct_answer trial
           /\ forall (e : exn) (w2 : World),
                call runner trial (world_before costs runner trials w i) = (inl e, w2) ->
                success res = false
                /\ prediction res = None
                /\ error res = Some (exn_str e).
Proof.
  destruct (run_trials_total costs runner run_name trials w)
    as (run & w1 & Hrun & Hloop & Hlen).
  exists run, w1. split; [exact Hrun|]. split; [exact Hlen|].
  assert (Hnth : forall i trial,
             nth_error trials i = Some trial ->
             exists res,
               nth_error (results run) i = Some res
               /\ trial_label res = label trial
               /\ gold res = correct_answer trial
               /\ forall e w2,
                    call runner trial (world_before costs runner trials w i) = (inl e, w2) ->
                    success res = false /\ prediction res = None
                    /\ error res = Some (exn_str e)).
  { intros i trial Hi.
    destruct (run_loop_nth costs runner trials w w1 (results run) Hloop i trial Hi)
      as (r & w2 & Hr & Hn).
    exists r. split; [exact Hn|].
    destruct (run_trial_total costs runner trial (world_before costs runner trials w i))
      as (r' & w3 & Hr' & Hl & Hg & _).
    rewrite Hr in Hr'. inversion Hr'; subst r' w3.
    repeat split; auto;
      rewrite (run_trial_call_raises costs runner trial _ _ _ H) in Hr;
      inversion Hr; reflexivity. }
  split; [|exact Hnth].
  apply nth_error_ext. intros i.
  rewrite !nth_error_map.
  destruct (nth_error trials i) as [trial|] eqn:Hi.
  - destruct (Hnth i trial Hi) as (res & Hres & Hl & _).
    rewrite Hres. simpl. now rewrite Hl.
  - apply nth_error_None in Hi. rewrite <- Hlen in Hi.
    apply nth_error_None in Hi. now rewrite Hi.
Qed.

Lemma run_trials_records_each_failure_witness :
  exists run w1,
    run_trials ex_costs (lit "m") ex_flaky_runner [ex_trial; ex_trial2] w0 = (inr run, w1)
    /\ List.length (results run) = 2%nat
    /\ map trial_label (results run) = [lit "shapes/t1"; lit "shapes/t2"]
    /\ exists res,
         nth_error (results run) 0 = Some res
         /\ success res = false
         /\ prediction res = None
         /\ error res = Some (lit "Request timed out.").
Proof.
  destruct (run_trials_records_each_failure ex_costs (lit "m") ex_flaky_runner
              [ex_trial; ex_trial2] w0)
    as (run & w1 & Hrun & Hlen & Hmap & Hnth).
  exists run, w1. repeat split; try assumption.
  destruct (Hnth 0%nat ex_trial eq_refl) as (res & Hres & _ & _ & Hfail).
  exists res. split; [exact Hres|].
  apply (Hfail timeout_error w0). reflexivity.
Defined.

(** C10.  A reply that parses to JSON which is not an object is recorded as a
    failed result: no success, no prediction, and as error the description of
    the failure of [raw.get]; the run still returns one result per trial.
    The parse step itself returns arrays, numbers and strings as they are. *)
Theorem non_object_reply_is_recorded_as_failure (costs : Costs) (run_name : str)
  (runner : Runner) (trials : list TrialAssets) (w w2 : World) (i : nat)
  (trial : TrialAssets) (raw : value) :
  nth_error trials i = Some trial ->
  call runner trial (world_before costs runner trials w i) = (inr raw, w2) ->
  not_object raw ->
  (exists run w1,
     run_trials costs run_name runner trials w = (inr run, w1)
     /\ List.length (results run) = List.length trials
     /\ exists res,
          nth_error (results run) i = Some res
          /\ success res = false
          /\ prediction res = None
          /\ error res = Some (exn_str (no_attribute raw "get")))
  /\ parse_json_response (lit "[1, 2]") = inr (VList [VInt 1; VInt 2])
  /\ parse_json_response (lit "7") = inr (VInt 7)
  /\ parse_json_response (jlit "'A'") = inr (VStr (lit "A")).
Proof.
  intros Hi Hcall Hraw. split; [|repeat split; vm_compute; reflexivity].
  destruct (run_trials_total costs runner run_name trials w)
    as (run & w1 & Hrun & Hloop & Hlen).
  exists run, w1. repeat split; auto.
  destruct (run_loop_nth costs runner trials w w1 (results run) Hloop i trial Hi)
    as (r & w3 & Hr & Hn).
  destruct (run_trial_not_object costs runner trial _ _ raw Hcall Hraw)
    as (r' & w4 & Hr' & _ & Hs & Hp & He).
  rewrite Hr in Hr'. inversion Hr'; subst r' w4.
  exists r. auto.
Qed.

Lemma non_object_reply_witness :
  (exists run w1,
     run_trials ex_costs (lit "m") (runner_returning (VList [VInt 1]))
       [ex_trial; ex_trial2] w0 = (inr run, w1)
     /\ List.length (results run) = List.length [ex_trial; ex_trial2]
     /\ exists res,
          nth_error (results run) 1 = Some res
          /\ success res = false
          /\ prediction res = None
          /\ error res = Some (exn_str (no_attribute (VList [VInt 1]) "get")))
  /\ parse_json_response (lit "[1, 2]") = inr (VList [VInt 1; VInt 2])
  /\ parse_json_response (lit "7") = inr (VInt 7)
  /\ parse_json_response (jlit "'A'") = inr (VStr (lit "A")).
Proof.
  apply (non_object_reply_is_recorded_as_failure ex_costs (lit "m")
           (runner_returning (VList [VInt 1])) [ex_trial; ex_trial2] w0
           {| now := 7000; calls := [] |} 1 ex_trial2 (VList [VInt 1])).
  - reflexivity.
  - reflexivity.
  - intros d H. discriminate H.
Defined.

(** C6, as stated, fails: the provider answers and the reply [[]] parses, no
    letter is found, and yet the result carries an error. *)
Lemma error_present_without_call_or_parse_failure :
  let runner := openai_runner ex_costs (ex_adapter (provider_replying (lit "[]")) true) in
  exists raw w1 run w2 res,
    call runner ex_trial w0 = (inr raw, w1)
    /\ run_trials ex_costs (lit "m") runner [ex_trial] w0 = (inr run, w2)
    /\ results run = [res]
    /\ success res = false
    /\ error res = Some (lit "'list' object has no attribute 'get'").
Proof.
  do 5 eexists. repeat split; vm_compute; reflexivity.
Qed.

(** C6, amended.  Every result of [run_trials] satisfies: [is_correct] is
    [success] and [prediction == gold]; without success there is no
    prediction; the error is present when the runner call (provider call and
    parsing) raised, and also when the parsed reply is not a JSON object; it
    is absent when the reply is an object whose confidence normalises, and
    such a reply without a valid letter has no success. *)
Theorem trial_result_invariants (costs : Costs) (run_name : str)
  (runner : Runner) (trials : list TrialAssets) (w : World) :
  exists run w1,
    run_trials costs run_name runner trials w = (inr run, w1)
    /\ forall (i : nat) (trial : TrialAssets),
         nth_error trials i = Some trial ->
         exists res,
           nth_error (results run) i = Some res
           /\ is_correct res = (success res && opt_str_eqb (prediction res) (gold res))
           /\ (success res = false -> prediction res = None)
           /\ (forall e w2,
                 call runner trial (world_before costs runner trials w i) = (inl e, w2) ->
                 error res = Some (exn_str e))
           /\ (forall raw w2,
                 call runner trial (world_before costs runner trials w i) = (inr raw, w2) ->
                 not_object raw ->
                 error res = Some (exn_str (no_attribute raw "get")))
           /\ (forall d w2 conf,
                 call runner trial (world_before costs runner trials w i)
                   = (inr (VDict d), w2) ->
                 reply_confidence d = inr conf ->
                 error res = None
                 /\ (prediction res = None -> success res = false)).
Proof.
  destruct (run_trials_total costs runner run_name trials w)
    as (run & w1 & Hrun & Hloop & Hlen).
  exists run, w1. split; [exact Hrun|]. intros i trial Hi.
  destruct (run_loop_nth costs runner trials w w1 (results run) Hloop i trial Hi)
    as (r & w3 & Hr & Hn).
  exists r. split; [exact Hn|]. split; [reflexivity|].
  destruct (run_trial_total costs runner trial (world_before costs runner trials w i))
    as (r' & w4 & Hr' & _ & _ & _ & Hsp).
  rewrite Hr in Hr'. inversion Hr'; subst r' w4.
  split; [exact Hsp|]. split; [|split].
  - intros e w2 Hcall.
    rewrite (run_trial_call_raises costs runner trial _ _ _ Hcall) in Hr.
    inversion Hr. reflexivity.
  - intros raw w2 Hcall Hraw.
    destruct (run_trial_not_object costs runner trial _ _ raw Hcall Hraw)
      as (ra & wa & Ha & _ & _ & _ & He).
    rewrite Hr in Ha. inversion Ha; subst ra wa. exact He.
  - intros d w2 conf Hcall Hconf.
    destruct (run_trial_object costs runner trial _ _ d conf Hcall Hconf)
      as (rb & wb & Hb & _ & He & _ & _ & Hs & _).
    rewrite Hr in Hb. inversion Hb; subst rb wb.
    split; [exact He|]. intros Hp. rewrite Hs, Hp. reflexivity.
Qed.

Lemma trial_result_invariants_witness :
  exists run w1,
    run_trials ex_costs (lit "m") ex_flaky_runner [ex_trial; ex_trial2] w0 = (inr run, w1)
    /\ (exists res,
          nth_error (results run) 0 = Some res
          /\ error res = Some (lit "Request timed out."))
    /\ (exists res,
          nth_error (results run) 1 = Some res
          /\ error res = None).
Proof.
  destruct (trial_result_invariants ex_costs (lit "m") ex_flaky_runner
              [ex_trial; ex_trial2] w0)
    as (run & w1 & Hrun & Hnth).
  exists run, w1. split; [exact Hrun|]. split.
  - destruct (Hnth 0%nat ex_trial eq_refl) as (res & Hres & _ & _ & Hraise & _).
    exists res. split; [exact Hres|].
    apply (Hraise timeout_error w0). reflexivity.
  - destruct (Hnth 1%nat ex_trial2 eq_refl) as (res & Hres & _ & _ & _ & _ & Hobj).
    exists res. split; [exact Hres|].
    apply (Hobj [(lit "answer", VStr (lit "a")); (lit "confidence", VInt 87)] w0
             (Some (float_of_Z 87))); reflexivity.
Defined.

(** A reply with a lower-case letter: the prediction is the letter in upper
    case, the confidence a float, and the result is a success and correct. *)
Lemma scenario_lowercase_answer :
  let reply := jlit "{'answer':'b','confidence':87,'reasoning':'ok'}" in
  let runner := openai_runner ex_costs (ex_adapter (provider_replying reply) true) in
  exists res w1,
    run_trial ex_costs runner ex_trial w0 = (inr res, w1)
    /\ prediction res = Some (lit "B")
    /\ confidence res = Some (float_of_Z 87)
    /\ reasoning res = lit "ok"
    /\ success res = true /\ is_correct res = true /\ error res = None.
Proof.
  do 2 eexists. repeat split; vm_compute; reflexivity.
Qed.

(** A reply that is no JSON: the result carries the parser's description. *)
Lemma scenario_reply_without_json :
  let reply := lit "I think it's A because it fits" in
  let runner := openai_runner ex_costs (ex_adapter (provider_replying reply) true) in
  exists res w1,
    run_trial ex_costs runner ex_trial w0 = (inr res, w1)
    /\ prediction res = None /\ success res = false
    /\ error res = Some (lit "Expecting value: line 1 column 1 (char 0)").
Proof.
  do 2 eexists. repeat split; vm_compute; reflexivity.
Qed.

(** A run with three results, two of them correct, and the confidences 80,
    none and 60. *)
Lemma scenario_run_summary :
  let run :=
    ex_run [ ex_result "A" (Some (lit "A")) (Some (float_of_Z 80));
             ex_result "B" (Some (lit "B")) None;
             ex_result "C" (Some (lit "A")) (Some (float_of_Z 60)) ] in
  format_pct1 (accuracy run) = lit "66.7%"
  /\ option_map format_1f (avg_confidence run) = Some (lit "70.0").
Proof.
  split; vm_compute; reflexivity.
Qed.

(** ** Confidence *)

Lemma f_ltb_leb (a b : float) : f_ltb a b = true -> f_leb a b = true.
Proof.
  unfold f_ltb, f_leb, SFltb, SFleb.
  destruct (SFcompare a b) as [[]|]; auto.
Qed.

(** The clamp lands in [0, 100], whatever the float (not-a-number included). *)
Lemma clamp_range (num : float) :
  let r := py_max f_zero (py_min f_hundred num) in
  f_leb f_zero r = true /\ f_leb r f_hundred = true.
Proof.
  unfold py_max, py_min.
  destruct (f_ltb num f_hundred) eqn:E1.
  - destruct (f_ltb f_zero num) eqn:E2.
    + split; now apply f_ltb_leb.
    + split; reflexivity.
  - split; reflexivity.
Qed.

Lemma clamp_idempotent (num : float) :
  let r := py_max f_zero (py_min f_hundred num) in
  py_max f_zero (py_min f_hundred r) = r.
Proof.
  unfold py_max, py_min.
  destruct (f_ltb num f_hundred) eqn:E1.
  - destruct (f_ltb f_zero num) eqn:E2.
    + now rewrite E1, E2.
    + reflexivity.
  - reflexivity.
Qed.

(** A confidence that is present lies in [0, 100]. *)
Lemma normalize_confidence_range (v : value) (r : float) :
  normalize_confidence v = inr (Some r) ->
  f_leb f_zero r = true /\ f_leb r f_hundred = true.
Proof.
  unfold normalize_confidence. intros H.
  destruct v; try discriminate;
    match type of H with
    | context [py_float ?x] => destruct (py_float x) as [e|num]
    end;
    try (destruct (is_type_or_value_error e); discriminate);
    inversion H; apply clamp_range.
Qed.

(** Normalising a present confidence again returns it unchanged. *)
Lemma normalize_confidence_idempotent (v : value) (r : float) :
  normalize_confidence v = inr (Some r) ->
  normalize_confidence (VFloat r) = inr (Some r).
Proof.
  unfold normalize_confidence at 1. intros H.
  assert (Hc : exists num, r = py_max f_zero (py_min f_hundred num)).
  { destruct v; try discriminate;
      match type of H with
      | context [py_float ?x] => destruct (py_float x) as [e|num]
      end;
      try (destruct (is_type_or_value_error e); discriminate);
      inversion H; eauto. }
  destruct Hc as (num & ->). simpl. unfold ok.
  now rewrite clamp_idempotent.
Qed.

(** Input that is no number yields no confidence. *)
Lemma normalize_confidence_non_numeric (v : value) :
  match v with
  | VNone | VList _ | VDict _ => True
  | VStr s => float_of_str s = None
  | _ => False
  end ->
  normalize_confidence v = inr None.
Proof.
  destruct v; simpl; intros H; try reflexivity; try contradiction.
  unfold normalize_confidence, py_float. now rewrite H.
Qed.

(** The only failure of [normalize_confidence] is the overflow of an integer
    beyond the range of a float. *)
Lemma normalize_confidence_raises_only_overflow (v : value) (e : exn) :
  normalize_confidence v = inl e ->
  exists z, v = VInt z /\ is_finite (float_of_Z z) = false
            /\ exn_class_of e = OverflowError.
Proof.
  unfold normalize_confidence. destruct v; simpl; try discriminate.
  - destruct (is_finite (float_of_Z z)) eqn:E; simpl; try discriminate.
    intros H. inversion H. eauto.
  - destruct (float_of_str s); simpl; discriminate.
Qed.

(** C2.  [normalize_confidence] raises on an integer beyond the range of a
    float: [float(val)] raises [OverflowError], which the handler for
    [TypeError] and [ValueError] lets through.  [json.loads] produces such
    an integer from a reply. *)
Theorem normalize_confidence_raises_on_huge_int :
  json_loads (ch "1" :: zeros 400) = inr (VInt huge_int)
  /\ normalize_confidence (VInt huge_int)
     = inl (Exn OverflowError (lit "int too large to convert to float")).
Proof.
  split; vm_compute; reflexivity.
Qed.

(** ** The chat-completions adapter *)

Section Adapter.
Variable costs : Costs.
Variable self : OpenAIStyleRunner.
Variable trial : TrialAssets.
Variable content : list Part.
Hypothesis Hcontent : build_openai_content trial = inr content.

Let params : Request := request_of self content.

(** The world after the request was built. *)
Let built (w : World) : World :=
  {| now := now w + build_cost costs trial; calls := calls w |}.

(** The world after the call of [params] in [w]. *)
Let called (req : Request) (w : World) : World :=
  {| now := now w + duration (client self) (calls w) req;
     calls := calls w ++ [req] |}.

(** What the adapter does with a completion. *)
Let finish (resp : Response) : M value :=
  message <-
    lift match choices resp with
         | m :: _ => ok m
         | [] => raise (Exn IndexError (lit "list index out of range"))
         end ;;
  tick (parse_cost costs message) ;;;
  match message with
  | Some text => lift (parse_json_response text)
  | None => throw (no_attribute VNone "strip")
  end.

(** A first call that succeeds is the only call. *)
Lemma adapter_first_call_succeeds (w : World) (resp : Response) :
  respond (client self) (calls w) params = inr resp ->
  OpenAIStyleRunner_call costs self trial w = finish resp (called params (built w)).
Proof.
  intros H. unfold params, request_of in *.
  unfold OpenAIStyleRunner_call, bind, tick, lift, try_except, create.
  rewrite Hcontent. simpl. rewrite H. reflexivity.
Qed.

(** With structured mode disabled, a failure is passed on at once. *)
Lemma adapter_plain_failure (w : World) (e : exn) :
  json_mode self = false ->
  respond (client self) (calls w) params = inl e ->
  OpenAIStyleRunner_call costs self trial w = (inl e, called params (built w)).
Proof.
  intros Hm H. unfold params, request_of in *.
  unfold OpenAIStyleRunner_call, bind, tick, lift, try_except, create.
  rewrite Hcontent. simpl. rewrite H, Hm. reflexivity.
Qed.

(** With structured mode enabled, any failure is followed by one call
    without it, whose outcome is the outcome of the adapter. *)
Lemma adapter_retry (w : World) (e : exn) :
  json_mode self = true ->
  respond (client self) (calls w) params = inl e ->
  OpenAIStyleRunner_call costs self trial w =
    let w1 := called params (built w) in
    let w2 := called (pop_response_format params) w1 in
    match respond (client self) (calls w1) (pop_response_format params) with
    | inr resp => finish resp w2
    | inl e2 => (inl e2, w2)
    end.
Proof.
  intros Hm H. unfold params, request_of in *.
  unfold OpenAIStyleRunner_call, bind, tick, lift, try_except, create.
  rewrite Hcontent. simpl. rewrite H, Hm. simpl.
  match goal with
  | |- context [respond ?c ?h ?r] => destruct (respond c h r)
  end; reflexivity.
Qed.

(** What follows a completion makes no call. *)
Lemma finish_calls (resp : Response) (w : World) :
  calls (snd (finish resp w)) = calls w.
Proof.
  unfold finish, bind, lift, tick, throw.
  destruct (choices resp) as [|[text|] rest]; simpl; reflexivity.
Qed.

(** A reply that parses: the clock has advanced by the time of parsing. *)
Lemma finish_parses (resp : Response) (w : World) (text : str)
  (rest : list (option str)) :
  choices resp = Some text :: rest ->
  finish resp w =
    (parse_json_response text,
     {| now := now w + parse_cost costs (Some text); calls := calls w |}).
Proof.
  intros H. unfold finish, bind, lift, tick. rewrite H. simpl.
  destruct (parse_json_response text); reflexivity.
Qed.

End Adapter.

(** C9, as stated, fails: a timeout is no rejection of the request mode, and
    the adapter still calls the provider a second time, without the mode. *)
Lemma timeout_is_retried_without_json_mode :
  exists w1,
    OpenAIStyleRunner_call ex_costs (ex_adapter provider_timing_out true) ex_trial w0
      = (inl timeout_error, w1)
    /\ map req_json_object (calls w1) = [true; false].
Proof.
  eexists. split; vm_compute; reflexivity.
Qed.

(** C9, amended.  With structured mode enabled, a failure of the provider
    call, whatever it is, is followed by exactly one more call with the mode
    disabled and the request otherwise unchanged, and a failure of that call
    is passed on; with the mode disabled a failure is passed on at once,
    after the single call; a first call that succeeds is the only call. *)
Theorem adapter_retries_once_after_any_failure (costs : Costs)
  (self : OpenAIStyleRunner) (trial : TrialAssets) (content : list Part)
  (w : World) :
  build_openai_content trial = inr content ->
  let params := request_of self content in
  let outcome := OpenAIStyleRunner_call costs self trial w in
  (forall resp,
     respond (client self) (calls w) params = inr resp ->
     calls (snd outcome) = calls w ++ [params])
  /\ (json_mode self = false ->
      forall e,
        respond (client self) (calls w) params = inl e ->
        fst outcome = inl e /\ calls (snd outcome) = calls w ++ [params])
  /\ (json_mode self = true ->
      forall e,
        respond (client self) (calls w) params = inl e ->
        calls (snd outcome) = calls w ++ [params; pop_response_format params]
        /\ req_json_object (pop_response_format params) = false
        /\ forall e2,
             respond (client self) (calls w ++ [params]) (pop_response_format params)
               = inl e2 ->
             fst outcome = inl e2).
Proof.
  intros Hc params outcome. subst outcome. split; [|split].
  - intros resp H.
    rewrite (adapter_first_call_succeeds costs self trial content Hc w resp H).
    rewrite finish_calls. reflexivity.
  - intros Hm e H.
    rewrite (adapter_plain_failure costs self trial content Hc w e Hm H).
    split; reflexivity.
  - intros Hm e H.
    rewrite (adapter_retry costs self trial content Hc w e Hm H). simpl.
    fold params.
    destruct (respond (client self) (calls w ++ [params]) (pop_response_format params))
      as [e2|resp] eqn:E.
    + simpl. rewrite <- app_assoc. repeat split. intros e3 H3. congruence.
    + rewrite finish_calls. simpl. rewrite <- app_assoc. repeat split.
      intros e3 H3. discriminate.
Qed.

Lemma adapter_retries_once_witness :
  let self := ex_adapter (provider_rejecting_json (jlit "{'answer': 'B'}")) true in
  map req_json_object (calls (snd (OpenAIStyleRunner_call ex_costs self ex_trial w0)))
  = [true; false].
Proof.
  intros self.
  pose (content := match build_openai_content ex_trial with inr c => c | inl _ => [] end).
  destruct (adapter_retries_once_after_any_failure ex_costs self ex_trial content w0 eq_refl)
    as (_ & _ & Hretry).
  destruct (Hretry eq_refl mode_rejected eq_refl) as (Hcalls & _).
  rewrite Hcalls. reflexivity.
Defined.

(** ** Latency *)

(** C7, as stated, fails: the provider call takes 2000 ms and the parsing of
    its reply 5 ms; the latency recorded is 2005 ms, parsing included (and the
    7 ms of normalisation excluded). *)
Lemma latency_includes_parsing :
  let pv := provider_replying (jlit "{'answer': 'b', 'confidence': 87}") in
  let runner := openai_runner ex_costs (ex_adapter pv true) in
  exists res w1 req,
    run_trial ex_costs runner ex_trial w0 = (inr res, w1)
    /\ calls w1 = [req]
    /\ duration pv [] req = 2000 * 1000
    /\ success res = true
    /\ latency_ms res = Some 2005.
Proof.
  do 3 eexists. repeat split; vm_compute; reflexivity.
Qed.

(** The latency is the product of two floats, cut to an integer: a second
    and five thousandths between the readings are 1004 ms, and a thousandth
    of a second late in the epoch is no millisecond at all. *)
Lemma elapsed_ms_rounds_in_floating_point :
  elapsed_ms 0 1005000 = 1004
  /\ elapsed_ms 1700000000250000 1700000000251000 = 0
  /\ elapsed_ms 0 2005000 = 2005.
Proof.
  repeat split; vm_compute; reflexivity.
Qed.

(** When the runner has returned and the result yet carries an error, the
    normalisation has raised: the latency was taken again in the handler, and
    the time of the normalisation is part of it. *)
Lemma run_trial_normalisation_raises (costs : Costs) (runner : Runner)
  (trial : TrialAssets) (w w1 w2 : World) (raw : value) (res : TrialResult) :
  run_trial costs runner trial w = (inr res, w1) ->
  call runner trial w = (inr raw, w2) ->
  error res <> None ->
  latency_ms res = Some (elapsed_ms (now w) (now w2 + normalize_cost costs raw))
  /\ now w1 = now w2 + normalize_cost costs raw.
Proof.
  intros Hr Hcall Herr. revert Hr.
  unfold run_trial, bind, try_except, time_time, ret, tick, lift. simpl.
  rewrite Hcall. simpl.
  destruct (py_get raw "answer" VNone) as [e|a]; simpl;
    [intros Hr; inversion Hr; split; reflexivity|].
  destruct (py_get raw "confidence" VNone) as [e|c]; simpl;
    [intros Hr; inversion Hr; split; reflexivity|].
  destruct (normalize_confidence c) as [e|conf]; simpl;
    [intros Hr; inversion Hr; split; reflexivity|].
  destruct (py_get raw "reasoning" (VStr [])) as [e|r]; simpl;
    [intros Hr; inversion Hr; split; reflexivity|].
  intros Hr. inversion Hr; subst res. now destruct Herr.
Qed.

(** C7, amended.  The latency is [int((t1 - t0) * 1000)] of two readings of
    the clock, computed in floating point, and that conversion never raises.
    The first reading is taken at the start of the trial; the second when the
    runner has returned, whatever the runner, so that the time the
    normalisation takes passes after the latency was taken; on the failure
    path the second reading is taken in the handler, after the runner has
    raised or, when the normalisation has raised, after the normalisation.
    For the chat-completions adapter the runner call is building the request,
    the provider call, with structured mode enabled and a first call that
    fails the second provider call too, and the parsing of the reply. *)
Theorem latency_spans_the_adapter_call (costs : Costs) (self : OpenAIStyleRunner)
  (trial : TrialAssets) (content : list Part) (w : World) :
  build_openai_content trial = inr content ->
  let params := request_of self content in
  let retry := pop_response_format params in
  let adapter := openai_runner costs self in
  (forall t0 t1,
     py_int_of_float
       (f_mul (f_sub (clock_reading t1) (clock_reading t0)) f_thousand)
     = inr (elapsed_ms t0 t1))
  /\ (forall runner,
      exists res w1,
        run_trial costs runner trial w = (inr res, w1)
        /\ (exists ms, latency_ms res = Some ms)
        /\ (forall e w2,
              call runner trial w = (inl e, w2) ->
              latency_ms res = Some (elapsed_ms (now w) (now w2)))
        /\ (forall d conf w2,
              call runner trial w = (inr (VDict d), w2) ->
              reply_confidence d = inr conf ->
              latency_ms res = Some (elapsed_ms (now w) (now w2))
              /\ now w1 = now w2 + normalize_cost costs (VDict d))
        /\ (forall raw w2,
              call runner trial w = (inr raw, w2) ->
              (error res = None ->
               latency_ms res = Some (elapsed_ms (now w) (now w2)))
              /\ (error res <> None ->
                  latency_ms res
                  = Some (elapsed_ms (now w) (now w2 + normalize_cost costs raw)))))
  /\ (forall resp text rest,
        respond (client self) (calls w) params = inr resp ->
        choices resp = Some text :: rest ->
        exists w2,
          call adapter trial w = (parse_json_response text, w2)
          /\ now w2 = now w + build_cost costs trial
                      + duration (client self) (calls w) params
                      + parse_cost costs (Some text))
  /\ (json_mode self = false ->
      forall e,
        respond (client self) (calls w) params = inl e ->
        exists w2,
          call adapter trial w = (inl e, w2)
          /\ now w2 = now w + build_cost costs trial
                      + duration (client self) (calls w) params)
  /\ (json_mode self = true ->
      forall e,
        respond (client self) (calls w) params = inl e ->
        (forall resp text rest,
           respond (client self) (calls w ++ [params]) retry = inr resp ->
           choices resp = Some text :: rest ->
           exists w2,
             call adapter trial w = (parse_json_response text, w2)
             /\ now w2 = now w + build_cost costs trial
                         + duration (client self) (calls w) params
                         + duration (client self) (calls w ++ [params]) retry
                         + parse_cost costs (Some text))
        /\ (forall e2,
              respond (client self) (calls w ++ [params]) retry = inl e2 ->
              exists w2,
                call adapter trial w = (inl e2, w2)
                /\ now w2 = now w + build_cost costs trial
                            + duration (client self) (calls w) params
                            + duration (client self) (calls w ++ [params]) retry)).
Proof.
  intros Hc params retry adapter. split; [|split; [|split; [|split]]].
  - intros t0 t1. apply elapsed_ms_is_int.
  - intros runner.
    destruct (run_trial_total costs runner trial w) as (res & w1 & Hr & _ & _ & Hl & _).
    exists res, w1. split; [exact Hr|]. split; [exact Hl|]. split; [|split].
    + intros e w2 Hcall.
      rewrite (run_trial_call_raises costs runner trial _ _ _ Hcall) in Hr.
      inversion Hr. reflexivity.
    + intros d conf w2 Hcall Hconf.
      destruct (run_trial_object costs runner trial _ _ d conf Hcall Hconf)
        as (ra & wa & Ha & _ & _ & _ & _ & _ & Hlat).
      rewrite Hr in Ha. inversion Ha; subst ra wa.
      split; [exact Hlat|].
      revert Hr. unfold run_trial, bind, try_except, time_time, ret, tick, lift.
      simpl. rewrite Hcall. simpl. unfold reply_confidence in Hconf. simpl in Hconf.
      rewrite Hconf. simpl. intros Hr. inversion Hr. reflexivity.
    + intros raw w2 Hcall. split.
      * intros Herr. revert Hr Herr.
        unfold run_trial, bind, try_except, time_time, ret, tick, lift. simpl.
        rewrite Hcall. simpl.
        destruct (py_get raw "answer" VNone) as [e|a]; simpl;
          [intros Hr; inversion Hr; discriminate|].
        destruct (py_get raw "confidence" VNone) as [e|c]; simpl;
          [intros Hr; inversion Hr; discriminate|].
        destruct (normalize_confidence c) as [e|conf]; simpl;
          [intros Hr; inversion Hr; discriminate|].
        destruct (py_get raw "reasoning" (VStr [])) as [e|r]; simpl;
          [intros Hr; inversion Hr; discriminate|].
        intros Hr. inversion Hr. reflexivity.
      * intros Herr.
        apply (run_trial_normalisation_raises costs runner trial w w1 w2 raw res
                 Hr Hcall Herr).
  - intros resp text rest H Hch. eexists. split.
    + simpl. rewrite (adapter_first_call_succeeds costs self trial content Hc w resp H).
      rewrite (finish_parses costs resp _ text rest Hch). reflexivity.
    + reflexivity.
  - intros Hm e H. eexists. split.
    + simpl. rewrite (adapter_plain_failure costs self trial content Hc w e Hm H).
      reflexivity.
    + reflexivity.
  - intros Hm e H. split.
    + intros resp text rest H2 Hch. eexists. split.
      * simpl. rewrite (adapter_retry costs self trial content Hc w e Hm H). simpl.
        fold params. fold retry. rewrite H2.
        rewrite (finish_parses costs resp _ text rest Hch). reflexivity.
      * simpl. ring.
    + intros e2 H2. eexists. split.
      * simpl. rewrite (adapter_retry costs self trial content Hc w e Hm H). simpl.
        fold params. fold retry. rewrite H2. reflexivity.
      * simpl. ring.
Qed.

Lemma latency_spans_the_adapter_call_witness :
  let self := ex_adapter (provider_replying (jlit "{'answer': 'b', 'confidence': 87}")) true in
  exists res w1,
    run_trial ex_costs (openai_runner ex_costs self) ex_trial w0 = (inr res, w1)
    /\ latency_ms res = Some 2005
    /\ now w1 = 0 + 2000000 + 5000 + 7000.
Proof.
  intros self.
  pose (content := match build_openai_content ex_trial with inr c => c | inl _ => [] end).
  destruct (latency_spans_the_adapter_call ex_costs self ex_trial content w0 eq_refl)
    as (_ & Hrun & Hcall & _).
  destruct (Hcall {| choices := [Some (jlit "{'answer': 'b', 'confidence': 87}")] |}
              (jlit "{'answer': 'b', 'confidence': 87}") [] eq_refl eq_refl)
    as (w2 & Hw2 & Hnow).
  destruct (Hrun (openai_runner ex_costs self)) as (res & w1 & Hr & _ & _ & Hobj & _).
  exists res, w1. split; [exact Hr|].
  destruct (Hobj [(lit "answer", VStr (lit "b")); (lit "confidence", VInt 87)]
              (Some (float_of_Z 87)) w2 Hw2 eq_refl)
    as (Hlat & Hn).
  rewrite Hlat, Hn, Hnow. split; reflexivity.
Defined.

(** ** The trial loader *)

Lemma insert_path_In (p x : path) (l : list path) :
  In p (insert_path x l) <-> p = x \/ In p l.
Proof.
  induction l as [|y l IH]; simpl.
  - intuition.
  - destruct (path_ltb x y); simpl; rewrite ?IH; intuition.
Qed.

Lemma sorted_In (p : path) (l : list path) : In p (sorted l) <-> In p l.
Proof.
  unfold sorted.
  assert (H : forall acc, In p (fold_left (fun a x => insert_path x a) l acc)
                          <-> In p l \/ In p acc).
  { induction l as [|x l IH]; intros acc; simpl.
    - intuition.
    - rewrite IH, insert_path_In. intuition. }
  rewrite H. simpl. intuition.
Qed.

Ltac step_result H :=
  match type of H with
  | context [rbind ?m _] =>
      let E := fresh "E" in
      destruct m eqn:E; simpl in H; try discriminate H
  end.




Section Loader.
Variable fs : FileSystem.

Lemma discover_loop_Forall (P : TrialAssets -> Prop) (max_trials : option Z) :
  forall (meta_files : list path) (acc trials : list TrialAssets),
    (forall p t, In p meta_files -> load_trial fs p = inr t -> P t) ->
    Forall P acc ->
    discover_loop fs max_trials meta_files acc = inr trials ->
    Forall P trials.
Proof.
  induction meta_files as [|f rest IH]; intros acc trials Hload Hacc H; simpl in H.
  - inversion H; subst; exact Hacc.
  - destruct (load_trial fs f) as [e|t] eqn:Et; simpl in H; [discriminate|].
    assert (Hacc' : Forall P (acc ++ [t])).
    { apply Forall_app. split; auto. constructor; auto.
      apply (Hload f); simpl; auto. }
    destruct (cap_reached max_trials (acc ++ [t])).
    + inversion H; subst; exact Hacc'.
    + apply (IH (acc ++ [t])); auto.
      intros p t' Hp. apply Hload. simpl; auto.
Qed.

Lemma discover_loop_raises_uncapped (p : path) (e : exn) :
  load_trial fs p = inl e ->
  forall (meta_files : list path) (acc : list TrialAssets),
    In p meta_files ->
    exists e', discover_loop fs None meta_files acc = inl e'.
Proof.
  intros Hp. induction meta_files as [|f rest IH]; intros acc Hin; simpl.
  - destruct Hin.
  - destruct (load_trial fs f) as [e'|t] eqn:Et; simpl; eauto.
    destruct Hin as [->|Hin]; [congruence|].
    apply IH. exact Hin.
Qed.

Lemma discover_loop_raises_capped (p : path) (e : exn) (n : Z) :
  load_trial fs p = inl e ->
  forall (meta_files : list path) (acc : list TrialAssets),
    In p (firstn (Z.to_nat (Z.max 1 (n - Z.of_nat (List.length acc)))) meta_files) ->
    exists e', discover_loop fs (Some n) meta_files acc = inl e'.
Proof.
  intros Hp. induction meta_files as [|f rest IH]; intros acc Hin.
  - rewrite firstn_nil in Hin. destruct Hin.
  - simpl. destruct (load_trial fs f) as [e'|t] eqn:Et; simpl; eauto.
    remember (Z.to_nat (Z.max 1 (n - Z.of_nat (List.length acc)))) as k eqn:Hk.
    destruct k as [|k]; [lia|]. simpl in Hin.
    destruct Hin as [->|Hin]; [congruence|].
    destruct k as [|k]; [destruct Hin|].
    assert (Hn : n - Z.of_nat (List.length acc) >= 2) by lia.
    rewrite length_app. simpl.
    replace (n <=? Z.of_nat (List.length acc + 1)) with false
      by (symmetry; apply Z.leb_gt; lia).
    apply IH. rewrite length_app. simpl.
    replace (Z.to_nat (Z.max 1 (n - Z.of_nat (List.length acc + 1)))) with (S k) by lia.
    exact Hin.
Qed.

End Loader.

(** ** The order of the metadata files *)

Section Lex.
Context {A : Type}.
Variable ltb : A -> A -> bool.
Hypothesis ltb_irrefl : forall x, ltb x x = false.
Hypothesis ltb_trans : forall x y z, ltb x y = true -> ltb y z = true -> ltb x z = true.
Hypothesis ltb_total : forall x y, ltb x y = true \/ x = y \/ ltb y x = true.

Lemma ltb_asym (x y : A) : ltb x y = true -> ltb y x = false.
Proof.
  intros H. destruct (ltb y x) eqn:E; auto.
  rewrite <- (ltb_irrefl x). symmetry. eapply ltb_trans; eauto.
Qed.

Lemma lex_irrefl (a : list A) : lex_ltb ltb a a = false.
Proof.
  induction a as [|x a IH]; simpl; auto. now rewrite ltb_irrefl.
Qed.

Lemma lex_total (a : list A) :
  forall b, lex_ltb ltb a b = true \/ a = b \/ lex_ltb ltb b a = true.
Proof.
  induction a as [|x a IH]; intros [|y b]; simpl; auto.
  destruct (ltb_total x y) as [H|[->|H]].
  - rewrite H. auto.
  - rewrite ltb_irrefl. destruct (IH b) as [Hl|[->|Hl]]; auto.
  - rewrite H, (ltb_asym y x H). auto.
Qed.

Lemma lex_trans (a : list A) :
  forall b c, lex_ltb ltb a b = true -> lex_ltb ltb b c = true -> lex_ltb ltb a c = true.
Proof.
  induction a as [|x a IH]; intros [|y b] [|z c] Hab Hbc; simpl in *;
    try discriminate; auto.
  destruct (ltb x y) eqn:Exy.
  - destruct (ltb y z) eqn:Eyz.
    + now rewrite (ltb_trans x y z Exy Eyz).
    + destruct (ltb z y) eqn:Ezy; [discriminate|].
      destruct (ltb_total y z) as [H|[->|H]]; try congruence.
      now rewrite Exy.
  - destruct (ltb y x) eqn:Eyx; [discriminate|].
    destruct (ltb_total x y) as [H|[->|H]]; try congruence.
    destruct (ltb y z) eqn:Eyz; auto.
    destruct (ltb z y) eqn:Ezy; [discriminate|].
    eapply IH; eauto.
Qed.

End Lex.

Lemma str_ltb_irrefl (a : str) : str_ltb a a = false.
Proof. apply lex_irrefl, N.ltb_irrefl. Qed.

Lemma N_ltb_trans (x y z : N) :
  N.ltb x y = true -> N.ltb y z = true -> N.ltb x z = true.
Proof. rewrite !N.ltb_lt. apply N.lt_trans. Qed.

Lemma N_ltb_total (x y : N) : N.ltb x y = true \/ x = y \/ N.ltb y x = true.
Proof. rewrite !N.ltb_lt. apply N.lt_trichotomy. Qed.

Lemma str_ltb_trans (a b c : str) :
  str_ltb a b = true -> str_ltb b c = true -> str_ltb a c = true.
Proof.
  apply lex_trans; first [apply N.ltb_irrefl|apply N_ltb_trans|apply N_ltb_total].
Qed.

Lemma str_ltb_total (a b : str) : str_ltb a b = true \/ a = b \/ str_ltb b a = true.
Proof.
  apply lex_total; first [apply N.ltb_irrefl|apply N_ltb_trans|apply N_ltb_total].
Qed.

Lemma path_ltb_irrefl (a : path) : path_ltb a a = false.
Proof. apply lex_irrefl, str_ltb_irrefl. Qed.

Lemma path_ltb_trans (a b c : path) :
  path_ltb a b = true -> path_ltb b c = true -> path_ltb a c = true.
Proof.
  apply lex_trans; first [apply str_ltb_irrefl|apply str_ltb_trans|apply str_ltb_total].
Qed.

Lemma path_ltb_total (a b : path) :
  path_ltb a b = true \/ a = b \/ path_ltb b a = true.
Proof.
  apply lex_total; first [apply str_ltb_irrefl|apply str_ltb_trans|apply str_ltb_total].
Qed.

Lemma path_le_refl (a : path) : path_le a a.
Proof. apply path_ltb_irrefl. Qed.

Lemma path_lt_le (a b : path) : path_ltb a b = true -> path_le a b.
Proof.
  intros H. unfold path_le. destruct (path_ltb b a) eqn:E; auto.
  rewrite <- (path_ltb_irrefl a). symmetry. eapply path_ltb_trans; eauto.
Qed.

Lemma path_le_cases (a b : path) : path_le a b -> path_ltb a b = true \/ a = b.
Proof.
  unfold path_le. intros H. destruct (path_ltb_total a b) as [Hl|[->|Hl]]; auto.
  congruence.
Qed.

Lemma path_le_trans (a b c : path) : path_le a b -> path_le b c -> path_le a c.
Proof.
  intros Hab Hbc.
  destruct (path_le_cases a b Hab) as [H1| ->]; auto.
  destruct (path_le_cases b c Hbc) as [H2| ->]; auto.
  apply path_lt_le. eapply path_ltb_trans; eauto.
Qed.

Lemma path_le_antisym (a b : path) : path_le a b -> path_le b a -> a = b.
Proof.
  intros Hab Hba. destruct (path_le_cases a b Hab) as [H| ->]; auto.
  unfold path_le in Hba. congruence.
Qed.

Lemma insert_path_perm (x : path) (l : list path) :
  Permutation (insert_path x l) (x :: l).
Proof.
  induction l as [|y l IH]; simpl; auto.
  destruct (path_ltb x y); auto.
  rewrite IH. apply perm_swap.
Qed.

Lemma insert_path_sorted (x : path) (l : list path) :
  StronglySorted path_le l -> StronglySorted path_le (insert_path x l).
Proof.
  induction 1 as [|y l Hs IH Hy]; simpl.
  - repeat constructor.
  - destruct (path_ltb x y) eqn:E.
    + constructor; [constructor; assumption|].
      constructor; [now apply path_lt_le|].
      eapply Forall_impl; [|exact Hy].
      intros a Ha. eapply path_le_trans; [apply path_lt_le; exact E|exact Ha].
    + constructor; [exact IH|].
      apply (Permutation_Forall (Permutation_sym (insert_path_perm x l))).
      constructor; [exact E|exact Hy].
Qed.

Lemma sorted_fold (l : list path) :
  forall acc,
    StronglySorted path_le acc ->
    StronglySorted path_le (fold_left (fun a x => insert_path x a) l acc)
    /\ Permutation (fold_left (fun a x => insert_path x a) l acc) (l ++ acc).
Proof.
  induction l as [|x l IH]; intros acc Hacc; simpl.
  - auto.
  - destruct (IH (insert_path x acc) (insert_path_sorted x acc Hacc)) as [Hs Hp].
    split; [exact Hs|].
    rewrite Hp. rewrite insert_path_perm. apply Permutation_sym, Permutation_middle.
Qed.

(** [sorted] returns its argument in ascending order. *)
Lemma sorted_ascending (l : list path) :
  StronglySorted path_le (sorted l) /\ Permutation (sorted l) l.
Proof.
  destruct (sorted_fold l [] (SSorted_nil _)) as [Hs Hp].
  rewrite app_nil_r in Hp. auto.
Qed.

Lemma ascending_unique (l1 : list path) :
  forall l2,
    StronglySorted path_le l1 -> StronglySorted path_le l2 ->
    Permutation l1 l2 -> l1 = l2.
Proof.
  induction l1 as [|x l1 IH]; intros l2 H1 H2 Hp.
  - apply Permutation_nil in Hp. now subst.
  - destruct l2 as [|y l2]; [apply Permutation_sym, Permutation_nil in Hp; discriminate|].
    inversion H1 as [|? ? Hs1 Hx]; inversion H2 as [|? ? Hs2 Hy]; subst.
    assert (Exy : x = y).
    { assert (Hxin : In x (y :: l2)) by (eapply Permutation_in; [exact Hp|left; auto]).
      assert (Hyin : In y (x :: l1))
        by (eapply Permutation_in; [apply Permutation_sym; exact Hp|left; auto]).
      destruct Hxin as [->|Hxin]; auto.
      destruct Hyin as [->|Hyin]; auto.
      apply path_le_antisym.
      - rewrite Forall_forall in Hx. now apply Hx.
      - rewrite Forall_forall in Hy. now apply Hy. }
    subst y. f_equal. apply IH; auto.
    eapply Permutation_cons_inv. exact Hp.
Qed.

(** The order of the loader does not depend on the order in which the
    directory walk lists the metadata files. *)
Lemma sorted_deterministic (l1 l2 : list path) :
  Permutation l1 l2 -> sorted l1 = sorted l2.
Proof.
  intros Hp.
  destruct (sorted_ascending l1) as [Hs1 Hp1].
  destruct (sorted_ascending l2) as [Hs2 Hp2].
  apply ascending_unique; auto.
  rewrite Hp1, Hp. now apply Permutation_sym.
Qed.

(** With a cap [n] of at least one, or without a cap, and every trial
    loading, the loader returns the first [n] trials of the order. *)
Lemma discover_loop_capped (fs : FileSystem) (n : Z) (meta_files : list path)
  (ts : list TrialAssets) :
  Forall2 (fun p t => load_trial fs p = inr t) meta_files ts ->
  forall acc,
    discover_loop fs (Some n) meta_files acc
    = inr (acc ++ firstn (Z.to_nat (Z.max 1 (n - Z.of_nat (List.length acc)))) ts).
Proof.
  induction 1 as [|p t meta_files ts Hp _ IH]; intros acc.
  - simpl. now rewrite firstn_nil, app_nil_r.
  - simpl. rewrite Hp. simpl. rewrite length_app. simpl.
    destruct (n <=? Z.of_nat (List.length acc + 1)) eqn:E.
    + apply Z.leb_le in E.
      replace (Z.to_nat (Z.max 1 (n - Z.of_nat (List.length acc)))) with 1%nat by lia.
      reflexivity.
    + apply Z.leb_gt in E. rewrite IH. rewrite length_app. simpl.
      replace (Z.to_nat (Z.max 1 (n - Z.of_nat (List.length acc))))
        with (S (Z.to_nat (Z.max 1 (n - Z.of_nat (List.length acc + 1))))) by lia.
      simpl. now rewrite <- app_assoc.
Qed.

Lemma discover_loop_uncapped (fs : FileSystem) (meta_files : list path)
  (ts : list TrialAssets) :
  Forall2 (fun p t => load_trial fs p = inr t) meta_files ts ->
  forall acc, discover_loop fs None meta_files acc = inr (acc ++ ts).
Proof.
  induction 1 as [|p t meta_files ts Hp _ IH]; intros acc; simpl.
  - now rewrite app_nil_r.
  - rewrite Hp. simpl. rewrite IH. now rewrite <- app_assoc.
Qed.

(** The loader when every trial loads: all trials in path order without a
    cap, the first [n] of them with a cap [n >= 1], and one trial with a cap
    below one. *)
Lemma discover_trials_first_n (fs : FileSystem) (ts : list TrialAssets) :
  Forall2 (fun p t => load_trial fs p = inr t) (sorted (rglob_metadata fs)) ts ->
  discover_trials fs None = inr ts
  /\ (forall n, 1 <= n -> discover_trials fs (Some n) = inr (firstn (Z.to_nat n) ts))
  /\ (forall n, n < 1 -> discover_trials fs (Some n) = inr (firstn 1 ts)).
Proof.
  intros H. unfold discover_trials. repeat split.
  - now rewrite (discover_loop_uncapped fs _ ts H).
  - intros n Hn. rewrite (discover_loop_capped fs n _ ts H). simpl.
    now replace (Z.to_nat (Z.max 1 (n - 0))) with (Z.to_nat n) by lia.
  - intros n Hn. rewrite (discover_loop_capped fs n _ ts H). simpl.
    now replace (Z.to_nat (Z.max 1 (n - 0))) with 1%nat by lia.
Qed.


(** The identifier is upper-cased as [str.upper] does it, beyond ASCII too:
    the identifier [U+00DF] (sharp s) gives the correct answer [SS]. *)
Lemma loader_upper_cases_beyond_ascii :
  exists t rest,
    discover_trials (ex_fs "\u00df") None = inr (t :: rest)
    /\ label t = lit "a"
    /\ correct_answer t = lit "SS".
Proof.
  do 2 eexists. repeat split; vm_compute; reflexivity.
Qed.



(** The loader on metadata without a flagged target. *)
Lemma loader_raises_on_unflagged_example :
  discover_trials ex_fs_unflagged None
  = inl (Exn ValueError (lit "No correct target found in Trials/a/Metadata.json")).
Proof. vm_compute. reflexivity. Qed.

(** C5.  With the cap 0 the loader returns one trial, the first of the
    order, not none: the cap is tested after a trial has been added.
    Without a cap the same directory yields its two trials in path order. *)
Theorem discover_trials_cap_zero_returns_one_trial :
  (exists ta tb,
     discover_trials (ex_fs "B") None = inr [ta; tb]
     /\ label ta = lit "a" /\ label tb = lit "b")
  /\ (exists ta,
        discover_trials (ex_fs "B") (Some 0) = inr [ta]
        /\ label ta = lit "a").
Proof.
  split; do 2 eexists; repeat split; vm_compute; reflexivity.
Qed.

(** ** Stripping whitespace *)

Lemma lstrip_all_space (s : str) : all_space s -> lstrip s = [].
Proof.
  induction 1 as [|c s Hc _ IH]; simpl; auto. now rewrite Hc.
Qed.

(** The text is the whitespace [lstrip] removes, then what it returns, which
    is empty or starts with a character that is no whitespace. *)
Lemma lstrip_split (s : str) :
  exists ws,
    s = ws ++ lstrip s /\ all_space ws
    /\ (lstrip s = [] \/ exists a k, lstrip s = a :: k /\ is_space a = false).
Proof.
  induction s as [|c s (ws & Hs & Hws & Hl)]; simpl.
  - exists []. repeat split; auto. constructor.
  - destruct (is_space c) eqn:Ec.
    + exists (c :: ws). simpl. rewrite <- Hs. repeat split; auto.
      constructor; auto.
    + exists []. repeat split; eauto. constructor.
Qed.

Lemma lstrip_app_nonspace (x y : str) (c : char) :
  is_space c = false -> lstrip (x ++ c :: y) = lstrip x ++ c :: y.
Proof.
  intros Hc. induction x as [|a x IH]; simpl.
  - now rewrite Hc.
  - destruct (is_space a); auto.
Qed.

Lemma rstrip_app_nonspace (x y : str) (c : char) :
  is_space c = false -> rstrip (x ++ c :: y) = x ++ c :: rstrip y.
Proof.
  intros Hc. unfold rstrip. rewrite rev_app_distr. simpl. rewrite <- app_assoc. simpl.
  rewrite lstrip_app_nonspace by exact Hc.
  rewrite rev_app_distr. simpl. rewrite rev_involutive, <- app_assoc. reflexivity.
Qed.

Lemma rstrip_all_space (s : str) : all_space s -> rstrip s = [].
Proof.
  intros H. unfold rstrip. rewrite lstrip_all_space; auto.
  apply Forall_rev. exact H.
Qed.

(** What [rstrip] returns is empty or ends with a character that is no
    whitespace. *)
Lemma rstrip_cases (s : str) :
  rstrip s = [] \/ exists k b, rstrip s = k ++ [b] /\ is_space b = false.
Proof.
  unfold rstrip. destruct (lstrip_split (rev s)) as (_ & _ & _ & [H|(a & k & H & Ha)]).
  - left. now rewrite H.
  - right. exists (rev k), a. rewrite H. simpl. auto.
Qed.

(** Stripping around a character that is no whitespace. *)
Lemma strip_around (x y : str) (c : char) :
  is_space c = false -> strip (x ++ c :: y) = lstrip x ++ c :: rstrip y.
Proof.
  intros Hc. unfold strip. rewrite lstrip_app_nonspace by exact Hc.
  apply rstrip_app_nonspace. exact Hc.
Qed.

(** A text is whitespace only and strips to nothing, or it strips to a text
    that starts and ends with characters that are no whitespace. *)
Lemma strip_cases (s : str) :
  (all_space s /\ strip s = [])
  \/ exists x c y, is_space c = false /\ all_space x
                   /\ s = x ++ c :: y /\ strip s = c :: rstrip y.
Proof.
  destruct (lstrip_split s) as (ws & Hs & Hws & [H|(a & k & H & Ha)]).
  - left. unfold strip. rewrite H. split; [|reflexivity].
    rewrite Hs, H, app_nil_r. exact Hws.
  - right. exists ws, a, k. repeat split; auto.
    + rewrite Hs at 1. now rewrite H.
    + unfold strip. rewrite H.
      apply (rstrip_app_nonspace [] k a Ha).
Qed.

(** A stripped text followed by a newline strips to itself. *)
Lemma strip_strip_nl (s : str) : strip s <> [] -> strip (strip s ++ nl) = strip s.
Proof.
  intros Hne. destruct (strip_cases s) as [[_ H]|(x & c & y & Hc & Hx & Hs & Hst)];
    [contradiction|].
  rewrite Hst. simpl.
  pose proof (strip_around [] (rstrip y ++ nl) c Hc) as E. simpl in E. rewrite E.
  f_equal.
  destruct (rstrip_cases y) as [Hy|(k & b & Hy & Hb)]; rewrite Hy.
  - reflexivity.
  - rewrite <- app_assoc. simpl. rewrite rstrip_app_nonspace by exact Hb.
    reflexivity.
Qed.

(** ** The report *)

Section Report.
Variable timestamp : str.
Variable runs : list ModelRun.
Variable root prompt_note : str.

(** The lines of a section start with the heading of the run, and the
    heading is not the last text of the section. *)
Lemma section_lines_text :
  exists tail,
    join nl (section_lines timestamp runs root prompt_note)
    = (lit "## Run " ++ timestamp ++ nl) ++ ch "-" :: tail.
Proof.
  unfold section_lines. eexists. simpl. rewrite <- app_assoc. simpl.
  reflexivity.
Qed.

(** The section as written starts with the same heading. *)
Lemma rendered_section_text :
  exists tail,
    join nl (section_lines timestamp runs root prompt_note)
    = (lit "## Run " ++ timestamp ++ nl) ++ ch "-" :: tail
    /\ rendered_section timestamp runs root prompt_note
       = (lit "## Run " ++ timestamp ++ nl) ++ ch "-" :: rstrip tail ++ nl.
Proof.
  destruct section_lines_text as (tail & H). exists tail. split; [exact H|].
  unfold rendered_section. rewrite H.
  rewrite rstrip_app_nonspace by reflexivity.
  rewrite <- app_assoc. reflexivity.
Qed.

(** What [report_text] writes: the text before the section, without the
    whitespace [lstrip] finds at its start, then the section. *)
Lemma append_report_text (file : option str) :
  report_text file timestamp runs root prompt_note
  = lstrip (match file with
            | Some content => rstrip content
            | None => report_header
            end ++ nl)
      ++ rendered_section timestamp runs root prompt_note.
Proof.
  destruct rendered_section_text as (tail & Hj & Hr).
  unfold report_text. rewrite Hr.
  set (existing := match file with Some content => rstrip content | None => report_header end).
  assert (Hjoin : join nl (existing :: section_lines timestamp runs root prompt_note)
                  = existing ++ nl ++ join nl (section_lines timestamp runs root prompt_note)).
  { unfold section_lines. reflexivity. }
  rewrite Hjoin, Hj.
  replace (existing ++ nl ++ (lit "## Run " ++ timestamp ++ nl) ++ ch "-" :: tail)
    with (((existing ++ nl) ++ lit "## Run " ++ timestamp ++ nl) ++ ch "-" :: tail)
    by (rewrite <- !app_assoc; reflexivity).
  rewrite strip_around by reflexivity.
  change (lit "## Run " ++ timestamp ++ nl)
    with (ch "#" :: lit "# Run " ++ timestamp ++ nl).
  rewrite lstrip_app_nonspace by reflexivity.
  rewrite <- !app_assoc. reflexivity.
Qed.

Lemma append_report_not_blank (file : option str) :
  exists body,
    report_text file timestamp runs root prompt_note = strip body ++ nl
    /\ strip body <> [].
Proof.
  eexists. split; [reflexivity|].
  destruct rendered_section_text as (tail & Hj & _).
  assert (Hjoin : forall existing,
            join nl (existing :: section_lines timestamp runs root prompt_note)
            = existing ++ nl ++ join nl (section_lines timestamp runs root prompt_note)).
  { intros existing. unfold section_lines. reflexivity. }
  rewrite Hjoin, Hj.
  match goal with
  | |- strip (?e ++ nl ++ ?h ++ ?c :: ?t) <> [] =>
      replace (e ++ nl ++ h ++ c :: t) with ((e ++ nl ++ h) ++ c :: t)
        by (rewrite <- !app_assoc; reflexivity)
  end.
  rewrite strip_around by reflexivity.
  intros H. apply app_eq_nil in H as [_ H]. discriminate H.
Qed.

End Report.

(** Prior text that ends in a blank line is not kept as it is: the blank
    line is gone from the text that is written. *)
Lemma report_append_drops_trailing_blank_line :
  let prior := lit "# Notes" ++ nl ++ nl in
  let written := report_text (Some prior) (lit "2026-01-01 10:00:00") [] (lit "Trials") (lit "p") in
  written
  = lit "# Notes" ++ nl ++ lit "## Run 2026-01-01 10:00:00" ++ nl
      ++ lit "- Trials root: Trials" ++ nl ++ lit "- Prompt: p" ++ nl
  /\ startswith prior written = false.
Proof.
  split; vm_compute; reflexivity.
Qed.

(** The text that is written, from the text that was read.  The text read is
    kept except for the whitespace at its two ends: what is written is the
    stripped text, a newline and the new section (the section alone when the
    text read is blank).  Text that is already stripped and ends in one
    newline is kept as it is, with the section after it; every text
    [report_text] gives is of that form.  Without a file the text is the
    document header, then the section. *)
Lemma report_append_keeps_stripped_content (timestamp : str)
  (runs : list ModelRun) (root prompt_note : str) :
  let section := rendered_section timestamp runs root prompt_note in
  (forall content,
     strip content <> [] ->
     report_text (Some content) timestamp runs root prompt_note
     = strip content ++ nl ++ section)
  /\ (forall content,
        strip content = [] ->
        report_text (Some content) timestamp runs root prompt_note = section)
  /\ (forall content,
        strip content <> [] ->
        content = strip content ++ nl ->
        report_text (Some content) timestamp runs root prompt_note
        = content ++ section)
  /\ (forall file timestamp0 runs0 root0 prompt_note0,
        let first := report_text file timestamp0 runs0 root0 prompt_note0 in
        report_text (Some first) timestamp runs root prompt_note
        = first ++ section)
  /\ report_text None timestamp runs root prompt_note
     = report_header ++ nl ++ section
  /\ exists tail, section = lit "## Run " ++ timestamp ++ nl ++ tail.
Proof.
  intros section.
  assert (A : forall content,
             strip content <> [] ->
             report_text (Some content) timestamp runs root prompt_note
             = strip content ++ nl ++ section).
  { intros content Hne. rewrite append_report_text. fold section.
    destruct (strip_cases content) as [[_ H]|(x & c & y & Hc & Hx & Hs & Hst)];
      [contradiction|].
    rewrite Hst. rewrite Hs at 1.
    rewrite rstrip_app_nonspace by exact Hc.
    rewrite <- app_assoc. simpl.
    rewrite lstrip_app_nonspace by exact Hc.
    rewrite (lstrip_all_space x Hx). simpl. rewrite <- app_assoc. reflexivity. }
  split; [exact A|]. split; [|split; [|split; [|split]]].
  - intros content He. rewrite append_report_text. fold section.
    destruct (strip_cases content) as [[Hall _]|(x & c & y & Hc & Hx & Hs & Hst)].
    + rewrite (rstrip_all_space content Hall). reflexivity.
    + rewrite Hst in He. discriminate He.
  - intros content Hne Hc. rewrite (A content Hne).
    rewrite Hc at 2. rewrite <- app_assoc. reflexivity.
  - intros file timestamp0 runs0 root0 prompt_note0 first.
    destruct (append_report_not_blank timestamp0 runs0 root0 prompt_note0 file)
      as (body & Hb & Hne).
    subst first. rewrite Hb.
    rewrite A; rewrite (strip_strip_nl body Hne); [|exact Hne].
    rewrite <- app_assoc. reflexivity.
  - rewrite append_report_text. fold section. reflexivity.
  - destruct (rendered_section_text timestamp runs root prompt_note) as (tail & _ & Hr).
    subst section. rewrite Hr. rewrite <- !app_assoc. eexists. reflexivity.
Qed.

(** *** The report file *)

(** Text is encoded unless it holds a surrogate. *)
Lemma utf8_encode_go_surrogate (text : str) :
  forall pos,
    (existsb is_surrogate text = false ->
     utf8_encode_go text pos = inr (flat_map utf8_char text))
    /\ (existsb is_surrogate text = true ->
        exists e, utf8_encode_go text pos = inl e
                  /\ exn_class_of e = UnicodeEncodeError).
Proof.
  induction text as [|c rest IH]; intros pos; simpl.
  - split; [reflexivity|discriminate].
  - destruct (is_surrogate c) eqn:E; simpl.
    + split; [discriminate|]. intros _. eexists. split; reflexivity.
    + destruct (IH (S pos)) as [Hok Hfail]. split.
      * intros H. rewrite (Hok H). reflexivity.
      * intros H. destruct (Hfail H) as (e & He & Hc). exists e.
        rewrite He. split; [reflexivity|exact Hc].
Qed.

(** Writing the report empties the file; it stays empty when the text holds
    a surrogate, which cannot be encoded, and else holds the text, encoded. *)
Lemma write_report_outcome (text : str) :
  (existsb is_surrogate text = false ->
   write_report text = (ok tt, Some (flat_map utf8_char text)))
  /\ (existsb is_surrogate text = true ->
      exists e, write_report text = (inl e, Some [])
                /\ exn_class_of e = UnicodeEncodeError).
Proof.
  unfold write_report, utf8_encode.
  destruct (utf8_encode_go_surrogate text 0%nat) as [Hok Hfail]. split.
  - intros H. rewrite (Hok H). reflexivity.
  - intros H. destruct (Hfail H) as (e & He & Hc). rewrite He.
    exists e. split; [reflexivity|exact Hc].
Qed.

(** What [append_report] does to the report file.  A file that is not UTF-8
    is left as it is, and the failure of reading it is raised.  Otherwise the
    text of [report_text] is written, from the text read or, without a file,
    from the document header. *)
Lemma append_report_file (file : option (list N)) (timestamp : str)
  (runs : list ModelRun) (root prompt_note : str) :
  append_report file timestamp runs root prompt_note
  = match file with
    | Some bytes =>
        match read_report bytes with
        | inl e => (inl e, Some bytes)
        | inr content =>
            write_report (report_text (Some content) timestamp runs root prompt_note)
        end
    | None => write_report (report_text None timestamp runs root prompt_note)
    end.
Proof.
  destruct file as [bytes|]; [|reflexivity].
  unfold append_report. destruct (read_report bytes); reflexivity.
Qed.

(** Carriage returns of the prior content are not kept: reading the file
    turns each, with the line feed after it, into a line feed. *)
Lemma report_append_translates_carriage_returns :
  let prior := lit "# Notes" ++ [13; 10]%N ++ lit "kept" ++ nl in
  append_report (Some prior) (lit "2026-01-01 10:00:00") [] (lit "Trials") (lit "p")
  = (ok tt,
     Some (lit "# Notes" ++ nl ++ lit "kept" ++ nl
             ++ lit "## Run 2026-01-01 10:00:00" ++ nl
             ++ lit "- Trials root: Trials" ++ nl ++ lit "- Prompt: p" ++ nl)).
Proof.
  vm_compute. reflexivity.
Qed.

(** C8.  Appending a run can empty the report.  A reply whose reasoning is
    the escape of a lone surrogate parses, and the trial succeeds with that
    surrogate as its reasoning.  Appending the run to a report that holds an
    earlier run raises [UnicodeEncodeError], and the report is left empty:
    the file was opened for writing, which truncates it, before the text was
    encoded. *)
Theorem report_is_emptied_when_a_note_cannot_be_encoded :
  let reply := jlit "{'answer': 'A', 'reasoning': '\ud83d'}" in
  let runner := openai_runner ex_costs (ex_adapter (provider_replying reply) true) in
  exists run w1 prior,
    run_trials ex_costs (lit "gpt") runner [ex_trial] w0 = (inr run, w1)
    /\ map success (results run) = [true]
    /\ map reasoning (results run) = [[55357%N]]
    /\ append_report None (lit "2026-01-01 10:00:00") [] (lit "Trials") (lit "p")
       = (ok tt, Some prior)
    /\ prior
       = report_header ++ nl ++ lit "## Run 2026-01-01 10:00:00" ++ nl
           ++ lit "- Trials root: Trials" ++ nl ++ lit "- Prompt: p" ++ nl
    /\ append_report (Some prior) (lit "2026-01-02 10:00:00") [run] (lit "Trials") (lit "p")
       = (raise (Exn UnicodeEncodeError
                   (lit "'utf-8' codec can't encode character '\ud83d' in position 409: surrogates not allowed")),
          Some []).
Proof.
  intros reply runner. do 3 eexists.
  split; [vm_compute; reflexivity|].
  repeat split; vm_compute; reflexivity.
Qed.

(** ** The failures of [json.loads] *)

Lemma json_error_class {A} (msg : string) (doc : str) (pos : Z) (r : exn) :
  @json_error A msg doc pos = inl r -> parser_failure r.
Proof.
  unfold json_error. destruct (line_col doc (Z.to_nat pos) 1 1).
  intros H. inversion H. left. reflexivity.
Qed.

Lemma py_int_class (neg : bool) (ds : str) (e : exn) :
  py_int neg ds = inl e -> parser_failure e.
Proof.
  unfold py_int. destruct (4300 <? List.length ds)%nat; [|discriminate].
  intros H. inversion H. right. left. reflexivity.
Qed.

Ltac parser_cases H :=
  repeat
    (match type of H with
     | inl _ = inl _ => inversion H; subst; clear H
     | inr _ = inl _ => discriminate H
     | ok _ = inl _ => discriminate H
     | raise _ = inl _ => inversion H; subst; clear H
     | json_error _ _ _ = inl _ => apply json_error_class in H
     | expecting_value _ _ = inl _ => apply json_error_class in H
     | py_int _ _ = inl _ => apply py_int_class in H
     | rbind ?m _ = inl _ =>
         let E := fresh "E" in destruct m eqn:E; simpl rbind in H
     | (let '(_, _) := ?x in _) = inl _ => destruct x
     | (if ?b then _ else _) = inl _ => destruct b
     | match ?x with _ => _ end = inl _ =>
         let E := fresh "E" in destruct x eqn:E
     end).

Lemma scanstring_class (fuel : nat) :
  forall doc start acc p s e,
    scanstring fuel doc start acc p s = inl e -> parser_failure e.
Proof.
  induction fuel as [|fuel IH]; intros doc start acc p s e H.
  - inversion H. right. right. reflexivity.
  - cbn [scanstring] in H.
    parser_cases H;
      try exact H;
      try (eapply IH; exact H).
Qed.

Lemma scan_number_class (p : Z) (s : str) (e : exn) :
  scan_number p s = Some (inl e) -> parser_failure e.
Proof.
  unfold scan_number. intros H.
  repeat match type of H with
         | (let '(_, _) := ?x in _) = _ => destruct x
         | match ?x with _ => _ end = _ => destruct x
         | (if ?b then _ else _) = _ => destruct b
         end;
    try discriminate H;
    inversion H as [H1]; clear H;
    parser_cases H1; try exact H1;
    eapply py_int_class; eassumption.
Qed.

Lemma scan_class (fuel : nat) :
  (forall doc p s e, scan_once fuel doc p s = inl e -> parser_failure e)
  /\ (forall doc d p s e, object_loop fuel doc d p s = inl e -> parser_failure e)
  /\ (forall doc acc p s e, array_loop fuel doc acc p s = inl e -> parser_failure e).
Proof.
  induction fuel as [|fuel (IH1 & IH2 & IH3)].
  - repeat split; intros; match goal with H : _ = inl _ |- _ => inversion H end;
      right; right; reflexivity.
  - repeat split.
    + intros doc p s e H. cbn [scan_once] in H.
      destruct s as [|c s']; [apply json_error_class in H; exact H|].
      destruct (c =? 34)%N.
      { destruct (scanstring (S (List.length s')) doc p [] (p + 1) s') as [e'|[[t p'] r]] eqn:E;
          simpl rbind in H; [|discriminate H].
        inversion H; subst. eapply scanstring_class; exact E. }
      destruct (c =? 123)%N.
      { destruct (skip_ws (p + 1) s') as [p1 s1].
        destruct s1 as [|c1 s1']; [eapply IH2; exact H|].
        destruct (c1 =? 125)%N; [discriminate H|eapply IH2; exact H]. }
      destruct (c =? 91)%N.
      { destruct (skip_ws (p + 1) s') as [p1 s1].
        destruct s1 as [|c1 s1']; [eapply IH3; exact H|].
        destruct (c1 =? 93)%N; [discriminate H|eapply IH3; exact H]. }
      destruct (startswith (lit "null") (c :: s')); [discriminate H|].
      destruct (startswith (lit "true") (c :: s')); [discriminate H|].
      destruct (startswith (lit "false") (c :: s')); [discriminate H|].
      destruct (scan_number p (c :: s')) as [r|] eqn:E.
      { subst r. eapply scan_number_class; exact E. }
      destruct (startswith (lit "NaN") (c :: s')); [discriminate H|].
      destruct (startswith (lit "Infinity") (c :: s')); [discriminate H|].
      destruct (startswith (lit "-Infinity") (c :: s')); [discriminate H|].
      apply json_error_class in H. exact H.
    + intros doc d p s e H. cbn [object_loop] in H.
      destruct s as [|c s']; [apply json_error_class in H; exact H|].
      destruct (negb (c =? 34)%N); [apply json_error_class in H; exact H|].
      destruct (scanstring (S (List.length s')) doc p [] (p + 1) s') as [e'|[[key p1] s1]] eqn:E;
        simpl rbind in H.
      { inversion H; subst. eapply scanstring_class; exact E. }
      destruct (skip_ws p1 s1) as [p2 s2].
      destruct s2 as [|c2 s2']; [apply json_error_class in H; exact H|].
      destruct (negb (c2 =? 58)%N); [apply json_error_class in H; exact H|].
      destruct (skip_ws (p2 + 1) s2') as [p3 s3].
      destruct (scan_once fuel doc p3 s3) as [e'|[[v p4] s4]] eqn:Ev; simpl rbind in H.
      { inversion H; subst. eapply IH1; exact Ev. }
      destruct (skip_ws p4 s4) as [p5 s5].
      destruct s5 as [|c5 s5']; [apply json_error_class in H; exact H|].
      destruct (c5 =? 125)%N; [discriminate H|].
      destruct (c5 =? 44)%N; [|apply json_error_class in H; exact H].
      destruct (skip_ws (p5 + 1) s5') as [p6 s6]. eapply IH2; exact H.
    + intros doc acc p s e H. cbn [array_loop] in H.
      destruct (scan_once fuel doc p s) as [e'|[[v p1] s1]] eqn:Ev; simpl rbind in H.
      { inversion H; subst. eapply IH1; exact Ev. }
      destruct (skip_ws p1 s1) as [p2 s2].
      destruct s2 as [|c2 s2']; [apply json_error_class in H; exact H|].
      destruct (c2 =? 93)%N; [discriminate H|].
      destruct (c2 =? 44)%N; [|apply json_error_class in H; exact H].
      destruct (skip_ws (p2 + 1) s2') as [p3 s3]. eapply IH3; exact H.
Qed.

(** Every failure of [json_loads] is a failure of the parser. *)
Lemma json_loads_class (text : str) (e : exn) :
  json_loads text = inl e -> parser_failure e.
Proof.
  unfold json_loads. intros H.
  destruct (startswith [65279%N] text); [apply json_error_class in H; exact H|].
  destruct (skip_ws 0 text) as [p0 s0].
  destruct (scan_once (2 * List.length text + 2) text p0 s0) as [e'|[[v p1] s1]] eqn:E;
    simpl rbind in H.
  - inversion H; subst. eapply (proj1 (scan_class _)); exact E.
  - destruct (skip_ws p1 s1) as [p2 [|c s2]]; [discriminate H|].
    apply json_error_class in H. exact H.
Qed.


(** ** Parsing replies *)

Lemma startswith_app (p s : str) : startswith p (p ++ s) = true.
Proof.
  induction p as [|x p IH]; simpl; auto. now rewrite N.eqb_refl.
Qed.

(** The pieces of a text that starts with a fence: the empty piece before the
    fence, then the text up to the next fence. *)
Lemma fence_not_before (x rest : str) :
  x <> [] ->
  startswith fence (x ++ fence ++ rest) = startswith fence (x ++ lit "``").
Proof.
  intros Hx. destruct x as [|a [|b [|c x]]]; [contradiction| | |]; simpl;
    rewrite ?N.eqb_refl, ?andb_true_r; reflexivity.
Qed.

Lemma split_go_skip (sep : str) (x : str) :
  forall (cur rest : str),
    split_go sep (List.length x) cur (x ++ rest) = split_go sep O cur rest.
Proof.
  induction x as [|a x IH]; intros cur rest; simpl.
  - destruct rest; reflexivity.
  - apply IH.
Qed.

Lemma split_go_step (sep cur : str) (c : char) (s : str) :
  split_go sep O cur (c :: s)
  = if startswith sep (c :: s)
    then rev cur :: split_go sep (List.length sep - 1) [] s
    else split_go sep O (c :: cur) s.
Proof. reflexivity. Qed.

Lemma split_go_body (rest : str) (body : str) :
  forall cur,
    occurs fence (body ++ lit "``") = false ->
    split_go fence O cur (body ++ fence ++ rest)
    = (rev cur ++ body) :: split_go fence O [] rest.
Proof.
  induction body as [|c body IH]; intros cur H.
  - rewrite app_nil_r.
    change (split_go fence 0 cur ([] ++ fence ++ rest))
      with (rev cur :: split_go fence (List.length (lit "``")) [] (lit "``" ++ rest)).
    now rewrite split_go_skip.
  - simpl in H. apply orb_false_iff in H as [H1 H2].
    assert (E : startswith fence ((c :: body) ++ fence ++ rest) = false).
    { rewrite fence_not_before by discriminate. exact H1. }
    change ((c :: body) ++ fence ++ rest) with (c :: (body ++ fence ++ rest)) in *.
    rewrite split_go_step, E.
    rewrite (IH (c :: cur) H2). simpl. rewrite <- app_assoc. reflexivity.
Qed.

Lemma split_fenced (body rest : str) :
  occurs fence (body ++ lit "``") = false ->
  str_split fence (fence ++ body ++ fence ++ rest)
  = [] :: body :: str_split fence rest.
Proof.
  intros H. unfold str_split.
  change (split_go fence 0 [] (fence ++ body ++ fence ++ rest))
    with ([] :: split_go fence (List.length (lit "``")) []
                  (lit "``" ++ body ++ fence ++ rest)).
  rewrite split_go_skip. now rewrite split_go_body.
Qed.

Lemma brace_free_lstrip (s : str) : brace_free s -> brace_free (lstrip s).
Proof.
  induction 1 as [|c s Hc Hs IH]; simpl.
  - constructor.
  - destruct (is_space c); auto. constructor; auto.
Qed.

Lemma brace_free_rstrip (s : str) : brace_free s -> brace_free (rstrip s).
Proof.
  intros H. unfold rstrip. apply Forall_rev, brace_free_lstrip, Forall_rev, H.
Qed.

(** Stripping keeps an object with brace-free text around it as one. *)
Lemma around_strip (obj s : str) :
  object_text obj -> around obj s -> around obj (strip s).
Proof.
  intros (mid & ->) (p & q & -> & Hp & Hq).
  exists (lstrip p), (rstrip q). repeat split.
  - replace (p ++ (lbrace :: mid ++ [rbrace]) ++ q)
      with (p ++ lbrace :: (mid ++ rbrace :: q))
      by (simpl; rewrite <- app_assoc; reflexivity).
    rewrite strip_around by reflexivity.
    rewrite rstrip_app_nonspace by reflexivity.
    simpl. rewrite <- app_assoc. reflexivity.
  - now apply brace_free_lstrip.
  - now apply brace_free_rstrip.
Qed.

(** A text that starts with the tag, before an object: the tag is in the
    text before the object. *)
Lemma around_skip_tag (obj s : str) :
  object_text obj -> around obj s ->
  startswith (lit "json") (lower s) = true ->
  around obj (skipn 4 s).
Proof.
  intros (mid & ->) (p & q & -> & Hp & Hq) H.
  destruct p as [|a [|b [|c [|d p]]]]; simpl in H;
    try (rewrite ?andb_false_r in H; discriminate H).
  exists p, q. repeat split; auto.
  inversion Hp as [|? ? _ Hp1]; inversion Hp1 as [|? ? _ Hp2];
    inversion Hp2 as [|? ? _ Hp3]; inversion Hp3 as [|? ? _ Hp4]; exact Hp4.
Qed.

Lemma contains_app_char (c : char) (x y : str) : contains c (x ++ c :: y) = true.
Proof.
  unfold contains. rewrite existsb_app. simpl. rewrite N.eqb_refl.
  now rewrite orb_true_r.
Qed.

Lemma find_from_first (c : char) (y : str) (x : str) :
  forall i, Forall (fun a => a <> c) x ->
            find_from c (x ++ c :: y) i = i + Z.of_nat (List.length x).
Proof.
  induction x as [|a x IH]; intros i H; simpl.
  - rewrite N.eqb_refl. lia.
  - inversion H as [|? ? Ha Hx]; subst.
    apply N.eqb_neq in Ha. rewrite Ha. rewrite IH by exact Hx. lia.
Qed.

Lemma rfind_from_absent (c : char) (q : str) :
  forall i last, Forall (fun a => a <> c) q -> rfind_from c q i last = last.
Proof.
  induction q as [|a q IH]; intros i last H; simpl; auto.
  inversion H as [|? ? Ha Hq]; subst.
  apply N.eqb_neq in Ha. rewrite Ha. now apply IH.
Qed.

Lemma rfind_from_last (c : char) (q : str) (x : str) :
  forall i last, Forall (fun a => a <> c) q ->
                 rfind_from c (x ++ c :: q) i last = i + Z.of_nat (List.length x).
Proof.
  induction x as [|a x IH]; intros i last H; simpl.
  - rewrite N.eqb_refl. rewrite rfind_from_absent by exact H. lia.
  - rewrite IH by exact H. lia.
Qed.

Lemma slice_middle (p obj q : str) :
  firstn (List.length obj) (skipn (List.length p) (p ++ obj ++ q)) = obj.
Proof.
  rewrite skipn_app, skipn_all, Nat.sub_diag. simpl.
  rewrite firstn_app, firstn_all, Nat.sub_diag. simpl. apply app_nil_r.
Qed.

(** Narrowing an object with brace-free text around it yields the object. *)
Lemma narrow_around (obj s : str) :
  object_text obj -> around obj s -> narrow_to_braces s = obj.
Proof.
  intros (mid & ->) (p & q & -> & Hp & Hq). unfold narrow_to_braces.
  assert (Hl : contains lbrace (p ++ (lbrace :: mid ++ [rbrace]) ++ q) = true).
  { simpl. apply contains_app_char. }
  assert (Hr : contains rbrace (p ++ (lbrace :: mid ++ [rbrace]) ++ q) = true).
  { replace (p ++ (lbrace :: mid ++ [rbrace]) ++ q)
      with ((p ++ lbrace :: mid) ++ rbrace :: q)
      by (simpl; rewrite <- !app_assoc; reflexivity).
    apply contains_app_char. }
  rewrite Hl, Hr. simpl andb. cbv iota.
  assert (Hf : str_find lbrace (p ++ (lbrace :: mid ++ [rbrace]) ++ q)
               = Z.of_nat (List.length p)).
  { unfold str_find. simpl. rewrite find_from_first; [lia|].
    eapply Forall_impl; [|exact Hp]. intros a [Ha _]. exact Ha. }
  assert (Hrf : str_rfind rbrace (p ++ (lbrace :: mid ++ [rbrace]) ++ q)
                = Z.of_nat (List.length (p ++ lbrace :: mid))).
  { unfold str_rfind.
    replace (p ++ (lbrace :: mid ++ [rbrace]) ++ q)
      with ((p ++ lbrace :: mid) ++ rbrace :: q)
      by (simpl; rewrite <- !app_assoc; reflexivity).
    rewrite rfind_from_last; [lia|].
    eapply Forall_impl; [|exact Hq]. intros a [_ Ha]. exact Ha. }
  rewrite Hf, Hrf. unfold slice.
  rewrite Nat2Z.id.
  replace (Z.to_nat (Z.of_nat (List.length (p ++ lbrace :: mid)) + 1) - List.length p)%nat
    with (List.length (lbrace :: mid ++ [rbrace]))
    by (simpl; rewrite !length_app; simpl; lia).
  apply slice_middle.
Qed.

(** The first step on a fenced text. *)
Lemma strip_fences_fenced (lead body rest : str) :
  all_space lead ->
  occurs fence (body ++ lit "``") = false ->
  strip_fences (lead ++ fence ++ body ++ fence ++ rest)
  = let inner := strip body in
    if startswith (lit "json") (lower inner) then strip (skipn 4 inner) else inner.
Proof.
  intros Hlead Hocc. unfold strip_fences.
  assert (Hs : strip (lead ++ fence ++ body ++ fence ++ rest)
               = fence ++ body ++ fence ++ rstrip rest).
  { change (lead ++ fence ++ body ++ fence ++ rest)
      with (lead ++ 96%N :: (lit "``" ++ body ++ fence ++ rest)).
    rewrite strip_around by reflexivity.
    rewrite (lstrip_all_space lead Hlead).
    replace (lit "``" ++ body ++ fence ++ rest)
      with ((lit "``" ++ body ++ lit "``") ++ 96%N :: rest)
      by (simpl; rewrite <- !app_assoc; reflexivity).
    rewrite rstrip_app_nonspace by reflexivity.
    simpl. rewrite <- !app_assoc. reflexivity. }
  rewrite Hs. rewrite startswith_app.
  rewrite split_fenced by exact Hocc. reflexivity.
Qed.

(** [parse_json_response] is its three steps in a row. *)
Lemma parse_json_response_steps (text : str) :
  parse_json_response text = json_loads (narrow_to_braces (strip_fences text)).
Proof.
  unfold parse_json_response, strip_fences, narrow_to_braces.
  destruct (startswith fence (strip text)); [|reflexivity].
  destruct (str_split fence (strip text)) as [|a [|b l]]; reflexivity.
Qed.

(** C3, as stated, fails: a JSON object in a fence is not recovered when one
    of its strings holds a triple backtick; the text is cut there and the
    parser fails. *)
Lemma fenced_object_with_inner_fence_is_lost :
  let obj := jlit "{'answer': 'A', 'reasoning': 'see ```x``` '}" in
  let text := lit "```json" ++ nl ++ obj ++ nl ++ lit "```" in
  json_loads obj
  = inr (VDict [(lit "answer", VStr (lit "A"));
                (lit "reasoning", VStr (lit "see ```x``` "))])
  /\ parse_json_response text
     = inl (Exn JSONDecodeError
              (lit "Unterminated string starting at: line 1 column 30 (char 29)")).
Proof.
  split; vm_compute; reflexivity.
Qed.

(** C3, amended.  [parse_json_response] strips the text, takes from a text
    that starts with a fence the part up to the next fence (stripped, and
    without a leading [json] tag), narrows to the span from the first opening
    to the last closing brace when both occur, and parses the result.  So it
    recovers a JSON object from fenced output, with or without a tag before
    it, when no further triple backtick starts inside the fence; and from
    output with text without braces around the object, when that output does
    not start with a fence.  A failure of the parser on the narrowed text is
    raised as it is: a [JSONDecodeError], or the parser's [ValueError] for an
    integer beyond the digit limit, or exhausted recursion depth. *)
Theorem parse_json_response_recovers_object :
  (forall text,
     parse_json_response text = json_loads (narrow_to_braces (strip_fences text)))
  /\ (forall lead pre obj post rest,
        all_space lead -> brace_free pre -> brace_free post -> object_text obj ->
        occurs fence (pre ++ obj ++ post ++ lit "``") = false ->
        parse_json_response (lead ++ fence ++ pre ++ obj ++ post ++ fence ++ rest)
        = json_loads obj)
  /\ (forall pre obj post,
        brace_free pre -> brace_free post -> object_text obj ->
        startswith fence (strip (pre ++ obj ++ post)) = false ->
        parse_json_response (pre ++ obj ++ post) = json_loads obj)
  /\ (forall text e,
        json_loads (narrow_to_braces (strip_fences text)) = inl e ->
        parse_json_response text = inl e /\ parser_failure e).
Proof.
  split; [exact parse_json_response_steps|]. split; [|split].
  - intros lead pre obj post rest Hlead Hpre Hpost Hobj Hocc.
    rewrite parse_json_response_steps. f_equal.
    replace (lead ++ fence ++ pre ++ obj ++ post ++ fence ++ rest)
      with (lead ++ fence ++ (pre ++ obj ++ post) ++ fence ++ rest)
      by (rewrite <- !app_assoc; reflexivity).
    rewrite strip_fences_fenced;
      [|exact Hlead|rewrite <- !app_assoc; exact Hocc].
    assert (Ha : around obj (strip (pre ++ obj ++ post))).
    { apply around_strip; [exact Hobj|]. exists pre, post. auto. }
    cbv zeta.
    destruct (startswith (lit "json") (lower (strip (pre ++ obj ++ post)))) eqn:E.
    + apply narrow_around; [exact Hobj|].
      apply around_strip; [exact Hobj|].
      apply around_skip_tag; assumption.
    + apply narrow_around; assumption.
  - intros pre obj post Hpre Hpost Hobj Hstart.
    rewrite parse_json_response_steps. f_equal.
    unfold strip_fences. rewrite Hstart.
    apply narrow_around; [exact Hobj|].
    apply around_strip; [exact Hobj|]. exists pre, post. auto.
  - intros text e H. rewrite parse_json_response_steps. split; [exact H|].
    eapply json_loads_class. exact H.
Qed.

Lemma parse_json_response_recovers_object_witness :
  let obj := jlit "{'answer': 'b'}" in
  parse_json_response (lit "```json" ++ nl ++ obj ++ nl ++ lit "```") = json_loads obj
  /\ parse_json_response (lit "Sure: " ++ obj ++ lit " Bye.") = json_loads obj.
Proof.
  intros obj.
  destruct parse_json_response_recovers_object as (_ & Hfenced & Hprose & _).
  split.
  - apply (Hfenced [] (lit "json" ++ nl) obj nl []).
    + constructor.
    + repeat (constructor; [split; discriminate|]). constructor.
    + repeat (constructor; [split; discriminate|]). constructor.
    + exists (jlit "'answer': 'b'"). reflexivity.
    + reflexivity.
  - apply (Hprose (lit "Sure: ") obj (lit " Bye.")).
    + repeat (constructor; [split; discriminate|]). constructor.
    + repeat (constructor; [split; discriminate|]). constructor.
    + exists (jlit "'answer': 'b'"). reflexivity.
    + reflexivity.
Defined.

(** The recovery on examples: a fenced reply with the tag, a fenced reply
    without one, a reply with prose around the object, and a reply that is
    no JSON. *)
Lemma parse_json_response_examples :
  let obj := jlit "{'answer': 'b', 'confidence': 87}" in
  let v := VDict [(lit "answer", VStr (lit "b")); (lit "confidence", VInt 87)] in
  parse_json_response (lit "```json" ++ nl ++ obj ++ nl ++ lit "```") = inr v
  /\ parse_json_response (lit "```" ++ nl ++ obj ++ nl ++ lit "```") = inr v
  /\ parse_json_response (lit "Sure, here it is: " ++ obj ++ lit " Hope this helps.") = inr v
  /\ parse_json_response (lit "I think it's A because it fits")
     = inl (Exn JSONDecodeError (lit "Expecting value: line 1 column 1 (char 0)")).
Proof.
  repeat split; vm_compute; reflexivity.
Qed.

(** * Further properties of the code *)

(** ** [normalize_answer] *)

Lemma is_letter_cases (a : str) :
  is_letter a = true -> a = lit "A" \/ a = lit "B" \/ a = lit "C".
Proof.
  unfold is_letter. intros H.
  apply orb_true_iff in H as [H|H]; [apply orb_true_iff in H as [H|H]|];
    apply str_eqb_eq in H; auto.
Qed.

Lemma upper_char_answer (c : char) :
  answer_char c = true
  <-> (upper_char c = 65 \/ upper_char c = 66 \/ upper_char c = 67)%N.
Proof.
  unfold answer_char, upper_char.
  destruct (N.leb_spec 97 c), (N.leb_spec c 99), (N.leb_spec 65 c),
    (N.leb_spec c 67), (N.leb_spec c 122); simpl; split; intros Hc;
    try discriminate; try reflexivity; try lia.
Qed.

(** The upper case of a code point is never the empty text. *)
Lemma to_upper_not_empty (c : char) : to_upper c <> [].
Proof.
  unfold to_upper.
  destruct (upper_long upper_special (Z.of_N c)) as [u|] eqn:E.
  - assert (H : forall table,
               forallb (fun e => negb (Nat.eqb (List.length (snd e)) 0)) table = true ->
               upper_long table (Z.of_N c) = Some u -> u <> []).
    { induction table as [|[k v] rest IH]; simpl; [discriminate|].
      intros Hall. apply andb_true_iff in Hall as [Hv Hrest].
      destruct (k =? Z.of_N c).
      - intros Hu. inversion Hu; subst. destruct u; [discriminate|discriminate].
      - now apply IH. }
    specialize (H upper_special eq_refl E). destruct u; [contradiction|discriminate].
  - destruct (upper_run upper_runs (Z.of_N c)); discriminate.
Qed.

(** A run that gives the upper case of [c] holds [c]. *)
Lemma upper_run_In (runs : list (Z * Z * Z * Z)) (c u : Z) :
  upper_run runs c = Some u ->
  exists first last step delta,
    In (first, last, step, delta) runs
    /\ first <= c <= last /\ u = c + delta.
Proof.
  induction runs as [|[[[first last] step] delta] rest IH]; simpl; [discriminate|].
  destruct ((first <=? c) && (c <=? last) && ((c - first) mod step =? 0)) eqn:E.
  - intros H. inversion H; subst. exists first, last, step, delta.
    apply andb_true_iff in E as [E _]. apply andb_true_iff in E as [E1 E2].
    apply Z.leb_le in E1. apply Z.leb_le in E2. repeat split; auto.
  - intros H. destruct (IH H) as (f & l & s & d & Hin & Hr).
    exists f, l, s, d. split; [now right|exact Hr].
Qed.

(** The letters A, B, C are the upper case of themselves and of a, b, c,
    and of no other code point. *)
Lemma to_upper_answer (c x : char) :
  to_upper c = [x] -> (x = 65 \/ x = 66 \/ x = 67)%N ->
  answer_char c = true /\ x = upper_char c.
Proof.
  unfold to_upper. intros H Hx.
  destruct (upper_long upper_special (Z.of_N c)) as [u|] eqn:E.
  - exfalso.
    assert (Hlong : forall table,
               forallb (fun e => Nat.leb 2 (List.length (snd e))) table = true ->
               upper_long table (Z.of_N c) = Some u -> (2 <= List.length u)%nat).
    { induction table as [|[k v] rest IH]; simpl; [discriminate|].
      intros Hall. apply andb_true_iff in Hall as [Hv Hrest].
      destruct (k =? Z.of_N c).
      - intros Hu. inversion Hu; subst. now apply Nat.leb_le.
      - now apply IH. }
    specialize (Hlong upper_special eq_refl E).
    apply (f_equal (@List.length _)) in H. rewrite length_map in H.
    simpl in H. lia.
  - destruct (upper_run upper_runs (Z.of_N c)) as [u|] eqn:Er.
    + inversion H; subst x.
      destruct (upper_run_In _ _ _ Er) as (first & last & step & delta & Hin & Hc & Hu).
      assert (Hruns : forallb (fun r => match r with
                                        | (f, l, s, d) =>
                                            ((f =? 97) && (l =? 122) && (d =? -32))
                                            || (67 <? f + d)
                                        end) upper_runs = true) by (vm_compute; reflexivity).
      rewrite forallb_forall in Hruns. specialize (Hruns _ Hin). simpl in Hruns.
      apply orb_true_iff in Hruns as [Hr|Hr].
      * apply andb_true_iff in Hr as [Hr Hd]. apply andb_true_iff in Hr as [Hf Hl].
        apply Z.eqb_eq in Hf. apply Z.eqb_eq in Hl. apply Z.eqb_eq in Hd.
        subst first last delta u.
        assert (Hcases : (c = 97 \/ c = 98 \/ c = 99)%N) by lia.
        destruct Hcases as [->|[->| ->]]; split; reflexivity.
      * apply Z.ltb_lt in Hr. lia.
    + inversion H; subst x.
      destruct Hx as [->|[->| ->]]; split; reflexivity.
Qed.

Lemma upper_answer_char (c : char) :
  answer_char c = true -> upper [c] = [upper_char c].
Proof.
  unfold answer_char. intros H.
  assert (Hc : (c = 97 \/ c = 98 \/ c = 99 \/ c = 65 \/ c = 66 \/ c = 67)%N).
  { apply orb_true_iff in H as [H|H]; apply andb_true_iff in H as [H1 H2];
      apply N.leb_le in H1; apply N.leb_le in H2; lia. }
  destruct Hc as [->|[->|[->|[->|[->| ->]]]]]; vm_compute; reflexivity.
Qed.

Lemma upper_nil (t : str) : upper t = [] -> t = [].
Proof.
  destruct t as [|c t]; auto. unfold upper. simpl. intros H.
  apply app_eq_nil in H as [H _]. now apply to_upper_not_empty in H.
Qed.

Lemma is_letter_upper (t : str) :
  is_letter (upper t) = true -> exists c, t = [c] /\ answer_char c = true.
Proof.
  intros H. apply is_letter_cases in H.
  assert (Hx : exists x, upper t = [x] /\ (x = 65 \/ x = 66 \/ x = 67)%N).
  { destruct H as [H|[H|H]]; rewrite H; eexists; split; try reflexivity; auto. }
  clear H. destruct Hx as (x & Hu & Hx).
  destruct t as [|c t]; [discriminate|].
  unfold upper in Hu. simpl in Hu. fold (upper t) in Hu.
  destruct (to_upper c) as [|y [|y' u]] eqn:E.
  - now apply to_upper_not_empty in E.
  - simpl in Hu. inversion Hu; subst y. rewrite (upper_nil t H1).
    exists c. split; auto. now apply (to_upper_answer c x).
  - discriminate.
Qed.

Lemma lstrip_In (c : char) (s : str) : In c (lstrip s) -> In c s.
Proof.
  induction s as [|x s IH]; simpl; auto.
  destruct (is_space x); simpl; auto.
Qed.

Lemma strip_In (c : char) (s : str) : In c (strip s) -> In c s.
Proof.
  unfold strip, rstrip. intros H.
  apply in_rev in H. apply lstrip_In in H. apply in_rev in H.
  now apply lstrip_In.
Qed.

Lemma no_answer_char (s : str) :
  Forall (fun c => answer_char c = false) s -> is_letter (upper (strip s)) = false.
Proof.
  intros H. destruct (is_letter (upper (strip s))) eqn:E; auto.
  apply is_letter_upper in E as (c & Hs & Hc).
  assert (Hin : In c s) by (apply strip_In; rewrite Hs; now left).
  rewrite Forall_forall in H. rewrite (H c Hin) in Hc. discriminate.
Qed.

Lemma uint_digits (d : Decimal.uint) :
  Forall (fun c => is_digit c = true) (lit (NilZero.string_of_uint d)).
Proof.
  assert (H : Forall (fun c => is_digit c = true) (lit (NilEmpty.string_of_uint d))).
  { unfold lit. induction d; simpl; constructor; auto. }
  destruct d; auto. repeat constructor.
Qed.

Lemma digit_plain (c : char) :
  is_digit c = true -> answer_char c = false /\ is_space c = false.
Proof.
  unfold is_digit. intros H.
  apply andb_true_iff in H as [H1 H2].
  apply N.leb_le in H1. apply N.leb_le in H2.
  assert (Hc : (c = 48 \/ c = 49 \/ c = 50 \/ c = 51 \/ c = 52 \/ c = 53 \/ c = 54
                \/ c = 55 \/ c = 56 \/ c = 57)%N) by lia.
  repeat (destruct Hc as [->|Hc]; [split; reflexivity|]). subst. split; reflexivity.
Qed.

Lemma dec_Z_plain (z : Z) : Forall (fun c => answer_char c = false) (dec_Z z).
Proof.
  assert (H : forall n, Forall (fun c => answer_char c = false) (dec_N n)).
  { intros n. unfold dec_N.
    eapply Forall_impl; [|apply uint_digits]. intros c Hc. now apply digit_plain. }
  destruct z; simpl; auto.
Qed.

Lemma shortest_digits_dec (f : float) :
  exists z k, shortest_digits f = (dec_Z z, k).
Proof.
  unfold shortest_digits.
  destruct (ratio_of_float (SFabs f)) as [n d].
  destruct (shortest_go 18 f n d (decimal_point n d) 1) as [c digits].
  eauto.
Qed.

Lemma float_repr_answer (f : float) : is_letter (upper (strip (float_repr f))) = false.
Proof.
  destruct f as [s|s| |s m e].
  - destruct s; reflexivity.
  - destruct s; reflexivity.
  - reflexivity.
  - apply no_answer_char. unfold float_repr.
    destruct (shortest_digits_dec (S754_finite s m e)) as (z & k & ->).
    pose proof (dec_Z_plain z) as Hz.
    assert (Hcut : forall n,
               Forall (fun c => answer_char c = false) (firstn n (dec_Z z))
               /\ Forall (fun c => answer_char c = false) (skipn n (dec_Z z))).
    { intros n. apply Forall_app. now rewrite firstn_skipn. }
    assert (Hfirst := fun n => proj1 (Hcut n)).
    assert (Hskip := fun n => proj2 (Hcut n)).
    assert (Hzeros : forall n, Forall (fun c => answer_char c = false) (zeros n)).
    { intros n. unfold zeros. apply Forall_forall. intros c Hc.
      apply repeat_spec in Hc. now subst. }
    assert (Hpad : forall x, Forall (fun c => answer_char c = false) (pad2 (dec_Z x))).
    { intros x. pose proof (dec_Z_plain x) as Hx. unfold pad2.
      destruct (dec_Z x) as [|a [|b r]]; auto. }
    apply Forall_app. split; [destruct s; repeat constructor|].
    destruct ((k <=? -4) || (16 <? k)).
    + apply Forall_app. split.
      * destruct (dec_Z z) as [|a [|b r]]; auto.
        inversion Hz; subst. constructor; auto.
      * apply Forall_app. split; [repeat constructor|].
        apply Forall_app. split; [destruct (k - 1 <? 0); repeat constructor|auto].
    + destruct (k <=? 0).
      * apply Forall_app. split; [repeat constructor|].
        apply Forall_app. split; auto.
      * destruct (Z.of_nat (List.length (dec_Z z)) <=? k).
        -- apply Forall_app. split; auto.
           apply Forall_app. split; [auto|repeat constructor].
        -- apply Forall_app. split; auto.
           apply Forall_app. split; [repeat constructor|auto].
Qed.

Lemma bracket_answer (c : char) (t : str) :
  is_space c = false -> answer_char c = false ->
  is_letter (upper (strip (c :: t))) = false.
Proof.
  intros Hs Hc.
  destruct (is_letter (upper (strip (c :: t)))) eqn:E; auto.
  apply is_letter_upper in E as (x & Hx & Ha).
  pose proof (strip_around [] t c Hs) as E. simpl in E.
  rewrite E in Hx. inversion Hx; subst. congruence.
Qed.

(** X1 ([normalize_answer]).  A prediction, when there is one, is one of the
    three letters A, B, C; and a string gives a prediction exactly when,
    without the whitespace around it, it is a single letter among a, b, c,
    A, B, C, the prediction being that letter in upper case. *)
Theorem normalize_answer_of_string :
  (forall v a,
     normalize_answer v = Some a -> a = lit "A" \/ a = lit "B" \/ a = lit "C")
  /\ (forall s,
        normalize_answer (VStr s)
        = match strip s with
          | [c] => if answer_char c then Some [upper_char c] else None
          | _ => None
          end).
Proof.
  split.
  - intros v a H. apply is_letter_cases. eapply normalize_answer_letter; eauto.
  - intros s. unfold normalize_answer. cbn [py_str].
    destruct (is_letter (upper (strip s))) eqn:E.
    + apply is_letter_upper in E as (c & -> & Hc). rewrite Hc.
      now rewrite (upper_answer_char c Hc).
    + destruct (strip s) as [|c [|c' t]]; auto.
      destruct (answer_char c) eqn:Hc; auto.
      rewrite (upper_answer_char c Hc) in E.
      apply upper_char_answer in Hc.
      unfold is_letter in E. simpl in E.
      destruct Hc as [Hc|[Hc|Hc]]; rewrite Hc in E; discriminate.
Qed.

(** X2 ([normalize_answer]).  Only a string can give a prediction: null, a
    boolean, a number, an array or an object as the answer of a reply gives
    none, whatever its text form is. *)
Theorem normalize_answer_only_of_strings (v : value) (a : str) :
  normalize_answer v = Some a -> exists s, v = VStr s.
Proof.
  unfold normalize_answer. destruct v as [|b|z|f|s|l|d]; cbn [py_str py_repr].
  - discriminate.
  - destruct b; discriminate.
  - rewrite (no_answer_char _ (dec_Z_plain z)). discriminate.
  - rewrite float_repr_answer. discriminate.
  - eauto.
  - change (lit "[" ++ join (lit ", ") (map py_repr l) ++ lit "]")
      with (91%N :: join (lit ", ") (map py_repr l) ++ lit "]").
    rewrite bracket_answer by reflexivity. discriminate.
  - match goal with
    | |- context [lit "{" ++ ?t] => change (lit "{" ++ t) with (123%N :: t)
    end.
    rewrite bracket_answer by reflexivity. discriminate.
Qed.

Lemma normalize_answer_only_of_strings_witness :
  exists s, VStr (lit " b ") = VStr s.
Proof.
  apply (normalize_answer_only_of_strings (VStr (lit " b ")) (lit "B")).
  reflexivity.
Defined.

(** ** [normalize_confidence] *)

(** X3 ([normalize_confidence]).  A confidence, when there is one, is a
    finite number from 0 to 100 that is not the negative zero, and
    normalising it again changes nothing. *)
Theorem normalize_confidence_finite_in_range (v : value) (r : float) :
  normalize_confidence v = inr (Some r) ->
  is_finite r = true
  /\ is_negative r = false
  /\ f_leb f_zero r = true /\ f_leb r f_hundred = true
  /\ normalize_confidence (VFloat r) = inr (Some r).
Proof.
  intros H.
  destruct (normalize_confidence_range v r H) as [H0 H100].
  pose proof (normalize_confidence_idempotent v r H) as Hi.
  repeat split; auto.
  - destruct r as [s|s| |s m e]; auto; destruct s; discriminate.
  - destruct r as [s|s| |s m e]; auto.
    + destruct s; auto.
      unfold normalize_confidence in Hi. cbn in Hi. discriminate.
    + destruct s; auto; discriminate.
    + destruct s; auto; discriminate.
Qed.

Lemma normalize_confidence_finite_in_range_witness :
  is_finite f_hundred = true
  /\ is_negative f_hundred = false
  /\ f_leb f_zero f_hundred = true /\ f_leb f_hundred f_hundred = true
  /\ normalize_confidence (VFloat f_hundred) = inr (Some f_hundred).
Proof.
  apply (normalize_confidence_finite_in_range (VStr (lit " 1e3 ")) f_hundred).
  vm_compute. reflexivity.
Defined.

(** ** [parse_json_response] *)

Lemma lstrip_app_space (a b : str) : all_space a -> lstrip (a ++ b) = lstrip b.
Proof.
  induction 1 as [|c a Hc Ha IH]; simpl; auto. now rewrite Hc.
Qed.

Lemma rstrip_app_space (a b : str) : all_space b -> rstrip (a ++ b) = rstrip a.
Proof.
  intros H. unfold rstrip. rewrite rev_app_distr.
  rewrite lstrip_app_space; auto.
  apply Forall_rev. exact H.
Qed.

Lemma strip_outer_space (lead text trail : str) :
  all_space lead -> all_space trail -> strip (lead ++ text ++ trail) = strip text.
Proof.
  intros Hl Ht.
  destruct (strip_cases text) as [[Ha E]|(x & c & y & Hc & Hx & Hs & E)].
  - rewrite E. unfold strip. rewrite lstrip_all_space; auto.
    apply Forall_app. split; auto. apply Forall_app. split; auto.
  - rewrite E. subst text.
    replace (lead ++ (x ++ c :: y) ++ trail) with ((lead ++ x) ++ c :: (y ++ trail))
      by (rewrite <- !app_assoc; reflexivity).
    rewrite strip_around by exact Hc.
    rewrite lstrip_all_space by (apply Forall_app; split; auto).
    now rewrite rstrip_app_space.
Qed.

(** X4 ([parse_json_response]).  Whitespace before and after a reply has no
    effect on what the parse step returns or raises. *)
Theorem parse_json_response_ignores_outer_whitespace (lead text trail : str) :
  all_space lead -> all_space trail ->
  parse_json_response (lead ++ text ++ trail) = parse_json_response text.
Proof.
  intros Hl Ht. unfold parse_json_response.
  now rewrite strip_outer_space.
Qed.

Lemma parse_json_response_ignores_outer_whitespace_witness :
  parse_json_response (nl ++ jlit "{'answer': 'A'}" ++ lit "  ")
  = parse_json_response (jlit "{'answer': 'A'}").
Proof.
  apply (parse_json_response_ignores_outer_whitespace nl (jlit "{'answer': 'A'}") (lit "  ")).
  - repeat constructor.
  - repeat constructor.
Defined.

(** ** The trial loader *)

Lemma load_trial_ext (fs1 fs2 : FileSystem) (p : path) :
  trials_root fs1 = trials_root fs2 ->
  read_text fs1 = read_text fs2 ->
  read_bytes fs1 = read_bytes fs2 ->
  load_trial fs1 p = load_trial fs2 p.
Proof.
  intros Hr Ht Hb. unfold load_trial, read_image, path_str.
  now rewrite Hr, Ht, Hb.
Qed.

Lemma discover_loop_ext (fs1 fs2 : FileSystem) (max_trials : option Z) :
  (forall p, load_trial fs1 p = load_trial fs2 p) ->
  forall meta_files acc,
    discover_loop fs1 max_trials meta_files acc
    = discover_loop fs2 max_trials meta_files acc.
Proof.
  intros H. induction meta_files as [|f rest IH]; intros acc; simpl; auto.
  rewrite H. destruct (load_trial fs2 f); simpl; auto.
  now rewrite IH.
Qed.

(** X5 ([discover_trials]).  The trials come in the order of their sorted
    paths: the order in which the directory walk yields the metadata files
    has no effect on what the loader returns or raises. *)
Theorem discover_trials_ignores_walk_order (root : str) (files1 files2 : list path)
  (text_of : path -> result str) (bytes_of : path -> result (list N))
  (max_trials : option Z) :
  Permutation files1 files2 ->
  discover_trials {| trials_root := root; rglob_metadata := files1;
                     read_text := text_of; read_bytes := bytes_of |} max_trials
  = discover_trials {| trials_root := root; rglob_metadata := files2;
                       read_text := text_of; read_bytes := bytes_of |} max_trials.
Proof.
  intros H. unfold discover_trials. simpl.
  rewrite (sorted_deterministic files1 files2 H).
  apply discover_loop_ext. intros p. now apply load_trial_ext.
Qed.

Lemma discover_trials_ignores_walk_order_witness :
  discover_trials
    {| trials_root := lit "Trials";
       rglob_metadata := [[lit "b"; lit "Metadata.json"]; [lit "a"; lit "Metadata.json"]];
       read_text := read_text (ex_fs "B"); read_bytes := read_bytes (ex_fs "B") |} None
  = discover_trials
      {| trials_root := lit "Trials";
         rglob_metadata := [[lit "a"; lit "Metadata.json"]; [lit "b"; lit "Metadata.json"]];
         read_text := read_text (ex_fs "B"); read_bytes := read_bytes (ex_fs "B") |} None.
Proof.
  apply (discover_trials_ignores_walk_order (lit "Trials")
           [[lit "b"; lit "Metadata.json"]; [lit "a"; lit "Metadata.json"]]
           [[lit "a"; lit "Metadata.json"]; [lit "b"; lit "Metadata.json"]]).
  apply perm_swap.
Defined.

Lemma discover_loop_loaded (fs : FileSystem) :
  forall (meta_files : list path) (acc ts : list TrialAssets),
    discover_loop fs None meta_files acc = inr ts ->
    exists loaded,
      ts = acc ++ loaded
      /\ Forall2 (fun p t => load_trial fs p = inr t) meta_files loaded.
Proof.
  induction meta_files as [|f rest IH]; intros acc ts H; simpl in H.
  - inversion H; subst. exists []. split; [now rewrite app_nil_r|constructor].
  - destruct (load_trial fs f) as [e|t] eqn:Et; simpl in H; [discriminate|].
    destruct (IH _ _ H) as (loaded & -> & Hl).
    exists (t :: loaded). split; [now rewrite <- app_assoc|].
    constructor; auto.
Qed.

(** X6 ([discover_trials]).  When the trials directory loads without a cap,
    it loads with every cap [n], and the result is the first [n] trials of
    the uncapped result, or the first one when [n] is below one. *)
Theorem discover_trials_cap_is_prefix (fs : FileSystem) (ts : list TrialAssets) (n : Z) :
  discover_trials fs None = inr ts ->
  discover_trials fs (Some n) = inr (firstn (Z.to_nat (Z.max 1 n)) ts).
Proof.
  unfold discover_trials. intros H.
  destruct (discover_loop_loaded fs _ _ _ H) as (loaded & -> & Hl).
  rewrite (discover_loop_capped fs n _ loaded Hl). simpl.
  now rewrite Z.sub_0_r.
Qed.

Lemma discover_trials_cap_is_prefix_witness :
  exists ta tb,
    discover_trials (ex_fs "B") None = inr [ta; tb]
    /\ discover_trials (ex_fs "B") (Some 1) = inr [ta].
Proof.
  destruct (discover_trials (ex_fs "B") None) as [e|ts] eqn:E;
    [vm_compute in E; discriminate|].
  pose proof (discover_trials_cap_is_prefix (ex_fs "B") ts 1 E) as H.
  destruct ts as [|ta [|tb [|tc ts]]]; try (vm_compute in E; discriminate).
  exists ta, tb. split; [reflexivity|exact H].
Defined.

Lemma discover_loop_grows (fs : FileSystem) (max_trials : option Z) :
  forall (meta_files : list path) (acc ts : list TrialAssets),
    discover_loop fs max_trials meta_files acc = inr ts ->
    (List.length acc <= List.length ts)%nat
    /\ (meta_files <> [] -> (List.length acc < List.length ts)%nat).
Proof.
  induction meta_files as [|f rest IH]; intros acc ts H; simpl in H.
  - inversion H; subst. split; [lia|congruence].
  - destruct (load_trial fs f) as [e|t] eqn:Et; simpl in H; [discriminate|].
    assert (Hlen : (List.length acc < List.length ts)%nat).
    { destruct (cap_reached max_trials (acc ++ [t])).
      - inversion H; subst. rewrite length_app. simpl. lia.
      - apply IH in H as [H _]. rewrite length_app in H. simpl in H. lia. }
    split; [lia|auto].
Qed.

(** X7 ([discover_trials]).  The loader returns no trial only for a
    directory without metadata files: with at least one, and whatever the
    cap, it raises or returns at least one trial; and it returns at most as
    many trials as there are metadata files. *)
Theorem discover_trials_empty_only_without_metadata (fs : FileSystem)
  (max_trials : option Z) :
  (discover_trials fs max_trials = inr [] <-> rglob_metadata fs = [])
  /\ (forall ts,
        discover_trials fs max_trials = inr ts ->
        (List.length ts <= List.length (rglob_metadata fs))%nat).
Proof.
  unfold discover_trials. split; [split|].
  - intros H. apply discover_loop_grows in H as [_ H].
    destruct (sorted_ascending (rglob_metadata fs)) as [_ Hp].
    destruct (sorted (rglob_metadata fs)) as [|f rest].
    + apply Permutation_nil in Hp. exact Hp.
    + simpl in H. assert (f :: rest <> []) by discriminate. apply H in H0. lia.
  - intros ->. reflexivity.
  - intros ts H.
    destruct (sorted_ascending (rglob_metadata fs)) as [_ Hp].
    rewrite <- (Permutation_length Hp).
    clear Hp. revert H. generalize (sorted (rglob_metadata fs)).
    assert (G : forall l acc, discover_loop fs max_trials l acc = inr ts ->
                              (List.length ts <= List.length acc + List.length l)%nat).
    { induction l as [|f rest IH]; intros acc H; simpl in H.
      - inversion H; subst. simpl. lia.
      - destruct (load_trial fs f) as [e|t]; simpl in H; [discriminate|].
        destruct (cap_reached max_trials (acc ++ [t])).
        + inversion H; subst. rewrite length_app. simpl. lia.
        + apply IH in H. rewrite length_app in H. simpl in *. lia. }
    intros l H. apply G in H. simpl in H. exact H.
Qed.

Lemma read_image_inv (fs : FileSystem) (p : path) (img : image) :
  read_image fs p = inr img ->
  exists data, read_bytes fs p = inr data /\ img = jpeg data.
Proof.
  unfold read_image. destruct (read_bytes fs p) as [e|data]; simpl; [discriminate|].
  intros H. inversion H. eauto.
Qed.

Lemma load_trial_images (fs : FileSystem) (p : path) (t : TrialAssets) :
  load_trial fs p = inr t ->
  exists front back a b c,
    map (read_bytes fs) (image_files p) = map inr [front; back; a; b; c]
    /\ label t = label_of p
    /\ ref_front t = jpeg front
    /\ ref_back t = jpeg back
    /\ candidates t = [(lit "A", jpeg a); (lit "B", jpeg b); (lit "C", jpeg c)].
Proof.
  unfold load_trial. intros H.
  do 9 step_result H.
  match type of H with
  | match ?id with _ => _ end = _ => destruct id; try discriminate H
  end;
    (destruct (read_image fs (removelast p ++ [lit "1_Reference_Front.jpg"]))
       as [?|i1] eqn:Himg1; simpl in H; [discriminate|];
     destruct (read_image fs (removelast p ++ [lit "2_Reference_Back.jpg"]))
       as [?|i2] eqn:Himg2; simpl in H; [discriminate|];
     destruct (read_image fs (removelast p ++ [lit "3_Target_A.jpg"]))
       as [?|i3] eqn:Himg3; simpl in H; [discriminate|];
     destruct (read_image fs (removelast p ++ [lit "3_Target_B.jpg"]))
       as [?|i4] eqn:Himg4; simpl in H; [discriminate|];
     destruct (read_image fs (removelast p ++ [lit "3_Target_C.jpg"]))
       as [?|i5] eqn:Himg5; simpl in H; [discriminate|];
     apply read_image_inv in Himg1 as (dfront & F1 & ->);
     apply read_image_inv in Himg2 as (dback & F2 & ->);
     apply read_image_inv in Himg3 as (da & F3 & ->);
     apply read_image_inv in Himg4 as (db & F4 & ->);
     apply read_image_inv in Himg5 as (dc & F5 & ->);
     exists dfront, dback, da, db, dc; inversion H; subst; simpl;
     unfold image_files, label_of; simpl; rewrite F1, F2, F3, F4, F5;
     repeat split; reflexivity).
Qed.

(** X8 ([discover_trials], [read_image]).  Every Trial Asset the loader
    returns comes from one metadata file of the directory: its label is the
    directory of that file relative to the root, its two reference images
    and its candidates A, B, C, in this order, are the base64 text of the
    five image files of that directory, each with the type image/jpeg. *)
Theorem loaded_trial_holds_the_five_images (fs : FileSystem)
  (max_trials : option Z) (trials : list TrialAssets) :
  discover_trials fs max_trials = inr trials ->
  Forall (fun t =>
            exists p front back a b c,
              In p (rglob_metadata fs)
              /\ map (read_bytes fs) (image_files p) = map inr [front; back; a; b; c]
              /\ label t = label_of p
              /\ ref_front t = jpeg front
              /\ ref_back t = jpeg back
              /\ candidates t = [(lit "A", jpeg a); (lit "B", jpeg b); (lit "C", jpeg c)])
    trials.
Proof.
  intros H. unfold discover_trials in H.
  apply (discover_loop_Forall fs _ max_trials (sorted (rglob_metadata fs)) [] trials);
    [| constructor | exact H].
  intros p t Hin Hl. apply (proj1 (sorted_In _ _)) in Hin.
  destruct (load_trial_images fs p t Hl) as (front & back & a & b & c & Hx).
  exists p, front, back, a, b, c. split; auto.
Qed.

Lemma loaded_trial_holds_the_five_images_witness :
  exists trials,
    discover_trials (ex_fs "B") None = inr trials
    /\ Forall (fun t =>
                 exists p front back a b c,
                   In p (rglob_metadata (ex_fs "B"))
                   /\ map (read_bytes (ex_fs "B")) (image_files p)
                      = map inr [front; back; a; b; c]
                   /\ label t = label_of p
                   /\ ref_front t = jpeg front
                   /\ ref_back t = jpeg back
                   /\ candidates t
                      = [(lit "A", jpeg a); (lit "B", jpeg b); (lit "C", jpeg c)])
         trials.
Proof.
  destruct (discover_trials (ex_fs "B") None) as [e|ts] eqn:E;
    [vm_compute in E; discriminate|].
  exists ts. split; [reflexivity|].
  apply (loaded_trial_holds_the_five_images (ex_fs "B") None ts E).
Defined.

Lemma load_trial_unreadable (fs : FileSystem) (p file : path) (e : exn) :
  In file (image_files p) ->
  read_bytes fs file = inl e ->
  exists e', load_trial fs p = inl e'.
Proof.
  intros Hin Hf.
  destruct (load_trial fs p) as [e'|t] eqn:E; eauto.
  destruct (load_trial_images fs p t E) as (front & back & a & b & c & Hm & _).
  exfalso. unfold image_files in *. simpl in Hin, Hm. inversion Hm.
  destruct Hin as [<-|[<-|[<-|[<-|[<-|[]]]]]]; congruence.
Qed.

(** X9 ([discover_trials], [read_image]).  The loader raises whenever one
    of the five image files of a trial it gets to cannot be read: no trial is
    returned with an image missing. *)
Theorem loader_raises_on_unreadable_image (fs : FileSystem) (max_trials : option Z)
  (p file : path) (e : exn) :
  In p (visited max_trials (sorted (rglob_metadata fs))) ->
  In file (image_files p) ->
  read_bytes fs file = inl e ->
  exists e', discover_trials fs max_trials = inl e'.
Proof.
  intros Hin Hfile Hf.
  destruct (load_trial_unreadable fs p file e Hfile Hf) as (e' & He).
  unfold discover_trials. destruct max_trials as [n|]; simpl in Hin.
  - apply (discover_loop_raises_capped fs p e' n He). simpl.
    now rewrite Z.sub_0_r.
  - apply (discover_loop_raises_uncapped fs p e' He). exact Hin.
Qed.

Lemma loader_raises_on_unreadable_image_witness :
  exists e', discover_trials ex_fs_no_images (Some 5) = inl e'.
Proof.
  apply (loader_raises_on_unreadable_image ex_fs_no_images (Some 5)
           [lit "a"; lit "Metadata.json"] [lit "a"; lit "3_Target_B.jpg"]
           (Exn FileNotFoundError (lit "[Errno 2] No such file or directory"))).
  - left. reflexivity.
  - right. right. right. left. reflexivity.
  - reflexivity.
Defined.

(** ** Base64 *)

Lemma b64_value_char (n : N) :
  (n < 64)%N ->
  b64_value (b64_char n) = Some n
  /\ (b64_char n =? 61)%N = false
  /\ (b64_char n <? 128)%N = true.
Proof.
  intros Hn.
  assert (H : forallb (fun n => match b64_value (b64_char n) with
                                | Some m => (m =? n)%N && negb (b64_char n =? 61)%N
                                            && (b64_char n <? 128)%N
                                | None => false
                                end)
                (map N.of_nat (seq 0 64)) = true) by (vm_compute; reflexivity).
  rewrite forallb_forall in H. specialize (H n).
  assert (Hin : In n (map N.of_nat (seq 0 64))).
  { apply in_map_iff. exists (N.to_nat n). split; [apply N2Nat.id|].
    apply in_seq. lia. }
  apply H in Hin. destruct (b64_value (b64_char n)) as [m|]; [|discriminate].
  apply andb_true_iff in Hin as [Hin H3]. apply andb_true_iff in Hin as [H1 H2].
  apply N.eqb_eq in H1. apply negb_true_iff in H2. subst. auto.
Qed.

Lemma a2b_go_char (v : N) (s : str) (quad : nat) (leftchar : N) (pads : nat)
  (out : list N) :
  (v < 64)%N ->
  a2b_go (b64_char v :: s) quad leftchar pads out
  = match quad with
    | O => a2b_go s 1 v 0 out
    | S O => a2b_go s 2 (v mod 16)%N 0 ((leftchar * 4 + v / 16)%N :: out)
    | S (S O) => a2b_go s 3 (v mod 4)%N 0 ((leftchar * 16 + v / 4)%N :: out)
    | _ => a2b_go s 0 0%N 0 ((leftchar * 64 + v)%N :: out)
    end.
Proof.
  intros Hv. destruct (b64_value_char v Hv) as (H1 & H2 & _).
  cbn [a2b_go]. now rewrite H2, H1.
Qed.

Lemma sextets (a b c : N) :
  (a < 256)%N -> (b < 256)%N -> (c < 256)%N ->
  let n := (a * 65536 + b * 256 + c)%N in
  (n / 262144 < 64)%N
  /\ (n / 262144 * 4 + (n / 4096) mod 64 / 16 = a)%N
  /\ (((n / 4096) mod 64) mod 16 * 16 + (n / 64) mod 64 / 4 = b)%N
  /\ (((n / 64) mod 64) mod 4 * 64 + n mod 64 = c)%N.
Proof.
  intros Ha Hb Hc n. subst n.
  repeat split; zify; Z.to_euclidean_division_equations; lia.
Qed.

Lemma sextets1 (a : N) :
  (a < 256)%N ->
  let n := (a * 65536)%N in
  (n / 262144 < 64)%N
  /\ (n / 262144 * 4 + (n / 4096) mod 64 / 16 = a)%N.
Proof.
  intros Ha n. subst n.
  repeat split; zify; Z.to_euclidean_division_equations; lia.
Qed.

Lemma sextets2 (a b : N) :
  (a < 256)%N -> (b < 256)%N ->
  let n := (a * 65536 + b * 256)%N in
  (n / 262144 < 64)%N
  /\ (n / 262144 * 4 + (n / 4096) mod 64 / 16 = a)%N
  /\ (((n / 4096) mod 64) mod 16 * 16 + (n / 64) mod 64 / 4 = b)%N.
Proof.
  intros Ha Hb n. subst n.
  repeat split; zify; Z.to_euclidean_division_equations; lia.
Qed.

Lemma mod64 (n : N) : (n mod 64 < 64)%N.
Proof. apply N.mod_lt. discriminate. Qed.

Lemma triple_ind (P : list N -> Prop) :
  P [] -> (forall a, P [a]) -> (forall a b, P [a; b]) ->
  (forall a b c rest, P rest -> P (a :: b :: c :: rest)) ->
  forall l, P l.
Proof.
  intros H0 H1 H2 H3.
  assert (H : forall n l, (List.length l <= n)%nat -> P l).
  { induction n as [|n IH]; intros l Hl.
    - destruct l; [auto|simpl in Hl; lia].
    - destruct l as [|a [|b [|c rest]]]; auto.
      apply H3. apply IH. simpl in Hl. lia. }
  intros l. apply (H (List.length l)). lia.
Qed.

Lemma a2b_go_encoded (data : list N) :
  is_bytes data ->
  forall out, a2b_go (b64encode data) 0 0%N 0 out = ok (rev out ++ data).
Proof.
  unfold is_bytes.
  induction data as [|a|a b|a b c rest IH] using triple_ind; intros Hb out.
  - simpl. now rewrite app_nil_r.
  - inversion Hb as [|? ? Ha _]; subst.
    destruct (sextets1 a Ha) as (S0 & S1).
    cbn [b64encode].
    rewrite a2b_go_char by exact S0.
    rewrite a2b_go_char by apply mod64.
    rewrite S1. reflexivity.
  - inversion Hb as [|? ? Ha Hb']; subst. inversion Hb' as [|? ? Hb0 _]; subst.
    destruct (sextets2 a b Ha Hb0) as (S0 & S1 & S2).
    cbn [b64encode].
    rewrite a2b_go_char by exact S0.
    rewrite a2b_go_char by apply mod64.
    rewrite a2b_go_char by apply mod64.
    rewrite S1, S2. cbn. now rewrite <- app_assoc.
  - inversion Hb as [|? ? Ha Hb']; subst. inversion Hb' as [|? ? Hb0 Hb'']; subst.
    inversion Hb'' as [|? ? Hc Hrest]; subst.
    destruct (sextets a b c Ha Hb0 Hc) as (S0 & S1 & S2 & S3).
    cbn [b64encode app].
    rewrite a2b_go_char by exact S0.
    rewrite a2b_go_char by apply mod64.
    rewrite a2b_go_char by apply mod64.
    rewrite a2b_go_char by apply mod64.
    rewrite S1, S2, S3. rewrite IH by exact Hrest.
    cbn [rev]. rewrite <- !app_assoc. reflexivity.
Qed.

Lemma b64encode_ascii (data : list N) :
  is_bytes data -> forallb (fun c => (c <? 128)%N) (b64encode data) = true.
Proof.
  unfold is_bytes.
  induction data as [|a|a b|a b c rest IH] using triple_ind; intros Hb.
  - reflexivity.
  - inversion Hb as [|? ? Ha _]; subst.
    destruct (sextets1 a Ha) as (S0 & _).
    cbn [b64encode forallb].
    rewrite (proj2 (proj2 (b64_value_char _ S0))).
    rewrite (proj2 (proj2 (b64_value_char _ (mod64 _)))). reflexivity.
  - inversion Hb as [|? ? Ha Hb']; subst. inversion Hb' as [|? ? Hb0 _]; subst.
    destruct (sextets2 a b Ha Hb0) as (S0 & _).
    cbn [b64encode forallb].
    rewrite (proj2 (proj2 (b64_value_char _ S0))).
    rewrite !(proj2 (proj2 (b64_value_char _ (mod64 _)))). reflexivity.
  - inversion Hb as [|? ? Ha Hb']; subst. inversion Hb' as [|? ? Hb0 Hb'']; subst.
    inversion Hb'' as [|? ? Hc Hrest]; subst.
    destruct (sextets a b c Ha Hb0 Hc) as (S0 & _).
    cbn [b64encode app forallb].
    rewrite (proj2 (proj2 (b64_value_char _ S0))).
    rewrite !(proj2 (proj2 (b64_value_char _ (mod64 _)))).
    rewrite IH by exact Hrest. reflexivity.
Qed.

Lemma b64_round_trip (data : list N) :
  is_bytes data -> b64decode (b64encode data) = inr data.
Proof.
  intros H. unfold b64decode. rewrite b64encode_ascii by exact H.
  now rewrite a2b_go_encoded.
Qed.

(** X10 ([read_image], [GeminiRunner.__call__]).  Decoding the base64 text
    of an image gives back the bytes of the file: what [read_image] encodes,
    [base64.b64decode] in the generative adapter decodes without a failure
    and without loss. *)
Theorem b64decode_b64encode (data : list N) :
  is_bytes data -> b64decode (b64encode data) = inr data.
Proof.
  apply b64_round_trip.
Qed.

Lemma b64decode_b64encode_witness :
  b64decode (b64encode [255; 216; 255; 224; 0]%N) = inr [255; 216; 255; 224; 0]%N.
Proof.
  apply (b64decode_b64encode [255; 216; 255; 224; 0]%N).
  repeat constructor.
Defined.

(** X11 ([read_image]).  The base64 text of a file of [n] bytes has
    [4 * ceil(n / 3)] characters: four for every three bytes, the last group
    padded. *)
Theorem b64encode_length (data : list N) :
  List.length (b64encode data) = (4 * ((List.length data + 2) / 3))%nat.
Proof.
  induction data as [|a|a b|a b c rest IH] using triple_ind; try reflexivity.
  cbn [b64encode app List.length]. rewrite IH.
  replace (S (S (S (List.length rest))) + 2)%nat
    with ((List.length rest + 2) + 1 * 3)%nat by lia.
  rewrite Nat.div_add by discriminate. lia.
Qed.

(** ** The request of a trial *)

Lemma candidate_cases (trial : TrialAssets) (letter : string) :
  (exists img, assoc_lookup (candidates trial) (lit letter) = Some img
               /\ candidate trial letter = inr img)
  \/ (assoc_lookup (candidates trial) (lit letter) = None
      /\ candidate trial letter = inl (Exn KeyError (repr_str (lit letter)))).
Proof.
  unfold candidate. destruct (assoc_lookup (candidates trial) (lit letter)); eauto.
Qed.

(** X12 ([build_openai_content]).  The content of a request is twelve
    parts, in this order: the caption and the image of the front view, the
    caption and the image of the back view, the heading of the candidates,
    then for each of A, B, C its caption and its image, and last the
    instruction; every image is a data URL.  Building it fails only when the
    trial lacks one of the three candidates, with the [KeyError] of the
    first letter, in the order A, B, C, that is missing. *)
Theorem build_openai_content_parts (trial : TrialAssets) :
  let has letter := assoc_lookup (candidates trial) (lit letter) in
  (forall a b c,
     has "A"%string = Some a -> has "B"%string = Some b -> has "C"%string = Some c ->
     build_openai_content trial
     = inr [ TextPart (lit "Reference Object - View 1 (Front):");
             ImagePart (data_url (ref_front trial));
             TextPart (lit "Reference Object - View 2 (Back - 180 degrees):");
             ImagePart (data_url (ref_back trial));
             TextPart (lit "--- CANDIDATES ---");
             TextPart (lit "Candidate A:"); ImagePart (data_url a);
             TextPart (lit "Candidate B:"); ImagePart (data_url b);
             TextPart (lit "Candidate C:"); ImagePart (data_url c);
             TextPart USER_INSTRUCTION ])
  /\ (has "A"%string = None ->
      build_openai_content trial = inl (Exn KeyError (lit "'A'")))
  /\ (has "A"%string <> None -> has "B"%string = None ->
      build_openai_content trial = inl (Exn KeyError (lit "'B'")))
  /\ (has "A"%string <> None -> has "B"%string <> None -> has "C"%string = None ->
      build_openai_content trial = inl (Exn KeyError (lit "'C'")))
  /\ (forall parts,
        build_openai_content trial = inr parts ->
        List.length parts = 12%nat
        /\ exists a b c,
             has "A"%string = Some a /\ has "B"%string = Some b
             /\ has "C"%string = Some c)
  /\ (forall e,
        build_openai_content trial = inl e ->
        exists letter,
          In letter ["A"; "B"; "C"]%string
          /\ has letter = None
          /\ e = Exn KeyError (repr_str (lit letter))).
Proof.
  intros has. subst has. cbv beta.
  unfold build_openai_content, candidate_parts.
  destruct (candidate_cases trial "A") as [(a & La & Ha)|(La & Ha)];
    rewrite Ha, La; cbn [rbind ok].
  2: { repeat split; try discriminate; try congruence.
       intros e H. inversion H. exists "A"%string. simpl. auto. }
  destruct (candidate_cases trial "B") as [(b & Lb & Hb)|(Lb & Hb)];
    rewrite Hb, Lb; cbn [rbind ok].
  2: { repeat split; try discriminate; try congruence.
       intros e H. inversion H. exists "B"%string. simpl. auto. }
  destruct (candidate_cases trial "C") as [(c & Lc & Hc)|(Lc & Hc)];
    rewrite Hc, Lc; cbn [rbind ok].
  2: { repeat split; try discriminate; try congruence.
       intros e H. inversion H. exists "C"%string. simpl. auto 6. }
  repeat split; try discriminate; try congruence.
  - intros a' b' c' A B C. inversion A; inversion B; inversion C. reflexivity.
  - inversion H. reflexivity.
  - exists a, b, c. auto.
Qed.

(** ** The chat-completions adapter *)

(** The requests of one call of the adapter. *)
Lemma adapter_requests (costs : Costs) (self : OpenAIStyleRunner)
  (trial : TrialAssets) (w : World) :
  exists new,
    calls (snd (OpenAIStyleRunner_call costs self trial w)) = calls w ++ new
    /\ (List.length new <= if json_mode self then 2 else 1)%nat
    /\ (forall e, build_openai_content trial = inl e -> new = [])
    /\ Forall (fun req =>
                 build_openai_content trial = inr (req_user req)
                 /\ req_model req = oa_model_id self
                 /\ req_system req = SYSTEM_PROMPT
                 /\ req_temperature req = temperature self
                 /\ req_timeout req = timeout self) new.
Proof.
  unfold OpenAIStyleRunner_call, bind, tick, lift, try_except, create, throw.
  destruct (build_openai_content trial) as [e|content] eqn:Ec; cbn.
  - exists []. rewrite app_nil_r. repeat split; auto. destruct (json_mode self); simpl; lia.
  - match goal with
    | |- context [respond ?c ?l ?r] => destruct (respond c l r) as [e|resp] eqn:Er
    end.
    + destruct (json_mode self) eqn:Ej; cbn.
      * match goal with
        | |- context [respond ?c ?l ?r] => destruct (respond c l r) as [e2|resp] eqn:Er2
        end.
        -- eexists [_; _]. rewrite <- app_assoc. cbn.
           split; [reflexivity|]. split; [simpl; lia|]. split; [discriminate|].
           repeat constructor.
        -- destruct (choices resp) as [|[text|] rest]; cbn;
             eexists [_; _]; rewrite <- app_assoc; cbn;
             (split; [reflexivity|]; split; [simpl; lia|]; split; [discriminate|];
              repeat constructor).
      * eexists [_]. cbn. split; [reflexivity|]. split; [simpl; lia|]. split; [discriminate|].
        repeat constructor.
    + destruct (choices resp) as [|[text|] rest]; cbn;
        eexists [_]; cbn;
        (split; [reflexivity|]; split; [destruct (json_mode self); simpl; lia|];
         split; [discriminate|]; repeat constructor).
Qed.

Lemma run_trial_calls (costs : Costs) (runner : Runner) (trial : TrialAssets)
  (w : World) :
  calls (snd (run_trial costs runner trial w)) = calls (snd (call runner trial w)).
Proof.
  unfold run_trial, bind, try_except, time_time, tick, lift, ret.
  destruct (call runner trial w) as [[e|raw] w1]; cbn; auto.
  destruct (py_get raw "answer" VNone); cbn; auto.
  destruct (py_get raw "confidence" VNone) as [|c]; cbn; auto.
  destruct (normalize_confidence c); cbn; auto.
  destruct (py_get raw "reasoning" (VStr [])); cbn; auto.
Qed.

Lemma run_loop_calls (costs : Costs) (runner : Runner) (k : nat) :
  (forall trial w,
     (List.length (calls (snd (call runner trial w))) <= List.length (calls w) + k)%nat) ->
  forall trials acc w,
    (List.length (calls (snd (run_loop costs runner trials acc w)))
     <= List.length (calls w) + k * List.length trials)%nat.
Proof.
  intros Hk. induction trials as [|trial rest IH]; intros acc w.
  - simpl. lia.
  - cbn [run_loop]. unfold bind.
    pose proof (run_trial_calls costs runner trial w) as Hc.
    pose proof (Hk trial w) as Hb.
    destruct (run_trial_total costs runner trial w) as (r & w1 & Hr & _).
    rewrite Hr in *. simpl in Hc.
    specialize (IH (acc ++ [r]) w1). rewrite Hc in IH. simpl List.length. lia.
Qed.

(** X13 ([OpenAIStyleRunner.__call__], [run_trials]).  A run with the
    chat-completions adapter sends at most two requests per trial, and at
    most one with structured-JSON mode off; every request of a trial carries
    the content built for that trial, the model, the system prompt, the
    temperature and the timeout of the adapter, and no request is sent for a
    trial whose content cannot be built. *)
Theorem adapter_sends_at_most_two_requests (costs : Costs) (self : OpenAIStyleRunner) :
  (forall trial w,
     exists new,
       calls (snd (OpenAIStyleRunner_call costs self trial w)) = calls w ++ new
       /\ (List.length new <= if json_mode self then 2 else 1)%nat
       /\ (forall e, build_openai_content trial = inl e -> new = [])
       /\ Forall (fun req =>
                    build_openai_content trial = inr (req_user req)
                    /\ req_model req = oa_model_id self
                    /\ req_system req = SYSTEM_PROMPT
                    /\ req_temperature req = temperature self
                    /\ req_timeout req = timeout self) new)
  /\ (forall run_name trials w,
        (List.length
           (calls (snd (run_trials costs run_name (openai_runner costs self) trials w)))
         <= List.length (calls w)
            + (if json_mode self then 2 else 1) * List.length trials)%nat).
Proof.
  split; [intros trial w; apply adapter_requests|].
  intros run_name trials w. unfold run_trials, bind.
  pose proof (run_loop_calls costs (openai_runner costs self)
                (if json_mode self then 2 else 1)) as Hl.
  assert (Hk : forall trial w0,
             (List.length (calls (snd (call (openai_runner costs self) trial w0)))
              <= List.length (calls w0) + (if json_mode self then 2 else 1))%nat).
  { intros trial w0. simpl.
    destruct (adapter_requests costs self trial w0) as (new & -> & Hn & _).
    rewrite length_app. lia. }
  specialize (Hl Hk trials [] w).
  destruct (run_loop costs (openai_runner costs self) trials [] w) as [[e|rs] w1];
    simpl in *; exact Hl.
Qed.

(** X14 ([OpenAIStyleRunner.__call__], [run_trials]).  A completion
    without a choice, or whose first choice has no content, does not stop the
    run: the adapter raises ([IndexError], [AttributeError]) and the trial is
    recorded as failed with the text of that failure. *)
Theorem reply_without_content_is_a_failed_trial (costs : Costs)
  (self : OpenAIStyleRunner) (trial : TrialAssets) (content : list Part)
  (w : World) (resp : Response) :
  build_openai_content trial = inr content ->
  respond (client self) (calls w) (request_of self content) = inr resp ->
  hd (Some []) (choices resp) = None \/ choices resp = [] ->
  exists res w1,
    run_trial costs (openai_runner costs self) trial w = (inr res, w1)
    /\ success res = false /\ prediction res = None /\ confidence res = None
    /\ error res
       = Some (match choices resp with
               | [] => lit "list index out of range"
               | _ => lit "'NoneType' object has no attribute 'strip'"
               end).
Proof.
  intros Hc Hr Hchoice.
  assert (Hcall : exists w1,
             call (openai_runner costs self) trial w
             = (inl (match choices resp with
                     | [] => Exn IndexError (lit "list index out of range")
                     | _ => no_attribute VNone "strip"
                     end), w1)).
  { simpl. unfold OpenAIStyleRunner_call, bind, tick, lift, try_except, create, throw.
    rewrite Hc. cbn.
    match goal with
    | |- context [respond ?c ?l ?r] =>
        change (respond c l r)
          with (respond (client self) (calls w) (request_of self content))
    end.
    rewrite Hr.
    destruct (choices resp) as [|[text|] rest]; cbn; eauto.
    destruct Hchoice as [H|H]; discriminate. }
  destruct Hcall as (w1 & Hcall).
  eexists. eexists. split; [apply (run_trial_call_raises costs _ trial w w1 _ Hcall)|].
  cbn. repeat split. destruct (choices resp); reflexivity.
Qed.

Lemma reply_without_content_is_a_failed_trial_witness :
  exists res w1,
    run_trial ex_costs (openai_runner ex_costs (ex_adapter provider_without_content true))
      ex_trial w0 = (inr res, w1)
    /\ success res = false /\ prediction res = None /\ confidence res = None
    /\ error res = Some (lit "'NoneType' object has no attribute 'strip'").
Proof.
  destruct (build_openai_content ex_trial) as [e|content] eqn:Ec;
    [vm_compute in Ec; discriminate|].
  apply (reply_without_content_is_a_failed_trial ex_costs
           (ex_adapter provider_without_content true) ex_trial content w0
           {| choices := [None] |} Ec).
  - reflexivity.
  - left. reflexivity.
Defined.

(** ** The generative adapter *)

Lemma gemini_candidate_jpeg (trial : TrialAssets) (letter : string) (data : list N) :
  is_bytes data ->
  candidate trial letter = inr (jpeg data) ->
  gemini_candidate trial letter
  = inr [ GText (lit "Candidate " ++ lit letter ++ lit ":");
          GBlob (lit "image/jpeg") data ].
Proof.
  intros Hb Hc. unfold gemini_candidate. rewrite Hc. cbn [rbind snd fst jpeg].
  now rewrite b64_round_trip.
Qed.

Lemma gemini_parts_jpeg (trial : TrialAssets)
  (front back a b c : list N) :
  Forall is_bytes [front; back; a; b; c] ->
  ref_front trial = jpeg front ->
  ref_back trial = jpeg back ->
  candidates trial = [(lit "A", jpeg a); (lit "B", jpeg b); (lit "C", jpeg c)] ->
  exists parts content,
    gemini_parts trial = inr parts
    /\ build_openai_content trial = inr content
    /\ List.length parts = 12%nat
    /\ blobs parts = map (fun data => (lit "image/jpeg", data)) [front; back; a; b; c]
    /\ gemini_texts parts = part_texts content.
Proof.
  intros Hb Hf Hk Hc.
  inversion Hb as [|? ? B1 Hb1]; subst. inversion Hb1 as [|? ? B2 Hb2]; subst.
  inversion Hb2 as [|? ? B3 Hb3]; subst. inversion Hb3 as [|? ? B4 Hb4]; subst.
  inversion Hb4 as [|? ? B5 _]; subst.
  assert (Ca : candidate trial "A" = inr (jpeg a)) by (unfold candidate; now rewrite Hc).
  assert (Cb : candidate trial "B" = inr (jpeg b)) by (unfold candidate; now rewrite Hc).
  assert (Cc : candidate trial "C" = inr (jpeg c)) by (unfold candidate; now rewrite Hc).
  unfold gemini_parts, build_openai_content, candidate_parts.
  rewrite Hf, Hk. cbn [snd fst jpeg].
  rewrite !b64_round_trip by assumption. cbn [rbind].
  rewrite (gemini_candidate_jpeg trial "A" a B3 Ca).
  rewrite (gemini_candidate_jpeg trial "B" b B4 Cb).
  rewrite (gemini_candidate_jpeg trial "C" c B5 Cc).
  rewrite Ca, Cb, Cc. cbn [rbind ok].
  eexists. eexists. repeat split.
Qed.

(** X15 ([GeminiRunner.__call__], [read_image]).  For a trial as the
    loader builds it, the generative adapter puts the bytes of the five image
    files themselves into its request, in the order front, back, A, B, C,
    each as image/jpeg, under the same captions and instruction as the
    chat-completions adapter. *)
Theorem gemini_parts_hold_the_image_bytes (trial : TrialAssets)
  (front back a b c : list N) :
  Forall is_bytes [front; back; a; b; c] ->
  ref_front trial = jpeg front ->
  ref_back trial = jpeg back ->
  candidates trial = [(lit "A", jpeg a); (lit "B", jpeg b); (lit "C", jpeg c)] ->
  exists parts content,
    gemini_parts trial = inr parts
    /\ build_openai_content trial = inr content
    /\ List.length parts = 12%nat
    /\ blobs parts = map (fun data => (lit "image/jpeg", data)) [front; back; a; b; c]
    /\ gemini_texts parts = part_texts content.
Proof.
  apply gemini_parts_jpeg.
Qed.

Lemma gemini_parts_hold_the_image_bytes_witness :
  exists parts content,
    gemini_parts ex_jpeg_trial = inr parts
    /\ build_openai_content ex_jpeg_trial = inr content
    /\ List.length parts = 12%nat
    /\ blobs parts
       = map (fun data => (lit "image/jpeg", data))
           [[255; 216; 255]; [255; 216; 255]; [255; 216; 255]; [1; 2]; [3]]%N
    /\ gemini_texts parts = part_texts content.
Proof.
  apply (gemini_parts_hold_the_image_bytes ex_jpeg_trial).
  - repeat constructor.
  - reflexivity.
  - reflexivity.
  - reflexivity.
Defined.

(** X16 ([GeminiRunner.__call__], [run_trials]).  A response of the
    generative model without text, or with empty text, is a failure of the
    adapter ([RuntimeError]), and so is a failure of the model call itself,
    which is not retried: either way the trial is recorded as failed with
    the text of the failure. *)
Theorem gemini_empty_text_is_a_failed_trial (costs : Costs) (self : GeminiRunner)
  (trial : TrialAssets) (parts : list GeminiPart) (w : World) :
  gemini_parts trial = inr parts ->
  let req := {| g_parts := parts;
                g_temperature := g_runner_temperature self;
                g_response_mime_type := lit "application/json";
                g_timeout := g_runner_timeout self |} in
  let outcome := generate_content (g_model self) (now w + build_cost costs trial) req in
  exists res w1,
    run_trial costs (gemini_runner costs self) trial w = (inr res, w1)
    /\ (outcome = inr None \/ outcome = inr (Some []) ->
        success res = false /\ prediction res = None
        /\ error res = Some (lit "Gemini returned empty text"))
    /\ (forall e,
          outcome = inl e ->
          success res = false /\ prediction res = None
          /\ error res = Some (exn_str e)).
Proof.
  intros Hp req outcome.
  assert (Hcall : forall e,
             outcome = inl e \/
             ((outcome = inr None \/ outcome = inr (Some []))
              /\ e = Exn RuntimeError (lit "Gemini returned empty text")) ->
             exists w1, call (gemini_runner costs self) trial w = (inl e, w1)).
  { intros e H. simpl.
    unfold GeminiRunner_call, bind, tick, lift, gemini_generate, throw.
    rewrite Hp. cbn.
    change (generate_content (g_model self) (now w + build_cost costs trial) _)
      with outcome.
    destruct H as [->|[[->| ->] ->]]; eauto. }
  destruct (run_trial_total costs (gemini_runner costs self) trial w)
    as (res & w1 & Hr & _).
  exists res, w1. split; [exact Hr|]. split.
  - intros H.
    destruct (Hcall (Exn RuntimeError (lit "Gemini returned empty text")))
      as (w2 & Hw2); [right; auto|].
    rewrite (run_trial_call_raises costs _ trial w w2 _ Hw2) in Hr.
    inversion Hr; subst. auto.
  - intros e H.
    destruct (Hcall e) as (w2 & Hw2); [left; auto|].
    rewrite (run_trial_call_raises costs _ trial w w2 _ Hw2) in Hr.
    inversion Hr; subst. auto.
Qed.

Lemma gemini_empty_text_is_a_failed_trial_witness :
  exists res w1,
    run_trial ex_costs (gemini_runner ex_costs (ex_gemini (gemini_replying (Some []))))
      ex_jpeg_trial w0 = (inr res, w1)
    /\ success res = false /\ prediction res = None
    /\ error res = Some (lit "Gemini returned empty text").
Proof.
  destruct (gemini_parts ex_jpeg_trial) as [e|parts] eqn:Ep;
    [vm_compute in Ep; discriminate|].
  destruct (gemini_empty_text_is_a_failed_trial ex_costs
              (ex_gemini (gemini_replying (Some []))) ex_jpeg_trial parts w0 Ep)
    as (res & w1 & Hr & Hempty & _).
  exists res, w1. split; [exact Hr|]. apply Hempty. right. reflexivity.
Defined.

(** ** Trial results and run summaries *)

Lemma run_trial_result (costs : Costs) (runner : Runner) (trial : TrialAssets)
  (w w1 : World) (res : TrialResult) :
  run_trial costs runner trial w = (inr res, w1) ->
  (error res = None ->
   exists a, prediction res = normalize_answer a
             /\ success res = answer_is_letter (normalize_answer a))
  /\ (error res <> None ->
      success res = false /\ prediction res = None /\ confidence res = None
      /\ reasoning res = []).
Proof.
  unfold run_trial, bind, try_except, time_time, tick, lift, ret.
  destruct (call runner trial w) as [[e|raw] w2]; cbn.
  - intros H. inversion H; subst. cbn. split; [discriminate|auto].
  - destruct (py_get raw "answer" VNone) as [e|a]; cbn.
    { intros H. inversion H; subst. cbn. split; [discriminate|auto]. }
    destruct (py_get raw "confidence" VNone) as [e|c]; cbn.
    { intros H. inversion H; subst. cbn. split; [discriminate|auto]. }
    destruct (normalize_confidence c) as [e|conf]; cbn.
    { intros H. inversion H; subst. cbn. split; [discriminate|auto]. }
    destruct (py_get raw "reasoning" (VStr [])) as [e|r]; cbn.
    { intros H. inversion H; subst. cbn. split; [discriminate|auto]. }
    intros H. inversion H; subst. cbn. split; [eauto|congruence].
Qed.

Lemma run_loop_Forall (costs : Costs) (runner : Runner) (P : TrialResult -> Prop) :
  (forall trial w w1 res, run_trial costs runner trial w = (inr res, w1) -> P res) ->
  forall trials acc w w1 rs,
    Forall P acc ->
    run_loop costs runner trials acc w = (inr rs, w1) ->
    Forall P rs.
Proof.
  intros HP. induction trials as [|trial rest IH]; intros acc w w1 rs Hacc H.
  - inversion H; subst. exact Hacc.
  - cbn [run_loop] in H. unfold bind in H.
    destruct (run_trial costs runner trial w) as [[e|r] w2] eqn:Er; [discriminate|].
    apply (IH (acc ++ [r]) w2 w1 rs); auto.
    apply Forall_app. split; auto. constructor; auto. eapply HP; eauto.
Qed.

(** X17 ([run_trials], [TrialResult.is_correct]).  In the results of a
    run, a result counts as correct only when it has no error, its
    prediction is the gold answer and that answer is one of A, B, C (so a
    trial whose gold answer is anything else is never counted correct); a
    result is a success exactly when it has a prediction; and a result with
    an error has no prediction, no confidence and no reasoning. *)
Theorem results_of_a_run_are_consistent (costs : Costs) (run_name : str)
  (runner : Runner) (trials : list TrialAssets) (w : World) :
  exists run w1,
    run_trials costs run_name runner trials w = (inr run, w1)
    /\ Forall (fun res =>
                 (is_correct res = true ->
                  error res = None /\ prediction res = Some (gold res)
                  /\ is_letter (gold res) = true)
                 /\ (success res = true <-> prediction res <> None)
                 /\ (error res <> None ->
                     prediction res = None /\ confidence res = None
                     /\ reasoning res = []))
         (results run).
Proof.
  destruct (run_trials_total costs runner run_name trials w) as (run & w1 & Hr & Hl & _).
  exists run, w1. split; [exact Hr|].
  apply (run_loop_Forall costs runner _) with (trials := trials) (acc := [])
                                              (w := w) (w1 := w1); auto.
  clear. intros trial w w1 res H.
  destruct (run_trial_result costs runner trial w w1 res H) as [Hok Herr].
  destruct (error res) as [msg|] eqn:Ee.
  - destruct Herr as (Hs & Hp & Hc & Ht); [discriminate|].
    unfold is_correct. rewrite Hs, Hp. repeat split; try discriminate; auto.
  - destruct (Hok eq_refl) as (a & Hp & Hs).
    assert (Hiff : success res = true <-> prediction res <> None).
    { rewrite Hs, Hp. destruct (normalize_answer a) as [x|] eqn:Ex; simpl.
      - rewrite (normalize_answer_letter a x Ex). split; [discriminate|auto].
      - split; [discriminate|congruence]. }
    split; [|split; [exact Hiff|congruence]].
    intros Hcorrect. unfold is_correct in Hcorrect.
    apply andb_true_iff in Hcorrect as [_ Hcorrect].
    destruct (prediction res) as [x|] eqn:Ex; [|discriminate].
    apply str_eqb_eq in Hcorrect. subst x.
    repeat split. eapply normalize_answer_letter. symmetry. exact Hp.
Qed.

(** X18 ([ModelRun.avg_confidence], [ModelRun.accuracy]).  A run has no
    average confidence exactly when none of its results has a confidence;
    and a run without a correct result, empty or not, has the accuracy 0.0
    and is reported with 0.0%. *)
Theorem summary_of_a_run_without_values (run : ModelRun) :
  (avg_confidence run = None <-> Forall (fun r => confidence r = None) (results run))
  /\ (filter is_correct (results run) = [] ->
      accuracy run = f_zero /\ format_pct1 (accuracy run) = lit "0.0%").
Proof.
  split.
  - unfold avg_confidence.
    assert (H : flat_map (fun r => match confidence r with Some c => [c] | None => [] end)
                  (results run) = []
                <-> Forall (fun r => confidence r = None) (results run)).
    { induction (results run) as [|r rs IH]; simpl.
      - split; auto.
      - destruct (confidence r) as [c|] eqn:Ec; simpl.
        + split; [discriminate|]. intros F. inversion F; subst. congruence.
        + rewrite IH. split; intros F; [constructor; auto|now inversion F]. }
    rewrite <- H.
    destruct (flat_map _ (results run)); split; auto; discriminate.
  - intros H.
    assert (Ha : accuracy run = f_zero).
    { unfold accuracy. destruct (results run) as [|r rs]; [reflexivity|].
      now rewrite H. }
    rewrite Ha. split; reflexivity.
Qed.

(** ** The rows of the report *)

Lemma words_go_plain (s : str) :
  forall cur,
    Forall (fun c => is_space c = false) cur ->
    Forall (Forall (fun c => is_space c = false)) (words_go cur s).
Proof.
  induction s as [|c s IH]; intros cur Hcur; simpl.
  - destruct cur; constructor; auto. now apply Forall_rev.
  - destruct (is_space c) eqn:Ec.
    + destruct cur; auto. constructor; auto. now apply Forall_rev.
    + apply IH. constructor; auto.
Qed.

Lemma join_space_plain (ws : list str) :
  Forall (Forall (fun c => is_space c = false)) ws ->
  Forall (fun c => is_space c = true -> c = 32%N) (join (lit " ") ws).
Proof.
  induction 1 as [|x ws Hx Hws IH]; simpl; auto.
  assert (Hx' : Forall (fun c => is_space c = true -> c = 32%N) x).
  { eapply Forall_impl; [|exact Hx]. simpl. intros c H1 H2. congruence. }
  destruct ws as [|y ws]; [exact Hx'|].
  apply Forall_app. split; [exact Hx'|].
  constructor; [reflexivity|exact IH].
Qed.

Lemma replace_pipe_plain (s : str) :
  Forall (fun c => is_space c = true -> c = 32%N) s ->
  Forall (fun c => is_space c = true -> c = 32%N) (replace_char 124%N (lit "\|") s).
Proof.
  unfold replace_char. induction 1 as [|x s Hx Hs IH]; simpl; auto.
  apply Forall_app. split; auto.
  destruct (x =? 124)%N; repeat constructor; auto; discriminate.
Qed.

Lemma replace_pipe_escaped (s : str) :
  forall prev, escaped 124%N prev (replace_char 124%N (lit "\|") s) = true.
Proof.
  unfold replace_char. induction s as [|x s IH]; intros prev; simpl; auto.
  destruct (x =? 124)%N eqn:Ex; simpl.
  - apply IH.
  - rewrite Ex. simpl. apply IH.
Qed.

(** X19 ([append_report]).  The row of a result ends with its notes cell,
    made from the error text, or from the reasoning when there is no error
    text; the cell of any note is one line in which every whitespace
    character is a single space character and every pipe comes right after
    a backslash. *)
Theorem report_note_is_one_escaped_line :
  (forall res,
     exists cells,
       result_row res
       = cells ++ lit " | " ++ note_cell (str_or (error res) (reasoning res)) ++ lit " |")
  /\ (forall note,
        Forall (fun c => is_space c = true -> c = 32%N) (note_cell note)
        /\ escaped 124%N false (note_cell note) = true).
Proof.
  split.
  - intros res. unfold result_row. fold (note_cell (str_or (error res) (reasoning res))).
    generalize (note_cell (str_or (error res) (reasoning res))) as note.
    generalize (match confidence res with Some c => format_1f c | None => lit "-" end)
      as conf_str.
    generalize (if is_correct res then lit "OK"
                else if success res then lit "WRONG" else lit "ERROR") as status.
    intros status conf_str note.
    exists (lit "| " ++ trial_label res ++ lit " | " ++ tr_condition res ++ lit " | "
              ++ gold res ++ lit " | " ++ str_or (prediction res) (lit "-") ++ lit " | "
              ++ conf_str ++ lit " | " ++ status).
    repeat rewrite <- app_assoc. reflexivity.
  - intros note. unfold note_cell. split.
    + apply replace_pipe_plain, join_space_plain, words_go_plain. constructor.
    + apply replace_pipe_escaped.
Qed.





(** X21 ([run_trials], [append_report]).  A trial whose runner call raises
    is written to the report with a dash as its prediction, a dash as its
    confidence, the status ERROR and the text of the failure as its note. *)
Theorem failed_trial_is_reported_as_error (costs : Costs) (runner : Runner)
  (trial : TrialAssets) (w w1 : World) (e : exn) :
  call runner trial w = (inl e, w1) ->
  exists res w2,
    run_trial costs runner trial w = (inr res, w2)
    /\ result_row res
       = lit "| " ++ label trial ++ lit " | " ++ condition trial ++ lit " | "
           ++ correct_answer trial ++ lit " | - | - | ERROR | "
           ++ note_cell (exn_str e) ++ lit " |".
Proof.
  intros H. eexists. eexists.
  split; [apply (run_trial_call_raises costs runner trial w w1 e H)|].
  unfold result_row, is_correct.
  cbn [error reasoning success prediction confidence trial_label tr_condition gold andb].
  assert (Hn : str_or (Some (exn_str e)) [] = exn_str e)
    by (destruct (exn_str e); reflexivity).
  rewrite Hn. fold (note_cell (exn_str e)).
  generalize (note_cell (exn_str e)) as note. intros note.
  cbn [str_or]. repeat rewrite <- app_assoc. reflexivity.
Qed.

Lemma failed_trial_is_reported_as_error_witness :
  exists res w2,
    run_trial ex_costs ex_flaky_runner ex_trial w0 = (inr res, w2)
    /\ result_row res
       = lit "| " ++ lit "shapes/t1" ++ lit " | " ++ lit "cube | low | 90" ++ lit " | "
           ++ lit "B" ++ lit " | - | - | ERROR | "
           ++ note_cell (lit "Request timed out.") ++ lit " |".
Proof.
  apply (failed_trial_is_reported_as_error ex_costs ex_flaky_runner ex_trial w0 w0
           timeout_error).
  reflexivity.
Defined.

(** ** Building the runners *)

Section BuildRunnersProperties.
Context {R : Type}.
Variable new_openai : value -> value -> value -> float -> Z -> value -> result R.
Variable new_gemini : value -> value -> float -> Z -> result R.
Variable temp : float.
Variable seconds : Z.

Lemma build_runner_accepts (entry_name : str) (info : value) (r : R) :
  build_runner new_openai new_gemini entry_name info temp seconds = inr r ->
  entry_incomplete info = false /\ names_known_provider info = true.
Proof.
  unfold build_runner, entry_incomplete, names_known_provider.
  destruct (py_get info "provider" VNone) as [e|provider]; [discriminate|].
  destruct (py_get info "model" VNone) as [e|model]; [discriminate|].
  destruct (py_get info "api_key" VNone) as [e|api_key]; [discriminate|].
  destruct (py_get info "base_url" VNone) as [e|base_url]; [discriminate|].
  destruct (py_get info "json_mode" (VBool true)) as [e|mode]; [discriminate|].
  cbn [rbind].
  destruct (negb (truthy api_key) || negb (truthy model) || negb (truthy provider));
    [discriminate|].
  destruct provider as [|b|z|f|p|l|d]; try discriminate.
  cbn [py_lower rbind ok].
  destruct (str_eqb (lower p) (lit "openai")); [auto|].
  destruct (str_eqb (lower p) (lit "gemini")); [auto|].
  intros H. cbv [raise] in H. discriminate H.
Qed.

Lemma build_runner_incomplete (entry_name : str) (d : list (str * value)) :
  entry_incomplete (VDict d) = true ->
  build_runner new_openai new_gemini entry_name (VDict d) temp seconds
  = inl (Exn ValueError
           (lit "Model entry '" ++ entry_name
              ++ lit "' is missing provider/model/api_key")).
Proof.
  unfold build_runner, entry_incomplete. cbn [py_get rbind ok].
  now intros ->.
Qed.

Lemma assoc_set_keys (k : str) (r : R) (name : str) :
  forall runners,
    In name (map fst (assoc_set runners k r)) <-> name = k \/ In name (map fst runners).
Proof.
  induction runners as [|[k' r'] runners IH]; simpl.
  - intuition.
  - destruct (str_eqb k' k) eqn:E; simpl.
    + apply str_eqb_eq in E. subst. intuition.
    + rewrite IH. intuition.
Qed.

Lemma build_loop_accepts (entries : list (str * value)) :
  forall acc runners,
    build_loop new_openai new_gemini entries temp seconds acc = inr runners ->
    Forall (fun entry => entry_incomplete (snd entry) = false
                         /\ names_known_provider (snd entry) = true) entries
    /\ (forall name,
          In name (map fst runners)
          <-> In name (map fst acc) \/ In name (map fst entries)).
Proof.
  induction entries as [|[entry_name info] rest IH]; intros acc runners H; simpl in H.
  - inversion H; subst. split; [constructor|]. simpl. intuition.
  - destruct (build_runner new_openai new_gemini entry_name info temp seconds)
      as [e|r] eqn:Er; simpl in H; [discriminate|].
    apply IH in H as [Hrest Hkeys]. split.
    + constructor; auto. simpl. eapply build_runner_accepts; eauto.
    + intros name. rewrite Hkeys, assoc_set_keys. simpl. intuition.
Qed.

Lemma complete_entries_of_built_runners (config : value)
  (runners : list (str * R)) :
  build_runners new_openai new_gemini config temp seconds = inr runners ->
  forall entries,
    py_get config "models" (VDict []) = inr (VDict entries) ->
    forall entry,
      In entry entries ->
      entry_incomplete (snd entry) = false /\ names_known_provider (snd entry) = true.
Proof.
  unfold build_runners. intros H entries Hm. rewrite Hm in H.
  cbn [rbind py_items ok] in H.
  apply build_loop_accepts in H as [Hall _].
  rewrite Forall_forall in Hall. exact Hall.
Qed.

(** X22 ([build_runners]).  When the runners are built, every entry of
    [models] has a provider, a model and an API key that are present and
    not empty, its provider is [openai] or [gemini] in any case, and the
    runners are keyed by the names of the entries: no entry is skipped and
    none is added. *)
Theorem build_runners_accepts_only_complete_entries (config : value)
  (runners : list (str * R)) :
  build_runners new_openai new_gemini config temp seconds = inr runners ->
  exists entries,
    py_get config "models" (VDict []) = inr (VDict entries)
    /\ Forall (fun entry => entry_incomplete (snd entry) = false
                            /\ names_known_provider (snd entry) = true) entries
    /\ (forall name, In name (map fst runners) <-> In name (map fst entries)).
Proof.
  unfold build_runners.
  destruct (py_get config "models" (VDict [])) as [e|models]; [discriminate|].
  cbn [rbind].
  destruct models as [| | | | | |entries]; try discriminate.
  cbn [py_items rbind ok]. intros H.
  apply build_loop_accepts in H as [Hall Hkeys].
  exists entries. repeat split; auto.
  - intros Hn. apply Hkeys in Hn. simpl in Hn. intuition.
  - intros Hn. apply Hkeys. auto.
Qed.

(** X23 ([build_runners]).  An entry that lacks its provider, its model or
    its API key stops the building of the runners: when it is the first
    entry, the failure is the [ValueError] that names it, raised before any
    client is set up; wherever it stands, no runners are returned. *)
Theorem build_runners_rejects_incomplete_entry (config : value)
  (entries : list (str * value)) :
  py_get config "models" (VDict []) = inr (VDict entries) ->
  (forall entry_name d rest,
     entries = (entry_name, VDict d) :: rest ->
     entry_incomplete (VDict d) = true ->
     build_runners new_openai new_gemini config temp seconds
     = inl (Exn ValueError
              (lit "Model entry '" ++ entry_name
                 ++ lit "' is missing provider/model/api_key")))
  /\ (forall entry,
        In entry entries ->
        entry_incomplete (snd entry) = true \/ names_known_provider (snd entry) = false ->
        exists e, build_runners new_openai new_gemini config temp seconds = inl e).
Proof.
  intros Hm. split.
  - intros entry_name d rest -> Hd. unfold build_runners. rewrite Hm.
    cbn [rbind py_items ok build_loop].
    now rewrite build_runner_incomplete.
  - intros entry Hin Hbad.
    destruct (build_runners new_openai new_gemini config temp seconds)
      as [e|runners] eqn:E; eauto.
    exfalso.
    destruct (complete_entries_of_built_runners config runners E entries Hm entry Hin)
      as [H1 H2].
    destruct Hbad; congruence.
Qed.

End BuildRunnersProperties.

Lemma build_runners_accepts_only_complete_entries_witness :
  exists entries,
    py_get ex_config "models" (VDict []) = inr (VDict entries)
    /\ Forall (fun entry => entry_incomplete (snd entry) = false
                            /\ names_known_provider (snd entry) = true) entries
    /\ (forall name,
          In name (map fst [(lit "gpt", lit "chat:gpt-5.2");
                            (lit "gemini", lit "generative:gemini-3-pro")])
          <-> In name (map fst entries)).
Proof.
  apply (build_runners_accepts_only_complete_entries ex_new_openai ex_new_gemini
           (float_of_ratio 2 10) 120 ex_config).
  reflexivity.
Defined.

Lemma build_runners_rejects_incomplete_entry_witness :
  build_runners ex_new_openai ex_new_gemini ex_config_without_key (float_of_ratio 2 10) 120
  = inl (Exn ValueError
           (lit "Model entry '" ++ lit "gpt" ++ lit "' is missing provider/model/api_key")).
Proof.
  apply (proj1 (build_runners_rejects_incomplete_entry ex_new_openai ex_new_gemini
                  (float_of_ratio 2 10) 120 ex_config_without_key
                  [(lit "gpt",
                    VDict [(lit "provider", VStr (lit "openai"));
                           (lit "model", VStr (lit "gpt-5.2"))]);
                   (lit "gemini", ex_entry "gemini" "gemini-3-pro" "key-2")]
                  eq_refl)
           (lit "gpt")
           [(lit "provider", VStr (lit "openai")); (lit "model", VStr (lit "gpt-5.2"))]
           [(lit "gemini", ex_entry "gemini" "gemini-3-pro" "key-2")]).
  - reflexivity.
  - reflexivity.
Defined.

(** ** The two adapters together *)

(** X24 ([discover_trials], [build_openai_content],
    [GeminiRunner.__call__]).  Every trial the loader returns can be turned
    into a request by both adapters: its three candidates are there, and its
    images decode. *)
Theorem loaded_trials_give_requests (fs : FileSystem) (max_trials : option Z)
  (trials : list TrialAssets) :
  (forall p data, read_bytes fs p = inr data -> is_bytes data) ->
  discover_trials fs max_trials = inr trials ->
  Forall (fun t =>
            exists content parts,
              build_openai_content t = inr content
              /\ gemini_parts t = inr parts
              /\ List.length content = 12%nat /\ List.length parts = 12%nat)
    trials.
Proof.
  intros Hbytes H. unfold discover_trials in H.
  apply (discover_loop_Forall fs _ max_trials (sorted (rglob_metadata fs)) [] trials);
    [| constructor | exact H].
  intros p t _ Hl.
  destruct (load_trial_images fs p t Hl)
    as (front & back & a & b & c & Hm & _ & Hf & Hb & Hc).
  unfold image_files in Hm. cbn [map] in Hm. inversion Hm.
  destruct (gemini_parts_jpeg t front back a b c) as (parts & content & Hp & Hk & Hn & _);
    auto.
  { repeat constructor; eapply Hbytes; eauto. }
  exists content, parts. repeat split; auto.
  unfold build_openai_content, candidate_parts, candidate in Hk.
  rewrite Hc in Hk. cbn in Hk. inversion Hk. reflexivity.
Qed.

Lemma loaded_trials_give_requests_witness :
  exists trials,
    discover_trials (ex_fs "B") None = inr trials
    /\ Forall (fun t =>
                 exists content parts,
                   build_openai_content t = inr content
                   /\ gemini_parts t = inr parts
                   /\ List.length content = 12%nat /\ List.length parts = 12%nat)
         trials.
Proof.
  destruct (discover_trials (ex_fs "B") None) as [e|ts] eqn:E;
    [vm_compute in E; discriminate|].
  exists ts. split; [reflexivity|].
  apply (loaded_trials_give_requests (ex_fs "B") None ts); [|exact E].
  intros p data Hd. inversion Hd. repeat constructor.
Defined.

(** X25 ([OpenAIStyleRunner.__call__], [GeminiRunner.__call__]).  Both
    adapters return what the parse step makes of the text of the reply; they
    differ on an empty text only, which the chat-completions adapter hands to
    the parse step and the generative adapter turns into a [RuntimeError]. *)
Theorem adapters_parse_the_same_reply (costs : Costs) (chat : OpenAIStyleRunner)
  (generative : GeminiRunner) (trial : TrialAssets) (content : list Part)
  (parts : list GeminiPart) (w : World) (resp : Response) (text : str)
  (rest : list (option str)) :
  build_openai_content trial = inr content ->
  gemini_parts trial = inr parts ->
  respond (client chat) (calls w) (request_of chat content) = inr resp ->
  choices resp = Some text :: rest ->
  generate_content (g_model generative) (now w + build_cost costs trial)
    (gemini_request_of generative parts) = inr (Some text) ->
  fst (OpenAIStyleRunner_call costs chat trial w) = parse_json_response text
  /\ fst (GeminiRunner_call costs generative trial w)
     = match text with
       | [] => inl (Exn RuntimeError (lit "Gemini returned empty text"))
       | _ => parse_json_response text
       end.
Proof.
  intros Hc Hp Hr Hch Hg. split.
  - unfold OpenAIStyleRunner_call, bind, tick, lift, try_except, create, throw.
    rewrite Hc. cbn.
    match goal with
    | |- context [respond ?c ?l ?r] =>
        change (respond c l r)
          with (respond (client chat) (calls w) (request_of chat content))
    end.
    rewrite Hr, Hch. reflexivity.
  - unfold GeminiRunner_call, bind, tick, lift, gemini_generate, throw.
    rewrite Hp. cbn.
    match goal with
    | |- context [generate_content ?m ?t ?r] =>
        change (generate_content m t r)
          with (generate_content (g_model generative) (now w + build_cost costs trial)
                  (gemini_request_of generative parts))
    end.
    rewrite Hg. destruct text; reflexivity.
Qed.

Lemma adapters_parse_the_same_reply_witness :
  let reply := jlit "{'answer': 'b', 'confidence': 87}" in
  fst (OpenAIStyleRunner_call ex_costs (ex_adapter (provider_replying reply) true)
         ex_jpeg_trial w0)
  = parse_json_response reply
  /\ fst (GeminiRunner_call ex_costs (ex_gemini (gemini_replying (Some reply)))
            ex_jpeg_trial w0)
     = parse_json_response reply.
Proof.
  intros reply.
  destruct (build_openai_content ex_jpeg_trial) as [e|content] eqn:Ec;
    [vm_compute in Ec; discriminate|].
  destruct (gemini_parts ex_jpeg_trial) as [e|parts] eqn:Ep;
    [vm_compute in Ep; discriminate|].
  apply (adapters_parse_the_same_reply ex_costs
           (ex_adapter (provider_replying reply) true)
           (ex_gemini (gemini_replying (Some reply))) ex_jpeg_trial content parts w0
           {| choices := [Some reply] |} reply [] Ec Ep);
    reflexivity.
Defined.
